(** * ar_render: perspective sizing and alpha compositing

    A shallow embedding of [src/ar_render.py]: the geometry solver
    [compute_object_size_px], the compositor [paste_object] and the loader
    [load_rgba]; and of [src/main.py]: [parse_positions] and the loop of
    [main] over the positions.

    Python values are modelled as follows.
    - [int] is [Z].
    - [float] is an instance of the interface [PyFloat].  The program runs
      on [Binary64.b64_float], IEEE 754 binary64 as CPython computes it.
      [Exact.Q_float], where every operation is exact rational arithmetic,
      gives the values the formulas have without rounding; the program
      can differ from them by rounding and by [OverflowError].  What holds
      of the program is stated for every instance, or for binary64 on
      ranges of inputs that are run one by one.
    - exceptions are values of [exn]; a computation that can raise returns
      [res].
    - numpy arrays are lists of rows; the arrays that [paste_object] can
      write to live in a [store] addressed by locations. *)

From Stdlib Require Import ZArith QArith Qround Qabs Lia Lqa Bool.
From Stdlib Require Import Floats.
From Stdlib Require Uint63.
From Stdlib Require String Ascii.
From stdpp Require Import base list.
Import String.StringSyntax Ascii.AsciiSyntax.

Delimit Scope string_scope with string.
Delimit Scope char_scope with char.
Open Scope Z_scope.

(** ** Exceptions and results *)

(** The messages of the [ValueError]s that can reach a caller of
    [paste_object]. *)
Inductive message :=
| msg_above_horizon   (* "Object cannot be rendered above the horizon or
                         with non-positive height" *)
| msg_out_of_bounds   (* "The object would extend beyond the background
                         boundaries" *)
| msg_nan_to_int      (* "cannot convert float NaN to integer" *)
| msg_broadcast.      (* "operands could not be broadcast together" *)

Inductive exn :=
| ZeroDivisionError
| OverflowError
| ValueError (m : message)
| cv2_error
| DanglingReference.  (* a location outside the store; no Python program
                         reaches it *)

Inductive res (A : Type) :=
| Ok (a : A)
| Raise (e : exn).
Arguments Ok {A} a.
Arguments Raise {A} e.

Definition res_bind {A B} (r : res A) (k : A -> res B) : res B :=
  match r with
  | Ok a => k a
  | Raise e => Raise e
  end.

Declare Scope res_scope.
Delimit Scope res_scope with res.
Notation "x <- e ;; k" := (res_bind e (fun x => k))
  (at level 100, e at next level, right associativity) : res_scope.

#[global] Instance message_eq_dec : EqDecision message.
Proof. solve_decision. Defined.
#[global] Instance exn_eq_dec : EqDecision exn.
Proof. solve_decision. Defined.

(** ** Python floats *)

(** What the renderer needs of the type [float].  [fdiv] is the quotient
    for a divisor that is not zero; Python's [/] is [truediv] below, which
    raises first when the divisor is zero. *)
Class PyFloat (F : Type) := {
  flit : Z -> F;            (* a float literal with an integral value *)
  of_int : Z -> res F;      (* int -> float, as in a mixed operation *)
  fadd : F -> F -> F;
  fsub : F -> F -> F;
  fmul : F -> F -> F;
  fdiv : F -> F -> F;
  fis_zero : F -> bool;     (* x == 0.0 *)
  fgt : F -> F -> bool;     (* x > y *)
  to_int : F -> res Z       (* int(x): truncation toward zero *)
}.

Definition truediv {F} `{PyFloat F} (a b : F) : res F :=
  if fis_zero b then Raise ZeroDivisionError else Ok (fdiv a b).

(** [a / b] for two ints: both operands become floats.  (CPython rounds the
    exact quotient once; that is the same float whenever both operands are
    below 2^53 in magnitude, as image dimensions are.) *)
Definition int_truediv {F} `{PyFloat F} (a b : Z) : res F :=
  if b =? 0 then Raise ZeroDivisionError
  else (x <- of_int a ;; y <- of_int b ;; Ok (fdiv x y))%res.

(** *** Exact arithmetic

    The formulas without rounding: every operation is exact, no conversion
    overflows and no value is a NaN.  The program does not run on this
    instance; it gives the values the results in binary64 are compared
    with. *)

Module Exact.

(** [int(q)]: the integer part of [q], toward zero. *)
Definition Qtrunc (q : Q) : Z := Z.quot (Qnum q) (Zpos (Qden q)).

#[global] Instance Q_float : PyFloat Q := {|
  flit := inject_Z;
  of_int z := Ok (inject_Z z);
  fadd := Qplus;
  fsub := Qminus;
  fmul := Qmult;
  fdiv := Qdiv;
  fis_zero q := Qeq_bool q 0;
  fgt x y := negb (Qle_bool x y);
  to_int q := Ok (Qtrunc q)
|}.

End Exact.

(** *** IEEE 754 binary64 *)

Module Binary64.

Definition of_Z (z : Z) : float :=
  SF2Prim (binary_normalize prec emax z 0 false).

(** The integer part of a finite float, toward zero. *)
Definition trunc (x : float) : res Z :=
  match Prim2SF x with
  | S754_zero _ => Ok 0
  | S754_finite s m e =>
      let v := match e with
               | Z0 => Zpos m
               | Zpos p => Z.shiftl (Zpos m) (Zpos p)
               | Zneg p => Z.shiftr (Zpos m) (Zpos p)
               end in
      Ok (if s then - v else v)
  | S754_infinity _ => Raise OverflowError
  | S754_nan => Raise (ValueError msg_nan_to_int)
  end.

#[global] Instance b64_float : PyFloat float := {|
  flit := of_Z;
  of_int z :=
    let x := of_Z z in
    if PrimFloat.is_infinity x then Raise OverflowError else Ok x;
  fadd := PrimFloat.add;
  fsub := PrimFloat.sub;
  fmul := PrimFloat.mul;
  fdiv := PrimFloat.div;
  fis_zero x := PrimFloat.eqb x 0%float;
  fgt x y := PrimFloat.ltb y x;
  to_int := trunc
|}.

End Binary64.

(** ** The camera *)

Record CameraParams (F : Type) := {
  focal_length_mm : F;
  sensor_width_mm : F;
  sensor_height_mm : F;
  camera_height_mm : F;
  ground_distance_mm : F
}.
Arguments focal_length_mm {F} _.
Arguments sensor_width_mm {F} _.
Arguments sensor_height_mm {F} _.
Arguments camera_height_mm {F} _.
Arguments ground_distance_mm {F} _.

(** The camera of [main.py]. *)
Definition main_camera {F} `{PyFloat F} : CameraParams F := {|
  focal_length_mm := flit 15;
  sensor_width_mm := flit 36;
  sensor_height_mm := flit 24;
  camera_height_mm := flit 1600;
  ground_distance_mm := flit 2000
|}.

(** ** The geometry solver *)

Section Solver.
Context {F : Type} `{PyFloat F}.
Open Scope res_scope.

(** [ar_render.py], lines 82-148.  The three occurrences of
    [camera.sensor_height_mm / 2] are three evaluations, as in the
    source. *)
Definition compute_object_size_px (camera : CameraParams F)
    (bg_height_px y_px : Z) (object_height_m : F) : res Z :=
  let H_mm := fmul object_height_m (flit 1000) in
  bg <- of_int bg_height_px ;;
  pixel_per_mm <- truediv bg (sensor_height_mm camera) ;;
  dy <- of_int (bg_height_px - y_px) ;;
  x_y_mm <- truediv dy pixel_per_mm ;;
  horizon <- truediv (sensor_height_mm camera) (flit 2) ;;
  if fgt x_y_mm horizon then Ok 0
  else
    let fc := fmul (focal_length_mm camera) (camera_height_mm camera) in
    half <- truediv (sensor_height_mm camera) (flit 2) ;;
    q <- truediv fc (fsub half x_y_mm) ;;
    let x_r_mm := fsub q (ground_distance_mm camera) in
    half' <- truediv (sensor_height_mm camera) (flit 2) ;;
    let top_mm :=
      fmul (focal_length_mm camera)
           (fsub (camera_height_mm camera) H_mm) in
    q' <- truediv top_mm (fadd (ground_distance_mm camera) x_r_mm) ;;
    let h_mm := fsub (fsub half' x_y_mm) q' in
    to_int (fmul h_mm pixel_per_mm).

End Solver.

(** ** numpy arrays *)

(** An array of shape (h, w) or (h, w, 3) is the list of its rows; a pixel
    of a three-channel array is a triple. *)
Abbreviation image A := (list (list A)).
Definition chan3 (A : Type) := (A * A * A)%type.

Definition map3 {A B} (f : A -> B) (p : chan3 A) : chan3 B :=
  let '(x, y, z) := p in (f x, f y, f z).
Definition zip3 {A B C} (f : A -> B -> C) (p : chan3 A) (q : chan3 B)
    : chan3 C :=
  let '(x, y, z) := p in let '(x', y', z') := q in (f x x', f y y', f z z').

(** The element at row [i], column [j]. *)
Definition px {A} (a : image A) (i j : nat) : option A :=
  a !! i ≫= (.!! j).

(** The array [a] has [h] rows of [w] elements each. *)
Definition has_shape {A} (a : image A) (h w : nat) : Prop :=
  length a = h /\ forall i row, a !! i = Some row -> length row = w.

(** [a.shape[:2]].  An array without rows has no first row to measure:
    its width reads 0. *)
Definition shape {A} (a : image A) : Z * Z :=
  (Z.of_nat (length a), Z.of_nat (length (hd [] a))).

(** The bound of a slice [lo:hi] on an axis of length [n], as Python
    clips it. *)
Definition norm_index (n i : Z) : Z :=
  if i <? 0 then Z.max 0 (i + n) else Z.min i n.

Definition slice {A} (lo hi : Z) (l : list A) : list A :=
  let n := Z.of_nat (length l) in
  let lo' := Z.to_nat (norm_index n lo) in
  let hi' := Z.to_nat (norm_index n hi) in
  take (hi' - lo') (drop lo' l).

(** [a[top:bottom, left:right]], read out. *)
Definition slice2 {A} (top bottom left right : Z) (a : image A) : image A :=
  slice left right <$> slice top bottom a.

Definition same_shape {A B} (a : image A) (b : image B) : bool :=
  bool_decide (length <$> a = length <$> b).

(** An operation on two arrays, element by element.  numpy also accepts
    operands whose shapes differ in axes of length one; [cv2.resize] returns
    the requested size, so [paste_object] never meets that case and it is
    not modelled: shapes that differ raise. *)
Definition elementwise {A B C} (f : A -> B -> C) (a : image A) (b : image B)
    : res (image C) :=
  if same_shape a b then Ok (zip_with (zip_with f) a b)
  else Raise (ValueError msg_broadcast).

(** The pixel at (i, j) after [a[r0:.., c0:..] = blk], [p] being the pixel
    before. *)
Definition written {A} (blk : image A) (r0 c0 i j : nat) (p : A) : A :=
  if bool_decide (r0 <= i)%nat && bool_decide (c0 <= j)%nat then
    match blk !! (i - r0)%nat ≫= (.!! (j - c0)%nat) with
    | Some v => v
    | None => p
    end
  else p.

(** [a[top:bottom, left:right] = blk], as the new value of [a]. *)
Definition assign_slice2 {A} (a : image A) (top bottom left right : Z)
    (blk : image A) : res (image A) :=
  if same_shape (slice2 top bottom left right a) blk then
    let r0 := Z.to_nat (norm_index (Z.of_nat (length a)) top) in
    Ok (imap (fun i row =>
          let c0 := Z.to_nat (norm_index (Z.of_nat (length row)) left) in
          imap (fun j p => written blk r0 c0 i j p) row) a)
  else Raise (ValueError msg_broadcast).

(** *** float32 *)

(** The arithmetic of [np.float32] arrays, and the conversions between
    them and [np.uint8] arrays. *)
Class NpFloat32 (G : Type) := {
  f32_of_u8 : Z -> G;       (* astype(np.float32) of a uint8 *)
  f32_one : G;              (* the scalar 1.0 *)
  f32_add : G -> G -> G;
  f32_sub : G -> G -> G;
  f32_mul : G -> G -> G;
  u8_of_f32 : G -> Z        (* astype(np.uint8) *)
}.

Module Exact32.

(** Exact arithmetic, the blend without rounding; the program runs on
    [Binary32.b32_float32].  The conversion to uint8 drops the fraction
    and keeps the low eight bits. *)
#[global] Instance Q_float32 : NpFloat32 Q := {|
  f32_of_u8 := inject_Z;
  f32_one := 1%Q;
  f32_add := Qplus;
  f32_sub := Qminus;
  f32_mul := Qmult;
  u8_of_f32 q := Exact.Qtrunc q mod 256
|}.

End Exact32.

Module Binary32.

Definition prec32 : Z := 24.
Definition emax32 : Z := 128.

Definition trunc (x : spec_float) : Z :=
  match x with
  | S754_finite s m e =>
      let v := match e with
               | Z0 => Zpos m
               | Zpos p => Z.shiftl (Zpos m) (Zpos p)
               | Zneg p => Z.shiftr (Zpos m) (Zpos p)
               end in
      if s then - v else v
  | _ => 0
  end.

(** IEEE 754 binary32.  The conversion to uint8 of a value outside
    [0, 256) is not defined by C; here it keeps the low eight bits of the
    integer part. *)
#[global] Instance b32_float32 : NpFloat32 spec_float := {|
  f32_of_u8 z := binary_normalize prec32 emax32 z 0 false;
  f32_one := binary_normalize prec32 emax32 1 0 false;
  f32_add := SFadd prec32 emax32;
  f32_sub := SFsub prec32 emax32;
  f32_mul := SFmul prec32 emax32;
  u8_of_f32 x := trunc x mod 256
|}.

End Binary32.

(** *** cv2.resize *)

(** [cv2.resize(src, (w, h), interpolation=...)].  OpenCV asserts that the
    source is not empty and, for an empty [dsize] (a width or height that
    is not positive), that a positive scale factor was passed, which
    [paste_object] never does: both raise [cv2.error].  The interpolation
    itself is the parameter [kernel]. *)
Definition cv2_resize {A} (kernel : image A -> Z -> Z -> image A)
    (src : image A) (dsize : Z * Z) : res (image A) :=
  let '(w, h) := dsize in
  let '(src_h, src_w) := shape src in
  if (src_h <=? 0) || (src_w <=? 0) || (w <=? 0) || (h <=? 0)
  then Raise cv2_error
  else Ok (kernel src w h).

(** Nearest-neighbour sampling, an interpolation to run examples with. *)
Definition nearest {A} (src : image A) (w h : Z) : image A :=
  let '(src_h, src_w) := shape src in
  omap (fun i => row ← src !! Z.to_nat (Z.of_nat i * src_h / h);
                 Some (omap (fun j => row !! Z.to_nat (Z.of_nat j * src_w / w))
                            (seq 0 (Z.to_nat w))))
       (seq 0 (Z.to_nat h)).

(** ** The store *)

(** The uint8 colour arrays that can be written to: the background and
    the copies made of it. *)
Definition loc := nat.
Abbreviation store := (list (image (chan3 Z))).

Definition M (A : Type) := store -> res A * store.

Definition ret {A} (a : A) : M A := fun s => (Ok a, s).
Definition raise {A} (e : exn) : M A := fun s => (Raise e, s).
Definition bind {A B} (m : M A) (k : A -> M B) : M B :=
  fun s => match m s with
           | (Ok a, s') => k a s'
           | (Raise e, s') => (Raise e, s')
           end.
Definition lift {A} (r : res A) : M A := fun s => (r, s).

Declare Scope M_scope.
Delimit Scope M_scope with M.
Notation "x <- e ;; k" := (bind e (fun x => k))
  (at level 100, e at next level, right associativity) : M_scope.
Notation "e ;;; k" := (bind e (fun _ => k))
  (at level 100, right associativity) : M_scope.

Definition load (l : loc) : M (image (chan3 Z)) :=
  fun s => match s !! l with
           | Some a => (Ok a, s)
           | None => (Raise DanglingReference, s)
           end.

(** [a.copy()]: a new array with the contents of [a]. *)
Definition np_copy (l : loc) : M loc :=
  fun s => match s !! l with
           | Some a => (Ok (length s), s ++ [a])
           | None => (Raise DanglingReference, s)
           end.

(** A view [a[top:bottom, left:right]]: it shares the pixels of [a]. *)
Record view := {
  base : loc;
  v_top : Z;
  v_bottom : Z;
  v_left : Z;
  v_right : Z
}.

(** Reading a view gives the pixels its base holds at that moment. *)
Definition read_view (v : view) : M (image (chan3 Z)) :=
  (a <- load (base v) ;;
   ret (slice2 (v_top v) (v_bottom v) (v_left v) (v_right v) a))%M.

(** [a[top:bottom, left:right] = blk] *)
Definition setitem (l : loc) (top bottom left right : Z)
    (blk : image (chan3 Z)) : M unit :=
  fun s => match s !! l with
           | Some a =>
               match assign_slice2 a top bottom left right blk with
               | Ok a' => (Ok tt, <[l := a']> s)
               | Raise e => (Raise e, s)
               end
           | None => (Raise DanglingReference, s)
           end.

(** ** The compositor *)

Section Compositor.
Context {F : Type} `{PyFloat F} {G : Type} `{NpFloat32 G}.
(** The interpolations of [cv2.INTER_CUBIC] on colour and of
    [cv2.INTER_LINEAR] on the mask. *)
Variable inter_cubic : image (chan3 Z) -> Z -> Z -> image (chan3 Z).
Variable inter_linear : image G -> Z -> Z -> image G.

(** Lines 205-207: the width that goes with the height [target_h]. *)
Definition scaled_width (orig_w orig_h target_h : Z) : res Z :=
  (aspect <- int_truediv orig_w orig_h ;;
   h <- of_int target_h ;;
   to_int (fmul aspect h))%res.

(** Lines 214-217: (top, bottom, left_, right_). *)
Definition region (y_px x_px target_w target_h : Z) : Z * Z * Z * Z :=
  let top := y_px - target_h in
  let bottom := y_px in
  let left_ := x_px - target_w / 2 in
  let right_ := left_ + target_w in
  (top, bottom, left_, right_).

(** The pixel (i, j) lies in the rectangle [top:bottom, left:right]. *)
Definition in_region (r : Z * Z * Z * Z) (i j : nat) : bool :=
  let '(top, bottom, left_, right_) := r in
  (top <=? Z.of_nat i) && (Z.of_nat i <? bottom)
  && (left_ <=? Z.of_nat j) && (Z.of_nat j <? right_).

(** Line 220. *)
Definition out_of_bounds (r : Z * Z * Z * Z) (bg_h bg_w : Z) : bool :=
  let '(top, bottom, left_, right_) := r in
  (top <? 0) || (bottom >? bg_h) || (left_ <? 0) || (right_ >? bg_w).

Definition astype_float32 (a : image (chan3 Z)) : image (chan3 G) :=
  (fun row : list (chan3 Z) => map3 f32_of_u8 <$> row) <$> a.
Definition astype_uint8 (a : image (chan3 G)) : image (chan3 Z) :=
  (fun row : list (chan3 G) => map3 u8_of_f32 <$> row) <$> a.
(** [np.dstack([a] * 3)] *)
Definition dstack3 (a : image G) : image (chan3 G) :=
  (fun row : list G => (fun x => (x, x, x)) <$> row) <$> a.
(** [1.0 - a] *)
Definition one_minus (a : image (chan3 G)) : image (chan3 G) :=
  (fun row : list (chan3 G) => map3 (f32_sub f32_one) <$> row) <$> a.

(** What lines 229-232 compute at one pixel: [c] of the resized object,
    [a] of the resized mask, [b] of the region of the background. *)
Definition blend_px (c : chan3 Z) (a : G) (b : chan3 Z) : chan3 Z :=
  map3 u8_of_f32
    (zip3 f32_add
       (zip3 f32_mul (map3 f32_of_u8 c) (a, a, a))
       (zip3 f32_mul (map3 f32_of_u8 b) (map3 (f32_sub f32_one) (a, a, a)))).

(** Lines 228-232, with the view [roi] already read. *)
Definition blend (resized_bgr : image (chan3 Z)) (resized_alpha : image G)
    (roi : image (chan3 Z)) : res (image (chan3 Z)) :=
  (let alpha_3ch := dstack3 resized_alpha in
   fg <- elementwise (zip3 f32_mul) (astype_float32 resized_bgr) alpha_3ch ;;
   bg <- elementwise (zip3 f32_mul) (astype_float32 roi)
           (one_minus alpha_3ch) ;;
   sum <- elementwise (zip3 f32_add) fg bg ;;
   Ok (astype_uint8 sum))%res.

(** [ar_render.py], lines 151-235.  [background] is the location of the
    caller's array; the object's arrays are only read, and are passed as
    values. *)
Definition paste_object (background : loc) (object_bgr : image (chan3 Z))
    (object_alpha : image G) (location : Z * Z) (object_height_m : F)
    (camera : CameraParams F) : M loc :=
  (let '(y_px, x_px) := location in
   bg <- load background ;;
   let '(bg_h, bg_w) := shape bg in
   target_h <- lift (compute_object_size_px camera bg_h y_px
                       object_height_m) ;;
   if target_h <=? 0 then raise (ValueError msg_above_horizon)
   else
     let '(orig_h, orig_w) := shape object_bgr in
     target_w <- lift (scaled_width orig_w orig_h target_h) ;;
     resized_bgr <- lift (cv2_resize inter_cubic object_bgr
                            (target_w, target_h)) ;;
     resized_alpha <- lift (cv2_resize inter_linear object_alpha
                              (target_w, target_h)) ;;
     let '(top, bottom, left_, right_) :=
       region y_px x_px target_w target_h in
     if out_of_bounds (top, bottom, left_, right_) bg_h bg_w
     then raise (ValueError msg_out_of_bounds)
     else
       result <- np_copy background ;;
       let roi := {| base := result; v_top := top; v_bottom := bottom;
                     v_left := left_; v_right := right_ |} in
       roi_now <- read_view roi ;;
       blended <- lift (blend resized_bgr resized_alpha roi_now) ;;
       setitem result top bottom left_ right_ blended ;;;
       ret result)%M.

End Compositor.

(** *** uint8 arrays and the two ends of the blend *)

Definition is_u8 (v : Z) : Prop := 0 <= v < 256.
Definition u8_px (p : chan3 Z) : Prop :=
  is_u8 p.1.1 /\ is_u8 p.1.2 /\ is_u8 p.2.
Definition u8_image (a : image (chan3 Z)) : Prop :=
  forall i j p, px a i j = Some p -> u8_px p.

(** One channel of [blend_px]. *)
Definition blend_channel {G} `{NpFloat32 G} (c : Z) (a : G) (b : Z) : Z :=
  u8_of_f32
    (f32_add (f32_mul (f32_of_u8 c) a)
             (f32_mul (f32_of_u8 b) (f32_sub f32_one a))).

(** What a float32 arithmetic owes the blend at a mask value that is zero
    ([transparent]) and at one that is one ([opaque]).  Both arithmetics of
    this file meet it: [Q_blend_laws] and [b32_blend_laws]. *)
Class BlendLaws (G : Type) `{NpFloat32 G} := {
  transparent : G -> Prop;
  opaque : G -> Prop;
  blend_transparent : forall (a : G) (c b : Z),
    transparent a -> is_u8 c -> is_u8 b -> blend_channel c a b = b;
  blend_opaque : forall (a : G) (c b : Z),
    opaque a -> is_u8 c -> is_u8 b -> blend_channel c a b = c
}.

(** A test that holds of every pair of uint8 values. *)
Definition all_u8_pairs (test : Z -> Z -> bool) : bool :=
  forallb (fun c => forallb (test c) (seqZ 0 256)) (seqZ 0 256).

(** ** Loading an image with transparency *)

(** What [cv2.imread(path, cv2.IMREAD_UNCHANGED)] gives for a file it can
    decode: an array of shape (h, w), or one of shape (h, w, channels)
    whose pixels are lists of [channels] values. *)
Inductive decoded :=
| Plane (a : image Z)
| Planes (channels : nat) (a : image (list Z)).

(** The exceptions of [load_rgba]. *)
Inductive load_error :=
| FileNotFoundError   (* "Could not load image at ..." *)
| IndexError          (* [rgba.shape[2]] of an array with two axes *)
| NotRGBA.            (* ValueError "Image must have an alpha channel
                         (RGBA)" *)

(** Division of [np.float32] arrays by a scalar. *)
Class NpFloat32Div (G : Type) `{NpFloat32 G} := {
  f32_div : G -> G -> G
}.

#[global] Instance b32_float32_div : NpFloat32Div spec_float := {|
  f32_div := SFdiv Binary32.prec32 Binary32.emax32
|}.

Section Load.
Context {G : Type} `{NpFloat32Div G}.
(** [cv2.imread]: [None] for a file that is missing or cannot be decoded. *)
Variable imread : String.string -> option decoded.

(** [rgba[:, :, :3]] *)
Definition colour_channels (rgba : image (list Z)) : image (chan3 Z) :=
  (fun row : list (list Z) =>
     (fun p : list Z => (p !!! 0%nat, p !!! 1%nat, p !!! 2%nat)) <$> row)
  <$> rgba.

(** [rgba[:, :, 3].astype(np.float32) / 255.0] *)
Definition alpha_channel (rgba : image (list Z)) : image G :=
  (fun row : list (list Z) =>
     (fun p : list Z => f32_div (f32_of_u8 (p !!! 3%nat)) (f32_of_u8 255))
     <$> row)
  <$> rgba.

(** [ar_render.py], lines 57-79. *)
Definition load_rgba (path : String.string)
    : load_error + (image (chan3 Z) * image G) :=
  match imread path with
  | None => inl FileNotFoundError
  | Some (Plane _) => inl IndexError
  | Some (Planes channels rgba) =>
      if negb (channels =? 4)%nat then inl NotRGBA
      else inr (colour_channels rgba, alpha_channel rgba)
  end.

End Load.

(** A decoded array of uint8 values with [channels] values at each of its
    [h] x [w] pixels. *)
Definition u8_planes (channels : nat) (a : image (list Z)) (h w : nat)
    : Prop :=
  has_shape a h w
  /\ forall i j p, px a i j = Some p ->
                   length p = channels /\ Forall is_u8 p.

(** ** The positions of [main.py] *)

(** [s.split(sep)] for a separator of one character: the pieces of [s]
    between the occurrences of [sep], the empty ones included. *)
Fixpoint str_split (sep : Ascii.ascii) (s : String.string)
    : list String.string :=
  match s with
  | String.EmptyString => [String.EmptyString]
  | String.String c rest =>
      if Ascii.eqb c sep then String.EmptyString :: str_split sep rest
      else match str_split sep rest with
           | piece :: pieces => String.String c piece :: pieces
           | [] => [String.String c String.EmptyString]
           end
  end.

(** [c in s] *)
Fixpoint contains (c : Ascii.ascii) (s : String.string) : bool :=
  match s with
  | String.EmptyString => false
  | String.String d rest => Ascii.eqb d c || contains c rest
  end.

(** [argparse.ArgumentTypeError("Invalid position format '{s}'. Expected
    'y,x'.")] *)
Inductive argparse_error :=
| ArgumentTypeError (s : String.string).

Section Positions.
(** [int(text)] on a string: [None] where it raises [ValueError]. *)
Variable py_int : String.string -> option Z.

(** The body of the [try], lines 45-48: [None] for any exception. *)
Definition parse_position (s : String.string) : option (Z * Z) :=
  match str_split ","%char s with
  | [y_str; x_str] =>
      y_px ← py_int y_str; x_px ← py_int x_str; Some (y_px, x_px)
  | _ => None
  end.

(** The loop of lines 43-52 with [positions] as it stands. *)
Fixpoint parse_positions_from (positions : list (Z * Z))
    (position_strings : list String.string)
    : argparse_error + list (Z * Z) :=
  match position_strings with
  | [] => inr positions
  | s :: rest =>
      match parse_position s with
      | Some position => parse_positions_from (positions ++ [position]) rest
      | None => inl (ArgumentTypeError s)
      end
  end.

(** [main.py], lines 40-53. *)
Definition parse_positions (position_strings : list String.string)
    : argparse_error + list (Z * Z) :=
  parse_positions_from [] position_strings.

End Positions.

(** ** The renders of [main.py] *)

(** [cv2.cvtColor(a, cv2.COLOR_BGR2RGB)]: the first and the third channel
    change places. *)
Definition cvtColor_BGR2RGB (a : image (chan3 Z)) : image (chan3 Z) :=
  (fun row : list (chan3 Z) =>
     (fun p : chan3 Z => (p.2, p.1.2, p.1.1)) <$> row) <$> a.

(** What the loop of [main] prints and writes. *)
Inductive output :=
| Skipping (position : Z * Z) (m : message)
    (* print(f"Skipping position {(y_px, x_px)}: {e}") *)
| imwrite (i : nat) (a : image (chan3 Z))
    (* cv2.imwrite(os.path.join(args.outdir, f"render_{i}.png"), a) *)
| Wrote (i : nat).
    (* print(f"Wrote {out_path}") *)

Section Main.
Context {F : Type} `{PyFloat F} {G : Type} `{NpFloat32 G}.
Variable inter_cubic : image (chan3 Z) -> Z -> Z -> image (chan3 Z).
Variable inter_linear : image G -> Z -> Z -> image G.
(** The location of the background array, the arrays of [load_rgba] and
    [args.height]. *)
Variable bg_bgr : loc.
Variable obj_bgr : image (chan3 Z).
Variable obj_alpha : image G.
Variable height : F.

(** [main.py], lines 112-127: the loop over [enumerate(positions)], from
    the index [i] on.  The result is the output in its order, the
    exception that ended the loop if one did, and the store.  Only a
    [ValueError] is caught. *)
Fixpoint main_loop (i : nat) (positions : list (Z * Z)) (s : store)
    : list output * option exn * store :=
  match positions with
  | [] => ([], None, s)
  | position :: rest =>
      match paste_object inter_cubic inter_linear bg_bgr obj_bgr obj_alpha
              position height main_camera s with
      | (Ok rendered, s') =>
          match s' !! rendered with
          | Some a =>
              let '(out, e, s'') := main_loop (S i) rest s' in
              (imwrite i (cvtColor_BGR2RGB a) :: Wrote i :: out, e, s'')
          | None => ([], Some DanglingReference, s')
          end
      | (Raise (ValueError m), s') =>
          let '(out, e, s'') := main_loop (S i) rest s' in
          (Skipping position m :: out, e, s'')
      | (Raise e, s') => ([], Some e, s')
      end
  end.

End Main.

(** The index that a line of output is about, if it carries one. *)
Definition output_index (o : output) : option nat :=
  match o with
  | Skipping _ _ => None
  | imwrite i _ => Some i
  | Wrote i => Some i
  end.

(** ** The quantities of the specification

    Each definition follows the words of the specification, over exact
    rationals; the solver of the source is [compute_object_size_px]. *)

Module Spec.
Local Open Scope Q_scope.

Section Quantities.
Variable camera : CameraParams Q.
Variables bg_height_px y_px : Z.
Variable object_height_m : Q.

Definition ppm : Q := inject_Z bg_height_px / sensor_height_mm camera.

Definition y_sensor_mm : Q :=
  inject_Z (bg_height_px - y_px) * sensor_height_mm camera
  / inject_Z bg_height_px.

Definition ground_range_mm : Q :=
  (focal_length_mm camera * camera_height_mm camera)
  / (sensor_height_mm camera / 2 - y_sensor_mm)
  - ground_distance_mm camera.

Definition h_mm : Q :=
  (sensor_height_mm camera / 2 - y_sensor_mm)
  - (focal_length_mm camera
     * (camera_height_mm camera - 1000 * object_height_m))
    / (ground_distance_mm camera + ground_range_mm).

End Quantities.


End Spec.

(** ** Inputs to run the code on *)

(** The camera of [main.py] moved below the ground plane. *)
Definition low_camera {F} `{PyFloat F} : CameraParams F := {|
  focal_length_mm := flit 15;
  sensor_width_mm := flit 36;
  sensor_height_mm := flit 24;
  camera_height_mm := flit (-1600);
  ground_distance_mm := flit 2000
|}.

(** The camera of [main.py] lying on the ground plane. *)
Definition ground_camera {F} `{PyFloat F} : CameraParams F := {|
  focal_length_mm := flit 15;
  sensor_width_mm := flit 36;
  sensor_height_mm := flit 24;
  camera_height_mm := flit 0;
  ground_distance_mm := flit 2000
|}.

(** The float that Python reads [0.4] as, the height in the usage note of
    [main.py]. *)
Definition height_0_4 : float := 0x1.999999999999ap-2%float.

(** A background of 48 rows and 8 columns, one colour. *)
Definition scene : image (chan3 Z) := replicate 48 (replicate 8 (10, 20, 30)).

(** A background of 3000 rows and 2 columns. *)
Definition tall_scene : image (chan3 Z) :=
  replicate 3000 (replicate 2 (0, 0, 0)).

(** An object of 2 rows and 2 columns. *)
Definition sprite : image (chan3 Z) :=
  [[(1, 2, 3); (4, 5, 6)]; [(7, 8, 9); (200, 201, 202)]].

(** An object of 2 rows and 1 column: higher than wide. *)
Definition thin_sprite : image (chan3 Z) := [[(1, 2, 3)]; [(7, 8, 9)]].

(** An object of 8 rows and 7 columns. *)
Definition wide_sprite : image (chan3 Z) := replicate 8 (replicate 7 (9, 9, 9)).

(** Masks over exact rationals. *)
Definition sprite_alpha_q : image Q := [[1; 0]; [1 # 2; 1]]%Q.
Definition thin_alpha_q : image Q := [[1]; [1]]%Q.
Definition wide_alpha_q : image Q := replicate 8 (replicate 7 1%Q).

(** Masks in binary32. *)
Definition b32 (m e : Z) : spec_float :=
  binary_normalize Binary32.prec32 Binary32.emax32 m e false.
Definition sprite_alpha_b32 : image spec_float :=
  [[b32 1 0; b32 0 0]; [b32 1 (-1); b32 1 0]].
Definition thin_alpha_b32 : image spec_float := [[b32 1 0]; [b32 1 0]].
Definition wide_alpha_b32 : image spec_float :=
  replicate 8 (replicate 7 (b32 1 0)).


(** ** Checking every integer of a range *)

(** [f] holds of the [n] integers from [lo] on. *)
Fixpoint forall_range (n : positive) (lo : Z) (f : Z -> bool) : bool :=
  match n with
  | xH => f lo
  | xO m => forall_range m lo f && forall_range m (lo + Zpos m) f
  | xI m =>
      f lo && forall_range m (lo + 1) f
      && forall_range m (lo + 1 + Zpos m) f
  end.

(** *** binary64 with the conversion of the processor *)

(** [int -> float] for an [int] in [0, 2^62) by the primitive conversion
    of 63-bit integers, which rounds as [Binary64.of_Z] does
    ([of_Z_quick]); everything else as in [Binary64.b64_float]. *)
Definition quick_of_Z (z : Z) : float :=
  if (0 <=? z) && (z <? 4611686018427387904) then PrimFloat.of_uint63 (Uint63.of_Z z)
  else Binary64.of_Z z.

Definition b64_quick : PyFloat float := {|
  flit := quick_of_Z;
  of_int z :=
    let x := quick_of_Z z in
    if PrimFloat.is_infinity x then Raise OverflowError else Ok x;
  fadd := PrimFloat.add;
  fsub := PrimFloat.sub;
  fmul := PrimFloat.mul;
  fdiv := PrimFloat.div;
  fis_zero x := PrimFloat.eqb x 0%float;
  fgt x y := PrimFloat.ltb y x;
  to_int := Binary64.trunc
|}.

(** ** The quantities of the solver, as the source computes them

    The same quantities as in [Spec], with every operation the float
    operation of the source and in the order of the source; [bg] and [dy]
    are [bg_height_px] and [bg_height_px - y_px] as floats. *)

Module Computed.
Section Quantities.
Context {F : Type} `{PyFloat F}.
Variable camera : CameraParams F.
Variables bg dy : F.
Variable object_height_m : F.

(** Line 122. *)
Definition pixel_per_mm : F := fdiv bg (sensor_height_mm camera).
(** Line 127. *)
Definition x_y_mm : F := fdiv dy pixel_per_mm.
(** [camera.sensor_height_mm / 2] *)
Definition half : F := fdiv (sensor_height_mm camera) (flit 2).
(** Lines 134-138. *)
Definition x_r_mm : F :=
  fsub (fdiv (fmul (focal_length_mm camera) (camera_height_mm camera))
             (fsub half x_y_mm))
       (ground_distance_mm camera).
(** Lines 141-146, with [H_mm] of line 118. *)
Definition h_mm : F :=
  fsub (fsub half x_y_mm)
       (fdiv (fmul (focal_length_mm camera)
                   (fsub (camera_height_mm camera)
                         (fmul object_height_m (flit 1000))))
             (fadd (ground_distance_mm camera) x_r_mm)).

End Quantities.
End Computed.

Section HorizonTest.
Context {F : Type} `{PyFloat F}.
Open Scope res_scope.

(** Lines 122-136 of the solver up to the first denominator: [None] when
    the test [x_y_mm > sensor_height_mm / 2] of line 130 holds, and
    otherwise the denominator [sensor_height_mm / 2 - x_y_mm] of line
    136.  The object height plays no part in it. *)
Definition horizon_test (camera : CameraParams F) (bg_height_px y_px : Z)
    : res (option F) :=
  bg <- of_int bg_height_px ;;
  pixel_per_mm <- truediv bg (sensor_height_mm camera) ;;
  dy <- of_int (bg_height_px - y_px) ;;
  x_y_mm <- truediv dy pixel_per_mm ;;
  horizon <- truediv (sensor_height_mm camera) (flit 2) ;;
  if fgt x_y_mm horizon then Ok None
  else
    half <- truediv (sensor_height_mm camera) (flit 2) ;;
    Ok (Some (fsub half x_y_mm)).

End HorizonTest.

(** ** Runs in binary64 over ranges of rows *)


(** Object heights to run the solver with: the float and the number of
    metres it stands for, as a fraction [n / d]. *)
Definition sample_heights : list (float * (Z * positive)) :=
  [(height_0_4, (2, 5%positive)); (0.5%float, (1, 2%positive));
   (1%float, (1, 1%positive))].

(** The integer part of [(y_px - bg_height_px / 2) * 1000 * (n / d) / 1600],
    which is [h_mm * ppm] for the camera of [main.py]
    ([reference_height_closed]). *)
Definition reference_height (n : Z) (d : positive) (bg_height_px y_px : Z)
    : Z :=
  Z.quot ((2 * y_px - bg_height_px) * 1000 * n) (3200 * Zpos d).

(** The rows [y_px, y_px + 1, ...] of a background of [bg_height_px] rows,
    [fuel] of them, with the camera of [main.py] in binary64: above the
    middle row the solver returns 0, on it it raises [ZeroDivisionError],
    below it it returns a height that is not less than [prev], the height
    of the row before, and is within one of [reference_height]. *)
Fixpoint rows_from (H : float) (n : Z) (d : positive) (bg_height_px : Z)
    (fuel : nat) (y_px prev : Z) : bool :=
  match fuel with
  | O => true
  | S fuel' =>
      match @compute_object_size_px float b64_quick
              (@main_camera float b64_quick) bg_height_px y_px H with
      | Ok z =>
          if 2 * y_px <? bg_height_px then
            (z =? 0) && rows_from H n d bg_height_px fuel' (y_px + 1) prev
          else if 2 * y_px =? bg_height_px then false
          else
            (prev <=? z)
            && (Z.abs (z - reference_height n d bg_height_px y_px) <=? 1)
            && rows_from H n d bg_height_px fuel' (y_px + 1) z
      | Raise ZeroDivisionError =>
          (2 * y_px =? bg_height_px)
          && rows_from H n d bg_height_px fuel' (y_px + 1) prev
      | Raise _ => false
      end
  end.

(** The rows 0 to [bg_height_px]. *)
Definition table_ok (H : float) (n : Z) (d : positive) (bg_height_px : Z)
    : bool :=
  rows_from H n d bg_height_px (S (Z.to_nat bg_height_px)) 0 0.


Definition middle_ok (y_px : Z) : bool :=
  match @horizon_test float b64_quick (@main_camera float b64_quick)
          (2 * y_px) y_px with
  | Ok (Some d) => PrimFloat.eqb d 0%float
  | _ => false
  end.


(** An object higher than wide, scaled to a height of one pixel, gets a
    width of zero. *)
Definition narrow_ok (orig_h orig_w : Z) : bool :=
  match @scaled_width float b64_quick orig_w orig_h 1 with
  | Ok z => z =? 0
  | Raise _ => false
  end.

(** ** Values to state the loader with *)

(** Equality of two binary floats as values of [spec_float]. *)
Definition sf_eqb (x y : spec_float) : bool :=
  match x, y with
  | S754_zero s, S754_zero t => Bool.eqb s t
  | S754_infinity s, S754_infinity t => Bool.eqb s t
  | S754_nan, S754_nan => true
  | S754_finite s m e, S754_finite t n f =>
      Bool.eqb s t && Pos.eqb m n && Z.eqb e f
  | _, _ => false
  end.

(** A list of four values at every pixel, as a file with transparency
    decodes to. *)
Definition rgba_file : image (list Z) :=
  [[[1; 2; 3; 0]; [4; 5; 6; 255]]; [[7; 8; 9; 128]; [200; 201; 202; 255]]].


(** ** The solver in exact arithmetic *)

Module ExactGeometry.
Import Exact Spec.
Local Open Scope Q_scope.

(** *** The integer part *)

Lemma Qtrunc_nonneg (q : Q) : 0 <= q -> Qtrunc q = Qfloor q.
Proof.
  destruct q as [n d]; unfold Qle, Qtrunc; cbn; intros Hq.
  apply Z.quot_div_nonneg; lia.
Qed.

Lemma Qtrunc_nonpos (q : Q) : q <= 0 -> Qtrunc q = Qceiling q.
Proof.
  destruct q as [n d]; unfold Qle, Qtrunc, Qceiling; cbn; intros Hq.
  replace n with (- - n)%Z at 1 by lia.
  rewrite Z.quot_opp_l by lia.
  f_equal. apply Z.quot_div_nonneg; lia.
Qed.

Lemma Qtrunc_comp (p q : Q) : p == q -> Qtrunc p = Qtrunc q.
Proof.
  intros E. destruct (Qlt_le_dec p 0) as [Hn | Hp].
  - rewrite !Qtrunc_nonpos.
    + now rewrite E.
    + rewrite <- E. now apply Qlt_le_weak.
    + now apply Qlt_le_weak.
  - rewrite !Qtrunc_nonneg.
    + now rewrite E.
    + now rewrite <- E.
    + assumption.
Qed.




(** *** Division and comparison *)

Lemma truediv_ok (a b : Q) : ~ b == 0 -> truediv a b = Ok (a / b).
Proof.
  intros Hb. unfold truediv; cbn.
  destruct (Qeq_bool b 0) eqn:E; [|reflexivity].
  apply Qeq_bool_iff in E. contradiction.
Qed.

Lemma truediv_zero (a b : Q) : b == 0 -> truediv a b = Raise ZeroDivisionError.
Proof.
  intros Hb. unfold truediv; cbn.
  apply Qeq_bool_iff in Hb. now rewrite Hb.
Qed.


Lemma fgt_false (a b : Q) : a <= b -> fgt a b = false.
Proof.
  intros Hle; cbn. apply Qle_bool_iff in Hle. now rewrite Hle.
Qed.

Lemma inject_Z_nonzero (z : Z) : z <> 0%Z -> ~ inject_Z z == 0.
Proof.
  intros Hz E. apply Hz. unfold Qeq in E; cbn in E. lia.
Qed.

Lemma two_nonzero : ~ inject_Z 2 == 0.
Proof. now apply inject_Z_nonzero. Qed.

(** The source divides by the pixel density where the specification
    multiplies by the sensor height. *)
Lemma x_y_mm_eq (s : Q) (bg y : Z) :
  bg <> 0%Z -> ~ s == 0 ->
  inject_Z (bg - y) / (inject_Z bg / s) == inject_Z (bg - y) * s / inject_Z bg.
Proof.
  intros Hbg Hs. field. split; [now apply inject_Z_nonzero | assumption].
Qed.

Lemma ppm_nonzero (s : Q) (bg : Z) :
  bg <> 0%Z -> ~ s == 0 -> ~ inject_Z bg / s == 0.
Proof.
  intros Hbg Hs E. apply (inject_Z_nonzero bg Hbg).
  rewrite <- (Qmult_div_r (inject_Z bg) s) by assumption.
  rewrite E. ring.
Qed.

(** *** The four outcomes of the solver *)

Section Outcomes.
Variable camera : CameraParams Q.
Variables bg_height_px y_px : Z.
Variable object_height_m : Q.
Hypothesis bg_nonzero : bg_height_px <> 0%Z.
Hypothesis sensor_nonzero : ~ sensor_height_mm camera == 0.

Abbreviation s := (sensor_height_mm camera).
Abbreviation ys := (y_sensor_mm camera bg_height_px y_px).

(** The sensor coordinate as the source computes it. *)
Let x_y_mm : Q :=
  inject_Z (bg_height_px - y_px) / (inject_Z bg_height_px / s).

Lemma x_y_mm_spec : x_y_mm == ys.
Proof. apply x_y_mm_eq; assumption. Qed.

Lemma first_denominator : s / inject_Z 2 - x_y_mm == s / 2 - ys.
Proof. rewrite x_y_mm_spec. reflexivity. Qed.

Lemma second_denominator :
  ground_distance_mm camera
  + (focal_length_mm camera * camera_height_mm camera
     / (s / inject_Z 2 - x_y_mm) - ground_distance_mm camera)
  == ground_distance_mm camera
     + ground_range_mm camera bg_height_px y_px.
Proof. unfold ground_range_mm. rewrite x_y_mm_spec. reflexivity. Qed.

(** The prefix every run shares: the density, the sensor coordinate
    and the horizon are computed without raising. *)
Local Ltac run_prefix :=
  unfold compute_object_size_px; cbn [of_int Q_float res_bind];
  rewrite (truediv_ok _ (sensor_height_mm camera)) by assumption;
  cbn [res_bind];
  rewrite (truediv_ok _ (inject_Z bg_height_px / _))
    by (apply ppm_nonzero; assumption);
  cbn [res_bind];
  rewrite !(truediv_ok _ (flit (F:=Q) 2)) by apply two_nonzero;
  cbn [res_bind flit fadd fsub fmul Q_float];
  fold x_y_mm.


Lemma solver_at_horizon :
  ys == s / 2 ->
  compute_object_size_px camera bg_height_px y_px object_height_m
  = Raise ZeroDivisionError.
Proof.
  intros Heq. run_prefix.
  rewrite fgt_false.
  2:{ rewrite x_y_mm_spec. apply Qle_lteq. now right. }
  rewrite truediv_zero; [reflexivity|].
  rewrite first_denominator. lra.
Qed.

Lemma below_horizon_nonzero : ys < s / 2 -> ~ s / inject_Z 2 - x_y_mm == 0.
Proof.
  intros Hlt E. rewrite first_denominator in E. lra.
Qed.

Lemma solver_second_denominator :
  ys < s / 2 ->
  ground_distance_mm camera
  + ground_range_mm camera bg_height_px y_px == 0 ->
  compute_object_size_px camera bg_height_px y_px object_height_m
  = Raise ZeroDivisionError.
Proof.
  intros Hlt Hz. run_prefix.
  rewrite fgt_false.
  2:{ rewrite x_y_mm_spec. now apply Qlt_le_weak. }
  rewrite truediv_ok by now apply below_horizon_nonzero.
  cbn [res_bind].
  rewrite truediv_zero; [reflexivity|].
  rewrite second_denominator. exact Hz.
Qed.

Lemma solver_below_horizon :
  ys < s / 2 ->
  ~ ground_distance_mm camera
    + ground_range_mm camera bg_height_px y_px == 0 ->
  compute_object_size_px camera bg_height_px y_px object_height_m
  = Ok (Qtrunc (h_mm camera bg_height_px y_px object_height_m
                * ppm camera bg_height_px)).
Proof.
  intros Hlt Hnz. run_prefix.
  rewrite fgt_false.
  2:{ rewrite x_y_mm_spec. now apply Qlt_le_weak. }
  rewrite truediv_ok by now apply below_horizon_nonzero.
  cbn [res_bind].
  rewrite truediv_ok.
  2:{ rewrite second_denominator. exact Hnz. }
  cbn [res_bind to_int Q_float]. f_equal. apply Qtrunc_comp.
  unfold h_mm, ppm, ground_range_mm.
  rewrite x_y_mm_spec.
  rewrite (Qmult_comm object_height_m). reflexivity.
Qed.

End Outcomes.

(** *** The closed form of the height *)

Lemma ground_sum_gen (f c g d : Q) :
  ~ d == 0 -> g + (f * c / d - g) == f * c / d.
Proof. intros Hd. field. exact Hd. Qed.

Lemma h_mm_closed_gen (f c g d h : Q) :
  ~ d == 0 -> ~ f == 0 -> ~ c == 0 ->
  d - f * (c - 1000 * h) / (g + (f * c / d - g)) == d * (1000 * h / c).
Proof.
  intros Hd Hf Hc. rewrite ground_sum_gen by assumption.
  field. repeat split; assumption.
Qed.

Section ClosedForm.
Variable camera : CameraParams Q.
Variables bg_height_px : Z.
Variable object_height_m : Q.
Hypothesis bg_nonzero : bg_height_px <> 0%Z.
Hypothesis sensor_nonzero : ~ sensor_height_mm camera == 0.

Abbreviation f := (focal_length_mm camera).
Abbreviation c := (camera_height_mm camera).
Abbreviation g := (ground_distance_mm camera).
Abbreviation s' := (sensor_height_mm camera).
Abbreviation d y := (s' / 2 - y_sensor_mm camera bg_height_px y).

(** The distance of the anchor below the horizon, in pixels. *)
Lemma below_horizon_px (y : Z) :
  d y * ppm camera bg_height_px
  == inject_Z y - inject_Z bg_height_px / 2.
Proof.
  unfold ppm, y_sensor_mm.
  unfold Zminus. rewrite inject_Z_plus, inject_Z_opp.
  field. split; [assumption | now apply inject_Z_nonzero].
Qed.


Lemma h_mm_closed (y : Z) :
  ~ d y == 0 -> ~ f == 0 -> ~ c == 0 ->
  h_mm camera bg_height_px y object_height_m
  == d y * (1000 * object_height_m / c).
Proof.
  intros Hd Hf Hc. unfold h_mm, ground_range_mm.
  now apply h_mm_closed_gen.
Qed.

Lemma height_closed (y : Z) :
  ~ d y == 0 -> ~ f == 0 -> ~ c == 0 ->
  h_mm camera bg_height_px y object_height_m * ppm camera bg_height_px
  == (inject_Z y - inject_Z bg_height_px / 2)
     * (1000 * object_height_m / c).
Proof.
  intros Hd Hf Hc. rewrite h_mm_closed by assumption.
  rewrite <- below_horizon_px. ring.
Qed.

End ClosedForm.

(** *** Consequences *)

Lemma y_sensor_flat (camera : CameraParams Q) (bg y : Z) :
  sensor_height_mm camera == 0 ->
  y_sensor_mm camera bg y == 0 /\ sensor_height_mm camera / 2 == 0.
Proof.
  intros Hs. unfold y_sensor_mm. rewrite Hs.
  split; unfold Qdiv; ring.
Qed.

Lemma sensor_nonzero_of_below (camera : CameraParams Q) (bg y : Z) :
  y_sensor_mm camera bg y < sensor_height_mm camera / 2 ->
  ~ sensor_height_mm camera == 0.
Proof.
  intros Hlt Hs. destruct (y_sensor_flat camera bg y Hs) as [E1 E2].
  rewrite E1, E2 in Hlt. now apply (Qlt_irrefl 0).
Qed.




End ExactGeometry.

(** ** Arrays: slices, element-wise operations, assignment *)

Lemma norm_index_in (n i : Z) : 0 <= i <= n -> norm_index n i = i.
Proof. intros Hi. unfold norm_index. destruct (Z.ltb_spec i 0); lia. Qed.

Lemma slice_in {A} (lo hi : Z) (l : list A) :
  0 <= lo <= hi -> hi <= Z.of_nat (length l) ->
  slice lo hi l = take (Z.to_nat (hi - lo)) (drop (Z.to_nat lo) l).
Proof.
  intros Hlo Hhi. unfold slice.
  rewrite !norm_index_in by lia. f_equal. lia.
Qed.

Lemma length_slice_in {A} (lo hi : Z) (l : list A) :
  0 <= lo <= hi -> hi <= Z.of_nat (length l) ->
  length (slice lo hi l) = Z.to_nat (hi - lo).
Proof.
  intros Hlo Hhi. rewrite slice_in by assumption.
  rewrite length_take, length_drop. lia.
Qed.

Lemma lookup_slice_in {A} (lo hi : Z) (l : list A) (k : nat) :
  0 <= lo <= hi -> hi <= Z.of_nat (length l) ->
  (k < Z.to_nat (hi - lo))%nat ->
  slice lo hi l !! k = l !! (Z.to_nat lo + k)%nat.
Proof.
  intros Hlo Hhi Hk. rewrite slice_in by assumption.
  rewrite lookup_take_lt by assumption. apply lookup_drop.
Qed.

Lemma same_shape_has_shape {A B} (a : image A) (b : image B) (h w : nat) :
  same_shape a b = true -> has_shape a h w -> has_shape b h w.
Proof.
  unfold same_shape. intros Hs [Hh Hw].
  apply bool_decide_eq_true in Hs. split.
  - rewrite <- Hh, <- (length_fmap length a), Hs. symmetry. apply length_fmap.
  - intros i row Hrow.
    assert (E : (length <$> b) !! i = Some (length row))
      by (rewrite list_lookup_fmap, Hrow; reflexivity).
    rewrite <- Hs, list_lookup_fmap in E.
    destruct (a !! i) as [row'|] eqn:Ea; [|discriminate].
    cbn in E. injection E as <-. eauto.
Qed.

Section ArrayFacts.
Context {A : Type}.
Implicit Types (a blk : image A).

Lemma has_shape_hd a (h w : nat) :
  has_shape a h w -> (0 < h)%nat -> shape a = (Z.of_nat h, Z.of_nat w).
Proof.
  intros [Hh Hw] Hpos. unfold shape. rewrite Hh. f_equal.
  destruct a as [|row a']; cbn in *; [lia|].
  f_equal. apply (Hw 0%nat). reflexivity.
Qed.

Lemma px_Some_iff a (h w i j : nat) :
  has_shape a h w -> (is_Some (px a i j) <-> (i < h)%nat /\ (j < w)%nat).
Proof.
  intros [Hh Hw]. unfold px. split.
  - intros [x Hx]. destruct (a !! i) as [row|] eqn:Hrow; [|discriminate].
    cbn in Hx. split.
    + rewrite <- Hh. apply lookup_lt_is_Some. eauto.
    + rewrite <- (Hw i row Hrow). apply lookup_lt_is_Some. eauto.
  - intros [Hi Hj].
    destruct (lookup_lt_is_Some_2 a i) as [row Hrow]; [lia|].
    rewrite Hrow; cbn. apply lookup_lt_is_Some_2.
    rewrite (Hw i row Hrow). exact Hj.
Qed.

Lemma has_shape_slice2 a (h w : nat) (top bottom left right : Z) :
  has_shape a h w ->
  0 <= top <= bottom -> bottom <= Z.of_nat h ->
  0 <= left <= right -> right <= Z.of_nat w ->
  has_shape (slice2 top bottom left right a)
    (Z.to_nat (bottom - top)) (Z.to_nat (right - left)).
Proof.
  intros [Hh Hw] Ht Hb Hl Hr. unfold slice2. split.
  - rewrite length_fmap. apply length_slice_in; lia.
  - intros i row Hrow. rewrite list_lookup_fmap in Hrow.
    destruct (slice top bottom a !! i) as [row0|] eqn:E; [|discriminate].
    cbn in Hrow. injection Hrow as <-.
    assert (Hi : (i < Z.to_nat (bottom - top))%nat).
    { rewrite <- (length_slice_in top bottom a) by lia.
      apply lookup_lt_is_Some. eauto. }
    rewrite lookup_slice_in in E by lia.
    apply length_slice_in; [lia|]. rewrite (Hw _ _ E). lia.
Qed.

Lemma px_slice2 a (h w : nat) (top bottom left right : Z) (k m : nat) :
  has_shape a h w ->
  0 <= top <= bottom -> bottom <= Z.of_nat h ->
  0 <= left <= right -> right <= Z.of_nat w ->
  (k < Z.to_nat (bottom - top))%nat -> (m < Z.to_nat (right - left))%nat ->
  px (slice2 top bottom left right a) k m
  = px a (Z.to_nat top + k) (Z.to_nat left + m).
Proof.
  intros [Hh Hw] Ht Hb Hl Hr Hk Hm. unfold px, slice2.
  rewrite list_lookup_fmap, lookup_slice_in by lia.
  destruct (a !! (Z.to_nat top + k)%nat) as [row|] eqn:E; [|reflexivity].
  cbn. apply lookup_slice_in; [lia| |lia]. rewrite (Hw _ _ E). lia.
Qed.

Lemma assign_slice2_px a blk a' (h w : nat) (top bottom left right : Z) :
  has_shape a h w ->
  0 <= top <= bottom -> bottom <= Z.of_nat h ->
  0 <= left <= right -> right <= Z.of_nat w ->
  assign_slice2 a top bottom left right blk = Ok a' ->
  has_shape blk (Z.to_nat (bottom - top)) (Z.to_nat (right - left))
  /\ forall i j,
       px a' i j
       = if in_region (top, bottom, left, right) i j
         then px blk (i - Z.to_nat top) (j - Z.to_nat left)
         else px a i j.
Proof.
  intros Ha Ht Hb Hl Hr. unfold assign_slice2.
  destruct (same_shape _ blk) eqn:Hs; [|discriminate].
  intros [= <-].
  assert (Hblk : has_shape blk (Z.to_nat (bottom - top))
                   (Z.to_nat (right - left))).
  { eapply same_shape_has_shape; [exact Hs|].
    now apply (has_shape_slice2 a h w). }
  split; [exact Hblk|]. intros i j.
  destruct Ha as [Hh Hw]. unfold px at 1.
  rewrite list_lookup_imap.
  destruct (a !! i) as [row|] eqn:Hrow; cbn.
  2:{ apply lookup_ge_None in Hrow. unfold in_region.
      destruct (Z.ltb_spec (Z.of_nat i) bottom); [lia|].
      rewrite andb_false_r; cbn. unfold px.
      rewrite (lookup_ge_None_2 a i) by lia. reflexivity. }
  rewrite list_lookup_imap. rewrite !norm_index_in.
  2:{ rewrite (Hw _ _ Hrow). lia. }
  2:{ lia. }
  unfold px at 2. rewrite Hrow; cbn.
  destruct (row !! j) as [p|] eqn:Hp; cbn.
  2:{ apply lookup_ge_None in Hp. rewrite (Hw _ _ Hrow) in Hp.
      unfold in_region.
      destruct (Z.ltb_spec (Z.of_nat j) right); [lia|].
      now rewrite andb_false_r. }
  unfold written, in_region.
  destruct (Z.leb_spec top (Z.of_nat i)) as [Hti|Hti];
    [rewrite bool_decide_eq_true_2 by lia
    |rewrite bool_decide_eq_false_2 by lia; reflexivity].
  destruct (Z.leb_spec left (Z.of_nat j)) as [Hlj|Hlj]; cbn [andb];
    [rewrite bool_decide_eq_true_2 by lia
    |rewrite bool_decide_eq_false_2 by lia; now rewrite andb_false_r].
  cbn [andb].
  destruct (Z.ltb_spec (Z.of_nat i) bottom) as [Hib|Hib];
    destruct (Z.ltb_spec (Z.of_nat j) right) as [Hjr|Hjr]; cbn [andb].
  - destruct (proj2 (px_Some_iff blk _ _ (i - Z.to_nat top)
                       (j - Z.to_nat left) Hblk)) as [v Hv]; [lia|].
    unfold px in Hv |- *. now rewrite Hv.
  - assert (Hn : px blk (i - Z.to_nat top) (j - Z.to_nat left) = None).
    { apply eq_None_not_Some. intros Hsome.
      apply (px_Some_iff blk _ _ _ _ Hblk) in Hsome. lia. }
    unfold px in Hn. now rewrite Hn.
  - assert (Hn : px blk (i - Z.to_nat top) (j - Z.to_nat left) = None).
    { apply eq_None_not_Some. intros Hsome.
      apply (px_Some_iff blk _ _ _ _ Hblk) in Hsome. lia. }
    unfold px in Hn. now rewrite Hn.
  - assert (Hn : px blk (i - Z.to_nat top) (j - Z.to_nat left) = None).
    { apply eq_None_not_Some. intros Hsome.
      apply (px_Some_iff blk _ _ _ _ Hblk) in Hsome. lia. }
    unfold px in Hn. now rewrite Hn.
Qed.

End ArrayFacts.

Section Elementwise.
Context {A B C : Type}.

Lemma elementwise_Ok (f : A -> B -> C) (a : image A) (b : image B)
    (c : image C) :
  elementwise f a b = Ok c ->
  same_shape a b = true /\ c = zip_with (zip_with f) a b.
Proof.
  unfold elementwise. destruct (same_shape a b); [|discriminate].
  intros [= <-]. split; reflexivity.
Qed.

Lemma px_zip_with (f : A -> B -> C) (a : image A) (b : image B) (i j : nat) :
  px (zip_with (zip_with f) a b) i j
  = x ← px a i j; y ← px b i j; Some (f x y).
Proof.
  unfold px. rewrite lookup_zip_with.
  destruct (a !! i) as [ra|]; cbn; [|reflexivity].
  destruct (b !! i) as [rb|]; cbn.
  - rewrite lookup_zip_with. reflexivity.
  - destruct (ra !! j); reflexivity.
Qed.

Lemma has_shape_zip_with (f : A -> B -> C) (a : image A) (b : image B)
    (h w : nat) :
  has_shape a h w -> has_shape b h w ->
  has_shape (zip_with (zip_with f) a b) h w.
Proof.
  intros [Hah Haw] [Hbh Hbw]. split.
  - rewrite length_zip_with. lia.
  - intros i row Hrow. rewrite lookup_zip_with in Hrow.
    destruct (a !! i) as [ra|] eqn:Ea; [|discriminate].
    destruct (b !! i) as [rb|] eqn:Eb; [|discriminate].
    cbn in Hrow. injection Hrow as <-.
    rewrite length_zip_with, (Haw _ _ Ea), (Hbw _ _ Eb). lia.
Qed.

Lemma px_fmap (f : A -> B) (a : image A) (i j : nat) :
  px ((fun row : list A => f <$> row) <$> a) i j = f <$> px a i j.
Proof.
  unfold px. rewrite list_lookup_fmap.
  destruct (a !! i) as [row|]; cbn; [|reflexivity].
  apply list_lookup_fmap.
Qed.

Lemma has_shape_fmap (f : A -> B) (a : image A) (h w : nat) :
  has_shape a h w -> has_shape ((fun row : list A => f <$> row) <$> a) h w.
Proof.
  intros [Hh Hw]. split.
  - now rewrite length_fmap.
  - intros i row Hrow. rewrite list_lookup_fmap in Hrow.
    destruct (a !! i) as [r0|] eqn:E; [|discriminate].
    cbn in Hrow. injection Hrow as <-. rewrite length_fmap. eauto.
Qed.

End Elementwise.

Lemma same_shape_sym {A B} (a : image A) (b : image B) :
  same_shape a b = same_shape b a.
Proof.
  unfold same_shape. apply bool_decide_ext. split; intros E; now symmetry.
Qed.

Lemma has_shape_fmap_inv {A B} (f : A -> B) (a : image A) (h w : nat) :
  has_shape ((fun row : list A => f <$> row) <$> a) h w -> has_shape a h w.
Proof.
  intros [Hh Hw]. rewrite length_fmap in Hh. split; [exact Hh|].
  intros i row Hrow. rewrite <- (length_fmap f row). apply (Hw i).
  rewrite list_lookup_fmap, Hrow. reflexivity.
Qed.

(** ** The compositor, step by step *)

Section CompositorFacts.
Context {F : Type} `{PyFloat F} {G : Type} `{NpFloat32 G}.
Variable inter_cubic : image (chan3 Z) -> Z -> Z -> image (chan3 Z).
Variable inter_linear : image G -> Z -> Z -> image G.

Lemma blend_px_spec (resized_bgr : image (chan3 Z)) (resized_alpha : image G)
    (roi blended : image (chan3 Z)) (h w : nat) :
  has_shape roi h w ->
  blend resized_bgr resized_alpha roi = Ok blended ->
  has_shape resized_bgr h w /\ has_shape resized_alpha h w
  /\ has_shape blended h w
  /\ forall i j,
       px blended i j
       = c ← px resized_bgr i j; a ← px resized_alpha i j;
         b ← px roi i j; Some (blend_px c a b).
Proof.
  intros Hroi. unfold blend.
  destruct (elementwise _ (astype_float32 resized_bgr) _) as [fg|] eqn:Efg;
    [|discriminate]; cbn [res_bind].
  destruct (elementwise _ (astype_float32 roi) _) as [bg|] eqn:Ebg;
    [|discriminate]; cbn [res_bind].
  destruct (elementwise _ fg bg) as [sum|] eqn:Esum;
    [|discriminate]; cbn [res_bind].
  intros [= <-].
  apply elementwise_Ok in Efg as [Sfg ->].
  apply elementwise_Ok in Ebg as [Sbg ->].
  apply elementwise_Ok in Esum as [Ssum ->].
  assert (Hroi' : has_shape (astype_float32 roi) h w)
    by now apply has_shape_fmap.
  assert (Hom : has_shape (one_minus (dstack3 resized_alpha)) h w)
    by (eapply same_shape_has_shape; eassumption).
  assert (Hd : has_shape (dstack3 resized_alpha) h w)
    by now apply has_shape_fmap_inv in Hom.
  assert (Ha : has_shape resized_alpha h w)
    by now apply has_shape_fmap_inv in Hd.
  assert (Hc' : has_shape (astype_float32 resized_bgr) h w).
  { rewrite same_shape_sym in Sfg.
    eapply same_shape_has_shape; eassumption. }
  assert (Hc : has_shape resized_bgr h w)
    by now apply has_shape_fmap_inv in Hc'.
  split; [exact Hc|]. split; [exact Ha|]. split.
  - apply has_shape_fmap. apply has_shape_zip_with;
      apply has_shape_zip_with; assumption.
  - intros i j. unfold astype_uint8. rewrite px_fmap, !px_zip_with.
    unfold astype_float32, one_minus, dstack3. rewrite !px_fmap.
    destruct (px resized_bgr i j) as [c|]; cbn; [|reflexivity].
    destruct (px resized_alpha i j) as [a|]; cbn; [|reflexivity].
    destruct (px roi i j) as [b|]; cbn; reflexivity.
Qed.

(** [paste_object] as a function of the background it finds in the store:
    every exit, with the store it leaves. *)
Lemma paste_object_unfold (s : store) (background : loc)
    (bg object_bgr : image (chan3 Z)) (object_alpha : image G)
    (y_px x_px : Z) (object_height_m : F) (camera : CameraParams F) :
  s !! background = Some bg ->
  paste_object inter_cubic inter_linear background object_bgr object_alpha
    (y_px, x_px) object_height_m camera s
  = match compute_object_size_px camera (shape bg).1 y_px object_height_m with
    | Raise e => (Raise e, s)
    | Ok target_h =>
      if target_h <=? 0 then (Raise (ValueError msg_above_horizon), s)
      else
      match scaled_width (F:=F) (shape object_bgr).2 (shape object_bgr).1
              target_h with
      | Raise e => (Raise e, s)
      | Ok target_w =>
        match cv2_resize inter_cubic object_bgr (target_w, target_h) with
        | Raise e => (Raise e, s)
        | Ok resized_bgr =>
          match cv2_resize inter_linear object_alpha (target_w, target_h) with
          | Raise e => (Raise e, s)
          | Ok resized_alpha =>
            let r := region y_px x_px target_w target_h in
            if out_of_bounds r (shape bg).1 (shape bg).2
            then (Raise (ValueError msg_out_of_bounds), s)
            else
              let '(top, bottom, left_, right_) := r in
              match blend resized_bgr resized_alpha
                      (slice2 top bottom left_ right_ bg) with
              | Raise e => (Raise e, s ++ [bg])
              | Ok blended =>
                match assign_slice2 bg top bottom left_ right_ blended with
                | Raise e => (Raise e, s ++ [bg])
                | Ok out => (Ok (length s), s ++ [out])
                end
              end
          end
        end
      end
    end.
Proof.
  intros Hbg. unfold paste_object, bind at 1, load. rewrite Hbg.
  destruct (shape bg) as [bg_h bg_w] eqn:Eshape; cbn [fst snd].
  unfold bind at 1, lift at 1.
  destruct (compute_object_size_px camera bg_h y_px object_height_m)
    as [target_h|e]; [|reflexivity].
  destruct (target_h <=? 0); [reflexivity|].
  destruct (shape object_bgr) as [orig_h orig_w]; cbn [fst snd].
  unfold bind at 1, lift at 1.
  destruct (scaled_width orig_w orig_h target_h) as [target_w|e];
    [|reflexivity].
  unfold bind at 1, lift at 1.
  destruct (cv2_resize inter_cubic object_bgr (target_w, target_h))
    as [resized_bgr|e]; [|reflexivity].
  unfold bind at 1, lift at 1.
  destruct (cv2_resize inter_linear object_alpha (target_w, target_h))
    as [resized_alpha|e]; [|reflexivity].
  cbv zeta. unfold region at 1 2 3.
  destruct (out_of_bounds _ bg_h bg_w); [reflexivity|].
  unfold bind at 1, np_copy. rewrite Hbg.
  unfold bind at 1, read_view, bind at 1, load; cbn [base].
  rewrite lookup_app_r, Nat.sub_diag by lia. cbn [lookup list_lookup].
  unfold ret at 1; cbn [v_top v_bottom v_left v_right].
  unfold bind at 1, lift at 1.
  destruct (blend _ _ _) as [blended|e]; [|reflexivity].
  unfold bind at 1, setitem.
  rewrite lookup_app_r, Nat.sub_diag by lia. cbn [lookup list_lookup].
  destruct (assign_slice2 _ _ _ _ _ _) as [out|e]; [|reflexivity].
  unfold ret. f_equal.
  rewrite insert_app_r_alt, Nat.sub_diag by lia. reflexivity.
Qed.

End CompositorFacts.

Import Exact Spec ExactGeometry.

(** ** What the steps of the compositor can raise *)

Lemma cv2_resize_Ok {A} (kernel : image A -> Z -> Z -> image A)
    (src dst : image A) (w h : Z) :
  cv2_resize kernel src (w, h) = Ok dst ->
  0 < w /\ 0 < h /\ 0 < (shape src).1 /\ 0 < (shape src).2
  /\ dst = kernel src w h.
Proof.
  unfold cv2_resize. destruct (shape src) as [src_h src_w]; cbn [fst snd].
  destruct (Z.leb_spec src_h 0); [discriminate|].
  destruct (Z.leb_spec src_w 0); [discriminate|].
  destruct (Z.leb_spec w 0); [discriminate|].
  destruct (Z.leb_spec h 0); [discriminate|].
  cbn. intros [= <-]. repeat split; lia.
Qed.

Lemma cv2_resize_empty {A} (kernel : image A -> Z -> Z -> image A)
    (src : image A) (w h : Z) :
  w <= 0 -> cv2_resize kernel src (w, h) = Raise cv2_error.
Proof.
  intros Hw. unfold cv2_resize. destruct (shape src) as [src_h src_w].
  destruct (Z.leb_spec w 0); [|lia].
  now rewrite !orb_true_r.
Qed.

Lemma elementwise_Raise {A B C} (f : A -> B -> C) (a : image A) (b : image B)
    (e : exn) :
  elementwise f a b = Raise e -> e = ValueError msg_broadcast.
Proof. unfold elementwise. destruct (same_shape a b); congruence. Qed.

Lemma assign_slice2_Raise {A} (a blk : image A) (top bottom left right : Z)
    (e : exn) :
  assign_slice2 a top bottom left right blk = Raise e ->
  e = ValueError msg_broadcast.
Proof. unfold assign_slice2. destruct (same_shape _ blk); congruence. Qed.

Lemma blend_Raise {G} `{NpFloat32 G} (resized_bgr : image (chan3 Z))
    (resized_alpha : image G) (roi : image (chan3 Z)) (e : exn) :
  blend resized_bgr resized_alpha roi = Raise e ->
  e = ValueError msg_broadcast.
Proof.
  unfold blend.
  destruct (elementwise _ (astype_float32 resized_bgr) _) as [fg|e1] eqn:E1;
    cbn [res_bind].
  2:{ intros [= <-]. eapply elementwise_Raise; eassumption. }
  destruct (elementwise _ (astype_float32 roi) _) as [bg|e2] eqn:E2;
    cbn [res_bind].
  2:{ intros [= <-]. eapply elementwise_Raise; eassumption. }
  destruct (elementwise _ fg bg) as [sum|e3] eqn:E3; cbn [res_bind].
  2:{ intros [= <-]. eapply elementwise_Raise; eassumption. }
  discriminate.
Qed.

Lemma out_of_bounds_spec (top bottom left right bg_h bg_w : Z) :
  out_of_bounds (top, bottom, left, right) bg_h bg_w = true
  <-> top < 0 \/ bottom > bg_h \/ left < 0 \/ right > bg_w.
Proof.
  unfold out_of_bounds. rewrite !orb_true_iff.
  rewrite !Z.ltb_lt, !Z.gtb_gt. tauto.
Qed.

Lemma shape_of_has_shape {A} (a : image A) (h w : nat) :
  has_shape a h w ->
  (shape a).1 = Z.of_nat h /\ (shape a).2 <= Z.of_nat w.
Proof.
  intros [Hh Hw]. unfold shape; cbn [fst snd]. split; [now rewrite Hh|].
  destruct a as [|row a']; cbn; [lia|].
  rewrite (Hw 0%nat row) by reflexivity. lia.
Qed.

(** ** A call that returns *)

Section Success.
Context {F : Type} `{PyFloat F} {G : Type} `{NpFloat32 G}.
Variable inter_cubic : image (chan3 Z) -> Z -> Z -> image (chan3 Z).
Variable inter_linear : image G -> Z -> Z -> image G.
Variables (s : store) (background : loc).
Variables (bg object_bgr : image (chan3 Z)) (object_alpha : image G).
Variables (y_px x_px : Z) (object_height_m : F) (camera : CameraParams F).
Variables (h w : nat).
Hypothesis bg_stored : s !! background = Some bg.
Hypothesis bg_shape : has_shape bg h w.

Abbreviation the_run :=
  (paste_object inter_cubic inter_linear background object_bgr object_alpha
     (y_px, x_px) object_height_m camera s).

(** Whatever the outcome, the caller's array is still in its place. *)
Lemma paste_object_frame : the_run.2 !! background = Some bg.
Proof.
  assert (Hin : forall x, (s ++ [x]) !! background = Some bg).
  { intros x. rewrite lookup_app_l; [assumption|].
    apply lookup_lt_is_Some. eauto. }
  rewrite (paste_object_unfold _ _ _ _ bg) by assumption.
  destruct (compute_object_size_px _ _ _ _) as [target_h|e]; [|assumption].
  destruct (target_h <=? 0); [assumption|].
  destruct (scaled_width _ _ _) as [target_w|e]; [|assumption].
  destruct (cv2_resize inter_cubic _ _) as [resized_bgr|e]; [|assumption].
  destruct (cv2_resize inter_linear _ _) as [resized_alpha|e]; [|assumption].
  cbv zeta. destruct (out_of_bounds _ _ _); [assumption|].
  unfold region.
  destruct (blend _ _ _) as [blended|e]; [|apply Hin].
  destruct (assign_slice2 _ _ _ _ _ _) as [out|e]; apply Hin.
Qed.

(** A call that returns went through every step, and its result is a new
    array: the background outside the region, the blend inside. *)
Lemma paste_object_Ok (l : loc) :
  the_run.1 = Ok l ->
  exists (target_h target_w : Z) (resized_bgr : image (chan3 Z))
         (resized_alpha : image G) (blended out : image (chan3 Z)),
    compute_object_size_px camera (shape bg).1 y_px object_height_m
    = Ok target_h
    /\ 0 < target_h
    /\ scaled_width (F:=F) (shape object_bgr).2 (shape object_bgr).1 target_h
       = Ok target_w
    /\ 0 < target_w
    /\ cv2_resize inter_cubic object_bgr (target_w, target_h)
       = Ok resized_bgr
    /\ cv2_resize inter_linear object_alpha (target_w, target_h)
       = Ok resized_alpha
    /\ out_of_bounds (region y_px x_px target_w target_h)
         (shape bg).1 (shape bg).2 = false
    /\ blend resized_bgr resized_alpha
         (slice2 (y_px - target_h) y_px (x_px - target_w / 2)
            (x_px - target_w / 2 + target_w) bg)
       = Ok blended
    /\ l = length s
    /\ the_run.2 = s ++ [out]
    /\ has_shape resized_bgr (Z.to_nat target_h) (Z.to_nat target_w)
    /\ has_shape resized_alpha (Z.to_nat target_h) (Z.to_nat target_w)
    /\ (forall i j,
          px out i j
          = if in_region (region y_px x_px target_w target_h) i j
            then px blended (i - Z.to_nat (y_px - target_h))
                   (j - Z.to_nat (x_px - target_w / 2))
            else px bg i j)
    /\ (forall i j,
          in_region (region y_px x_px target_w target_h) i j = true ->
          px blended (i - Z.to_nat (y_px - target_h))
            (j - Z.to_nat (x_px - target_w / 2))
          = c ← px resized_bgr (i - Z.to_nat (y_px - target_h))
                  (j - Z.to_nat (x_px - target_w / 2));
            a ← px resized_alpha (i - Z.to_nat (y_px - target_h))
                  (j - Z.to_nat (x_px - target_w / 2));
            b ← px bg i j;
            Some (blend_px c a b)).
Proof.
  rewrite (paste_object_unfold _ _ _ _ bg) by assumption.
  destruct (compute_object_size_px _ _ _ _) as [target_h|e] eqn:Esolve;
    [|discriminate].
  destruct (Z.leb_spec target_h 0) as [|Hpos]; [discriminate|].
  destruct (scaled_width _ _ _) as [target_w|e] eqn:Ewidth; [|discriminate].
  destruct (cv2_resize inter_cubic _ _) as [resized_bgr|e] eqn:Ecubic;
    [|discriminate].
  destruct (cv2_resize inter_linear _ _) as [resized_alpha|e] eqn:Elinear;
    [|discriminate].
  cbv zeta.
  destruct (out_of_bounds _ _ _) eqn:Eoob; [discriminate|].
  unfold region.
  destruct (blend _ _ _) as [blended|e] eqn:Eblend; [|discriminate].
  destruct (assign_slice2 _ _ _ _ _ _) as [out|e] eqn:Eassign;
    [|discriminate].
  cbn [fst snd]. intros [= <-].
  pose proof (cv2_resize_Ok _ _ _ _ _ Ecubic) as (Hw & _).
  destruct (shape_of_has_shape bg h w bg_shape) as [Hrows Hcols].
  assert (Hin : ~ (y_px - target_h < 0 \/ y_px > (shape bg).1
                   \/ x_px - target_w / 2 < 0
                   \/ x_px - target_w / 2 + target_w > (shape bg).2)).
  { rewrite <- out_of_bounds_spec. unfold region in Eoob.
    rewrite Eoob. discriminate. }
  assert (Hb1 : 0 <= y_px - target_h <= y_px) by lia.
  assert (Hb2 : y_px <= Z.of_nat h) by lia.
  assert (Hb3 : 0 <= x_px - target_w / 2 <= x_px - target_w / 2 + target_w)
    by lia.
  assert (Hb4 : x_px - target_w / 2 + target_w <= Z.of_nat w) by lia.
  destruct (assign_slice2_px bg blended out h w _ _ _ _ bg_shape
              Hb1 Hb2 Hb3 Hb4 Eassign) as [Hblk Hout].
  assert (Hroi : has_shape
            (slice2 (y_px - target_h) y_px (x_px - target_w / 2)
               (x_px - target_w / 2 + target_w) bg)
            (Z.to_nat target_h) (Z.to_nat target_w)).
  { replace (Z.to_nat target_h) with (Z.to_nat (y_px - (y_px - target_h)))
      by (f_equal; lia).
    replace (Z.to_nat target_w)
      with (Z.to_nat (x_px - target_w / 2 + target_w
                      - (x_px - target_w / 2)))
      by (f_equal; lia).
    apply (has_shape_slice2 bg h w); [assumption|lia..]. }
  destruct (blend_px_spec _ _ _ _ _ _ Hroi Eblend) as (Hc & Ha & _ & Hpx).
  exists target_h, target_w, resized_bgr, resized_alpha, blended, out.
  do 12 (split; [first [assumption | reflexivity]|]).
  split; [exact Hout|].
  intros i j Hij. rewrite Hpx.
  unfold in_region in Hij.
  apply andb_true_iff in Hij as [Hij Hj2].
  apply andb_true_iff in Hij as [Hij Hj1].
  apply andb_true_iff in Hij as [Hi1 Hi2].
  apply Z.leb_le in Hi1, Hj1. apply Z.ltb_lt in Hi2, Hj2.
  rewrite (px_slice2 bg h w) by (try assumption; lia).
  replace (Z.to_nat (y_px - target_h) + (i - Z.to_nat (y_px - target_h)))%nat
    with i by lia.
  replace (Z.to_nat (x_px - target_w / 2)
           + (j - Z.to_nat (x_px - target_w / 2)))%nat
    with j by lia.
  reflexivity.
Qed.

End Success.

Lemma has_shape_replicate {A} (x : A) (h w : nat) :
  has_shape (replicate h (replicate w x)) h w.
Proof.
  split; [apply length_replicate|].
  intros i row Hrow. apply lookup_replicate in Hrow as [-> _].
  apply length_replicate.
Qed.

(** ** The error for unplaceable geometry *)

Lemma scaled_width_exact_Raise (orig_w orig_h target_h : Z) (e : exn) :
  scaled_width (F:=Q) orig_w orig_h target_h = Raise e ->
  e = ZeroDivisionError.
Proof.
  unfold scaled_width, int_truediv. destruct (orig_h =? 0); cbn.
  - congruence.
  - discriminate.
Qed.

(** Over exact arithmetic, when the solver returns, [paste_object] raises
    the [ValueError] of line 200 exactly when the height is not positive. *)
Lemma unplaceable_error_iff {G : Type} `{NpFloat32 G}
    (inter_cubic : image (chan3 Z) -> Z -> Z -> image (chan3 Z))
    (inter_linear : image G -> Z -> Z -> image G)
    (s : store) (background : loc) (bg object_bgr : image (chan3 Z))
    (object_alpha : image G) (y_px x_px : Z) (object_height_m : Q)
    (camera : CameraParams Q) (target_h : Z) :
  s !! background = Some bg ->
  compute_object_size_px camera (shape bg).1 y_px object_height_m
  = Ok target_h ->
  (paste_object inter_cubic inter_linear background object_bgr object_alpha
     (y_px, x_px) object_height_m camera s).1
  = Raise (ValueError msg_above_horizon)
  <-> target_h <= 0.
Proof.
  intros Hbg Hsolve.
  rewrite (paste_object_unfold _ _ _ _ bg) by assumption. rewrite Hsolve.
  destruct (Z.leb_spec target_h 0) as [Hle|Hgt].
  - split; [intros _; exact Hle|reflexivity].
  - split; [|lia]. intros Hraise. exfalso. revert Hraise.
    destruct (scaled_width _ _ _) as [target_w|e] eqn:Ew; cbn [fst].
    2:{ apply scaled_width_exact_Raise in Ew as ->. discriminate. }
    destruct (cv2_resize inter_cubic _ _) as [resized_bgr|e] eqn:Ec;
      cbn [fst].
    2:{ unfold cv2_resize in Ec. destruct (shape object_bgr).
        destruct (_ || _) in Ec; [injection Ec as <-|]; discriminate. }
    destruct (cv2_resize inter_linear _ _) as [resized_alpha|e] eqn:El;
      cbn [fst].
    2:{ unfold cv2_resize in El. destruct (shape object_alpha).
        destruct (_ || _) in El; [injection El as <-|]; discriminate. }
    cbv zeta. destruct (out_of_bounds _ _ _); [discriminate|].
    unfold region.
    destruct (blend _ _ _) as [blended|e] eqn:Eb; cbn [fst].
    2:{ apply blend_Raise in Eb as ->. discriminate. }
    destruct (assign_slice2 _ _ _ _ _ _) as [out|e] eqn:Ea; cbn [fst].
    + discriminate.
    + apply assign_slice2_Raise in Ea as ->. discriminate.
Qed.

(** ** The scaled width, exactly *)


(** ** The two ends of the blend *)

Lemma Q_blend_transparent (a : Q) (c b : Z) :
  (a == 0)%Q -> is_u8 c -> is_u8 b -> blend_channel (G:=Q) c a b = b.
Proof.
  intros Ha _ Hb. unfold blend_channel.
  cbn [u8_of_f32 f32_add f32_mul f32_sub f32_of_u8 f32_one
       Exact32.Q_float32].
  assert (E : (inject_Z c * a + inject_Z b * (1 - a) == inject_Z b)%Q)
    by (rewrite Ha; ring).
  rewrite (Qtrunc_comp _ _ E). unfold Qtrunc; cbn [Qnum Qden inject_Z].
  rewrite Z.quot_1_r. apply Z.mod_small. exact Hb.
Qed.

Lemma Q_blend_opaque (a : Q) (c b : Z) :
  (a == 1)%Q -> is_u8 c -> is_u8 b -> blend_channel (G:=Q) c a b = c.
Proof.
  intros Ha Hc _. unfold blend_channel.
  cbn [u8_of_f32 f32_add f32_mul f32_sub f32_of_u8 f32_one
       Exact32.Q_float32].
  assert (E : (inject_Z c * a + inject_Z b * (1 - a) == inject_Z c)%Q)
    by (rewrite Ha; ring).
  rewrite (Qtrunc_comp _ _ E). unfold Qtrunc; cbn [Qnum Qden inject_Z].
  rewrite Z.quot_1_r. apply Z.mod_small. exact Hc.
Qed.

#[global] Instance Q_blend_laws : BlendLaws Q := {|
  transparent a := (a == 0)%Q;
  opaque a := (a == 1)%Q;
  blend_transparent := Q_blend_transparent;
  blend_opaque := Q_blend_opaque
|}.

(** In binary32 the laws are checked on every pair of uint8 values. *)
Lemma all_u8_pairs_spec (test : Z -> Z -> bool) (c b : Z) :
  all_u8_pairs test = true -> is_u8 c -> is_u8 b -> test c b = true.
Proof.
  unfold all_u8_pairs, is_u8. intros Hall Hc Hb.
  rewrite forallb_forall in Hall.
  assert (Hrow : forallb (test c) (seqZ 0 256) = true).
  { apply Hall. apply list_elem_of_In, elem_of_seqZ. lia. }
  rewrite forallb_forall in Hrow.
  apply Hrow. apply list_elem_of_In, elem_of_seqZ. lia.
Qed.

Lemma b32_blend_transparent (a : spec_float) (c b : Z) :
  (a = S754_zero false \/ a = S754_zero true) ->
  is_u8 c -> is_u8 b -> blend_channel (G:=spec_float) c a b = b.
Proof.
  intros Ha Hc Hb. apply Z.eqb_eq.
  destruct Ha as [-> | ->].
  - apply (all_u8_pairs_spec
             (fun c b => blend_channel (G:=spec_float) c (S754_zero false) b
                         =? b)); [|assumption..].
    vm_compute. reflexivity.
  - apply (all_u8_pairs_spec
             (fun c b => blend_channel (G:=spec_float) c (S754_zero true) b
                         =? b)); [|assumption..].
    vm_compute. reflexivity.
Qed.

Lemma b32_blend_opaque (a : spec_float) (c b : Z) :
  a = b32 1 0 ->
  is_u8 c -> is_u8 b -> blend_channel (G:=spec_float) c a b = c.
Proof.
  intros -> Hc Hb. apply Z.eqb_eq.
  apply (all_u8_pairs_spec
           (fun c b => blend_channel (G:=spec_float) c (b32 1 0) b =? c));
    [|assumption..].
  vm_compute. reflexivity.
Qed.

#[global] Instance b32_blend_laws : BlendLaws spec_float := {|
  transparent a := a = S754_zero false \/ a = S754_zero true;
  opaque a := a = b32 1 0;
  blend_transparent := b32_blend_transparent;
  blend_opaque := b32_blend_opaque
|}.

Lemma blend_px_channels {G} `{NpFloat32 G} (c : chan3 Z) (a : G)
    (b : chan3 Z) :
  blend_px c a b
  = (blend_channel c.1.1 a b.1.1, blend_channel c.1.2 a b.1.2,
     blend_channel c.2 a b.2).
Proof. destruct c as [[c1 c2] c3], b as [[b1 b2] b3]. reflexivity. Qed.

(** ** The interpolation of the examples *)

Lemma px_nearest {A} (src : image A) (w h : Z) (i j : nat) (p : A) :
  px (nearest src w h) i j = Some p -> exists i' j', px src i' j' = Some p.
Proof.
  unfold px, nearest. destruct (shape src) as [src_h src_w].
  intros Hp.
  destruct (omap _ (seq 0 (Z.to_nat h)) !! i) as [r|] eqn:Er; [|discriminate].
  cbn in Hp.
  apply list_elem_of_lookup_2, list_elem_of_omap in Er as (i0 & _ & Hrow).
  destruct (src !! Z.to_nat (Z.of_nat i0 * src_h / h)) as [row|] eqn:Erow;
    [|discriminate].
  cbn in Hrow. injection Hrow as <-.
  apply list_elem_of_lookup_2, list_elem_of_omap in Hp as (j0 & _ & Hcol).
  exists (Z.to_nat (Z.of_nat i0 * src_h / h)),
         (Z.to_nat (Z.of_nat j0 * src_w / w)).
  rewrite Erow. exact Hcol.
Qed.

Lemma px_replicate {A} (x p : A) (h w i j : nat) :
  px (replicate h (replicate w x)) i j = Some p -> p = x.
Proof.
  unfold px. intros Hp.
  destruct (replicate h (replicate w x) !! i) as [row|] eqn:Erow;
    [|discriminate].
  apply lookup_replicate in Erow as [-> _]. cbn in Hp.
  now apply lookup_replicate in Hp as [-> _].
Qed.

Lemma forall_range_spec (n : positive) :
  forall (lo : Z) (f : Z -> bool),
    forall_range n lo f = true ->
    forall z, lo <= z < lo + Zpos n -> f z = true.
Proof.
  induction n as [m IH|m IH|]; intros lo f; cbn [forall_range].
  - rewrite !andb_true_iff. intros [[H0 H1] H2] z Hz.
    destruct (Z.eq_dec z lo) as [->|Hne]; [assumption|].
    destruct (Z_lt_dec z (lo + 1 + Zpos m)) as [Hlt|Hge].
    + apply (IH _ _ H1). lia.
    + apply (IH _ _ H2). lia.
  - rewrite !andb_true_iff. intros [H1 H2] z Hz.
    destruct (Z_lt_dec z (lo + Zpos m)) as [Hlt|Hge].
    + apply (IH _ _ H1). lia.
    + apply (IH _ _ H2). lia.
  - intros H0 z Hz. replace z with lo by lia. assumption.
Qed.

Lemma of_Z_quick (z : Z) : quick_of_Z z = Binary64.of_Z z.
Proof.
  unfold quick_of_Z.
  destruct (Z.leb_spec 0 z) as [H0|]; [|reflexivity].
  destruct (Z.ltb_spec z 4611686018427387904) as [H1|]; [|reflexivity]. cbn [andb].
  unfold Binary64.of_Z.
  rewrite <- (SF2Prim_Prim2SF (of_uint63 (Uint63.of_Z z))).
  rewrite of_uint63_spec. do 2 f_equal.
  rewrite Uint63.of_Z_spec. apply Z.mod_small.
  change Uint63.wB with (2 ^ 63). lia.
Qed.

(** The solver computes the same in both. *)
Lemma solver_quick (camera : CameraParams float) (bg_height_px y_px : Z)
    (object_height_m : float) :
  compute_object_size_px (F:=float) camera bg_height_px y_px object_height_m
  = @compute_object_size_px float b64_quick camera bg_height_px y_px
      object_height_m.
Proof.
  unfold compute_object_size_px, truediv.
  cbn [flit of_int fadd fsub fmul fdiv fis_zero fgt to_int
       Binary64.b64_float b64_quick].
  rewrite !of_Z_quick. reflexivity.
Qed.

Lemma main_camera_quick :
  main_camera (F:=float) = @main_camera float b64_quick.
Proof. vm_compute. reflexivity. Qed.

(** ** The horizon test of the solver *)

Section HorizonTestFacts.
Context {F : Type} `{PyFloat F}.
Variable camera : CameraParams F.
Variables bg_height_px y_px : Z.
Variable object_height_m : F.


Lemma solver_on_zero (d : F) :
  horizon_test camera bg_height_px y_px = Ok (Some d) ->
  fis_zero d = true ->
  compute_object_size_px camera bg_height_px y_px object_height_m
  = Raise ZeroDivisionError.
Proof.
  unfold horizon_test, compute_object_size_px.
  destruct (of_int bg_height_px) as [bg|e0]; cbn [res_bind]; [|discriminate].
  destruct (truediv bg _) as [ppm|e0]; cbn [res_bind]; [|discriminate].
  destruct (of_int (bg_height_px - y_px)) as [dy|e0]; cbn [res_bind];
    [|discriminate].
  destruct (truediv dy ppm) as [x_y_mm|e0]; cbn [res_bind]; [|discriminate].
  destruct (truediv (sensor_height_mm camera) (flit 2)) as [half|e0];
    cbn [res_bind]; [|discriminate].
  destruct (fgt x_y_mm half); [discriminate|].
  cbn [res_bind]. intros [= <-] Hzero.
  unfold truediv at 1. now rewrite Hzero.
Qed.

End HorizonTestFacts.

(** ** binary64 with the conversion of the processor *)

Lemma horizon_test_quick (camera : CameraParams float)
    (bg_height_px y_px : Z) :
  horizon_test (F:=float) camera bg_height_px y_px
  = @horizon_test float b64_quick camera bg_height_px y_px.
Proof.
  unfold horizon_test, truediv.
  cbn [flit of_int fadd fsub fmul fdiv fis_zero fgt to_int
       Binary64.b64_float b64_quick].
  rewrite !of_Z_quick. reflexivity.
Qed.

Lemma scaled_width_quick (orig_w orig_h target_h : Z) :
  scaled_width (F:=float) orig_w orig_h target_h
  = @scaled_width float b64_quick orig_w orig_h target_h.
Proof.
  unfold scaled_width, int_truediv.
  cbn [flit of_int fadd fsub fmul fdiv fis_zero fgt to_int
       Binary64.b64_float b64_quick].
  rewrite !of_Z_quick. reflexivity.
Qed.

(** ** Rows in binary64 *)

Lemma rows_from_spec (H : float) (n : Z) (d : positive) (bg_height_px : Z) :
  forall (fuel : nat) (y0 prev : Z),
    rows_from H n d bg_height_px fuel y0 prev = true ->
    let solve y :=
      compute_object_size_px (F:=float) main_camera bg_height_px y H in
    (forall y, y0 <= y < y0 + Z.of_nat fuel ->
       (2 * y < bg_height_px -> solve y = Ok 0)
       /\ (2 * y = bg_height_px -> solve y = Raise ZeroDivisionError)
       /\ (bg_height_px < 2 * y ->
           exists z, solve y = Ok z /\ prev <= z
                     /\ Z.abs (z - reference_height n d bg_height_px y) <= 1))
    /\ (forall y1 y2,
          y0 <= y1 -> y1 <= y2 -> y2 < y0 + Z.of_nat fuel ->
          bg_height_px < 2 * y1 ->
          exists z1 z2, solve y1 = Ok z1 /\ solve y2 = Ok z2 /\ z1 <= z2).
Proof.
  induction fuel as [|fuel IH]; intros y0 prev Hrows solve.
  { split; intros; lia. }
  cbn [rows_from] in Hrows.
  rewrite <- main_camera_quick, <- solver_quick in Hrows.
  fold (solve y0) in Hrows.
  destruct (solve y0) as [z|e] eqn:E0.
  - destruct (Z.ltb_spec (2 * y0) bg_height_px) as [Habove|Hnot].
    + apply andb_true_iff in Hrows as [Hz Hrest]. apply Z.eqb_eq in Hz.
      subst z. destruct (IH _ _ Hrest) as [Hrow Hmono]. split.
      * intros y Hy. destruct (Z.eq_dec y y0) as [->|Hne].
        -- split; [intros _; exact E0|]. split; intros; lia.
        -- apply Hrow. lia.
      * intros y1 y2 H1 H12 H2 Hb. apply Hmono; lia.
    + destruct (Z.eqb_spec (2 * y0) bg_height_px) as [Hmid|Hbelow];
        [discriminate|].
      apply andb_true_iff in Hrows as [Hrows Hrest].
      apply andb_true_iff in Hrows as [Hprev Hnear].
      apply Z.leb_le in Hprev, Hnear.
      destruct (IH _ _ Hrest) as [Hrow Hmono]. split.
      * intros y Hy. destruct (Z.eq_dec y y0) as [->|Hne].
        -- split; [intros; lia|]. split; [intros; lia|].
           intros _. exists z. auto.
        -- destruct (Hrow y) as (Ha & Hm & Hb); [lia|].
           split; [exact Ha|]. split; [exact Hm|].
           intros Hy'. destruct (Hb Hy') as (z' & Ez & Hle & Hn).
           exists z'. split; [exact Ez|]. split; [lia|exact Hn].
      * intros y1 y2 H1 H12 H2 Hb.
        destruct (Z.eq_dec y1 y0) as [->|Hne1]; [|apply Hmono; lia].
        destruct (Z.eq_dec y2 y0) as [->|Hne2].
        -- exists z, z. split; [exact E0|]. split; [exact E0|lia].
        -- destruct (Hrow y2) as (_ & _ & Hb2); [lia|].
           destruct Hb2 as (z2 & Ez & Hle & _); [lia|].
           exists z, z2. auto.
  - destruct e; try discriminate.
    apply andb_true_iff in Hrows as [Hmid Hrest]. apply Z.eqb_eq in Hmid.
    destruct (IH _ _ Hrest) as [Hrow Hmono]. split.
    + intros y Hy. destruct (Z.eq_dec y y0) as [->|Hne].
      * split; [intros; lia|]. split; [intros _; exact E0|intros; lia].
      * apply Hrow. lia.
    + intros y1 y2 H1 H12 H2 Hb. apply Hmono; lia.
Qed.


(** *** The runs *)

Lemma height_tables :
  forallb (fun h : float * (Z * positive) =>
             forall_range 1024 1 (table_ok h.1 h.2.1 h.2.2))
          sample_heights
  = true.
Proof. vm_compute. reflexivity. Qed.



Lemma middle_table : forall_range 20000 1 middle_ok = true.
Proof. vm_compute. reflexivity. Qed.

(** The rows 0 to [bg_height_px] of every background of 1 to 1024 rows,
    for each of the object heights. *)
Lemma binary64_rows (H : float) (n : Z) (d : positive) (bg_height_px : Z) :
  (H, (n, d)) ∈ sample_heights ->
  1 <= bg_height_px <= 1024 ->
  table_ok H n d bg_height_px = true.
Proof.
  intros Hin Hbg.
  assert (Hrange : 1 <= bg_height_px < 1 + Z.pos 1024) by lia.
  apply list_elem_of_In in Hin.
  pose proof (proj1 (forallb_forall _ _) height_tables _ Hin) as Hall.
  exact (forall_range_spec _ _ _ Hall _ Hrange).
Qed.



(** The middle row of every background of 2 to 40000 rows, an even
    number. *)
Lemma binary64_middle (y_px : Z) (object_height_m : float) :
  1 <= y_px <= 20000 ->
  compute_object_size_px (F:=float) main_camera (2 * y_px) y_px
    object_height_m
  = Raise ZeroDivisionError.
Proof.
  intros Hy.
  assert (Hrange : 1 <= y_px < 1 + Z.pos 20000) by lia.
  pose proof (forall_range_spec _ _ _ middle_table _ Hrange) as Hok.
  clear Hrange. unfold middle_ok in Hok.
  rewrite <- main_camera_quick, <- horizon_test_quick in Hok.
  destruct (horizon_test main_camera (2 * y_px) y_px) as [[d|]|e] eqn:E;
    try discriminate.
  apply (solver_on_zero main_camera (2 * y_px) y_px object_height_m d).
  - exact E.
  - exact Hok.
Qed.

(** ** The side of the middle row *)

Module HorizonRow.
Import Exact Spec ExactGeometry.
Local Open Scope Q_scope.

Section Row.
Variable camera : CameraParams Q.
Variables bg_height_px y_px : Z.
Hypothesis bg_positive : (0 < bg_height_px)%Z.
Hypothesis sensor_positive : 0 < sensor_height_mm camera.

Lemma ppm_positive : 0 < ppm camera bg_height_px.
Proof.
  unfold ppm. apply Qlt_shift_div_l; [assumption|].
  rewrite Qmult_0_l. change 0 with (inject_Z 0). now rewrite <- Zlt_Qlt.
Qed.

(** The sign of the first denominator is the side of the middle row the
    anchor is on. *)
Lemma depth_sign :
  let d := sensor_height_mm camera / 2 - y_sensor_mm camera bg_height_px y_px in
  (0 < d <-> (bg_height_px < 2 * y_px)%Z)
  /\ (d == 0 <-> (2 * y_px = bg_height_px)%Z)
  /\ (d < 0 <-> (2 * y_px < bg_height_px)%Z).
Proof.
  intros d.
  assert (Hpx : d * ppm camera bg_height_px
                == inject_Z y_px - inject_Z bg_height_px / 2).
  { apply below_horizon_px; [lia|lra]. }
  pose proof ppm_positive as Hp.
  assert (Hy : inject_Z (2 * y_px) == 2 * inject_Z y_px)
    by (rewrite inject_Z_mult; reflexivity).
  assert (H0 : 0 < d <-> 0 < inject_Z y_px - inject_Z bg_height_px / 2).
  { rewrite <- Hpx. split; intros H; nra. }
  assert (H1 : d == 0 <-> inject_Z y_px - inject_Z bg_height_px / 2 == 0).
  { rewrite <- Hpx. split; intros H; nra. }
  assert (H2 : d < 0 <-> inject_Z y_px - inject_Z bg_height_px / 2 < 0).
  { rewrite <- Hpx. split; intros H; nra. }
  rewrite H0, H1, H2, !Zlt_Qlt, <- inject_Z_injective, Hy.
  change (inject_Z 2) with 2.
  clear. generalize (inject_Z y_px) (inject_Z bg_height_px). intros a b.
  unfold Qdiv. change (/ 2) with (1 # 2).
  split; [|split]; split; intros H; lra.
Qed.

End Row.
End HorizonRow.

(** The height without rounding, for the camera of [main.py]. *)
Lemma reference_height_closed (n : Z) (d : positive) (bg_height_px y_px : Z) :
  0 < bg_height_px -> bg_height_px < 2 * y_px ->
  Qtrunc (h_mm main_camera bg_height_px y_px (n # d)
          * ppm main_camera bg_height_px)
  = reference_height n d bg_height_px y_px.
Proof.
  intros Hbg Hy.
  assert (Hs : (0 < sensor_height_mm (F:=Q) main_camera)%Q) by reflexivity.
  destruct (HorizonRow.depth_sign main_camera bg_height_px y_px Hbg Hs)
    as (Hpos & _ & _).
  assert (Hd : (0 < sensor_height_mm main_camera / 2
                    - y_sensor_mm main_camera bg_height_px y_px)%Q)
    by (apply Hpos; lia).
  assert (Hs0 : ~ (sensor_height_mm (F:=Q) main_camera == 0)%Q)
    by (vm_compute; discriminate).
  assert (Hf0 : ~ (focal_length_mm (F:=Q) main_camera == 0)%Q)
    by (vm_compute; discriminate).
  assert (Hc0 : ~ (camera_height_mm (F:=Q) main_camera == 0)%Q)
    by (vm_compute; discriminate).
  assert (Hd0 : ~ (sensor_height_mm main_camera / 2
                   - y_sensor_mm main_camera bg_height_px y_px == 0)%Q)
    by lra.
  rewrite (Qtrunc_comp _ _
             (height_closed main_camera bg_height_px (n # d) ltac:(lia)
                Hs0 y_px Hd0 Hf0 Hc0)).
  assert (E : ((inject_Z y_px - inject_Z bg_height_px / 2)
               * (1000 * (n # d) / camera_height_mm main_camera)
               == ((2 * y_px - bg_height_px) * 1000 * n) # (3200 * d))%Q).
  { cbn [camera_height_mm main_camera flit Q_float].
    unfold Qeq, Qminus, Qplus, Qopp, Qdiv, Qmult, Qinv, inject_Z.
    cbn [Qnum Qden]. rewrite !Pos2Z.inj_mul. cbn [Z.sgn]. lia. }
  rewrite (Qtrunc_comp _ _ E). unfold Qtrunc, reference_height.
  cbn [Qnum Qden]. now rewrite Pos2Z.inj_mul.
Qed.

(** [int] of a float and of its opposite, in binary64. *)
Lemma trunc_opp (x : float) (z : Z) :
  Binary64.trunc x = Ok z -> Binary64.trunc (- x)%float = Ok (- z).
Proof.
  unfold Binary64.trunc. rewrite opp_spec.
  destruct (Prim2SF x) as [s|s| |s m e]; cbn [SFopp]; try discriminate.
  - intros [= <-]. reflexivity.
  - intros [= <-]. f_equal. destruct s; cbn [negb]; lia.
Qed.

Lemma solver_computed {F : Type} {PF : PyFloat F} (camera : CameraParams F)
    (bg_height_px y_px : Z) (object_height_m bg dy : F) :
  of_int bg_height_px = Ok bg ->
  of_int (bg_height_px - y_px) = Ok dy ->
  fis_zero (sensor_height_mm camera) = false ->
  fis_zero (Computed.pixel_per_mm camera bg) = false ->
  fis_zero (flit 2) = false ->
  fgt (Computed.x_y_mm camera bg dy) (Computed.half camera) = false ->
  fis_zero (fsub (Computed.half camera) (Computed.x_y_mm camera bg dy))
  = false ->
  fis_zero (fadd (ground_distance_mm camera) (Computed.x_r_mm camera bg dy))
  = false ->
  compute_object_size_px camera bg_height_px y_px object_height_m
  = to_int (fmul (Computed.h_mm camera bg dy object_height_m)
                 (Computed.pixel_per_mm camera bg)).
Proof.
  intros Hbg Hdy Hs Hppm Htwo Hgt Hd Hg.
  unfold compute_object_size_px. rewrite Hbg; cbn [res_bind].
  unfold truediv at 1. rewrite Hs; cbn [res_bind].
  fold (Computed.pixel_per_mm camera bg).
  rewrite Hdy; cbn [res_bind].
  unfold truediv at 1. rewrite Hppm; cbn [res_bind].
  fold (Computed.x_y_mm camera bg dy).
  unfold truediv at 1. rewrite Htwo; cbn [res_bind].
  fold (Computed.half camera). rewrite Hgt.
  unfold truediv at 1. rewrite Htwo; cbn [res_bind].
  fold (Computed.half camera).
  unfold truediv at 1. rewrite Hd; cbn [res_bind].
  unfold truediv at 1. rewrite Htwo; cbn [res_bind].
  fold (Computed.half camera). fold (Computed.x_r_mm camera bg dy).
  unfold truediv. rewrite Hg; cbn [res_bind]. reflexivity.
Qed.

(** The rows of one background, from the table. *)
Lemma binary64_table_rows (H : float) (n : Z) (d : positive)
    (bg_height_px : Z) :
  (H, (n, d)) ∈ sample_heights ->
  1 <= bg_height_px <= 1024 ->
  let solve y :=
    compute_object_size_px (F:=float) main_camera bg_height_px y H in
  (forall y, 0 <= y <= bg_height_px ->
     (2 * y < bg_height_px -> solve y = Ok 0)
     /\ (2 * y = bg_height_px -> solve y = Raise ZeroDivisionError)
     /\ (bg_height_px < 2 * y ->
         exists z, solve y = Ok z /\ 0 <= z
                   /\ Z.abs (z - reference_height n d bg_height_px y) <= 1))
  /\ (forall y1 y2,
        y1 <= y2 -> y2 <= bg_height_px -> bg_height_px < 2 * y1 ->
        exists z1 z2, solve y1 = Ok z1 /\ solve y2 = Ok z2 /\ z1 <= z2).
Proof.
  intros Hin Hbg solve.
  pose proof (binary64_rows H n d bg_height_px Hin Hbg) as Htable.
  unfold table_ok in Htable.
  destruct (rows_from_spec _ _ _ _ _ _ _ Htable) as [Hrow Hmono].
  split.
  - intros y Hy. apply Hrow. lia.
  - intros y1 y2 H12 H2 H1. apply Hmono; lia.
Qed.





(** * The specification against the code *)

(** ** The height formula *)

(** C1, as amended.  For every float arithmetic, when no step raises and
    the horizon test of line 130 is false, the solver returns
    [int (h_mm * pixel_per_mm)], with [h_mm] and [pixel_per_mm] computed
    by the float operations in the order of the source ([Computed]).
    [int] rounds toward zero: in binary64 the opposite of a float has the
    opposite integer part.  In exact arithmetic that value is the integer
    part of the [h_mm * ppm] of the specification, its floor when the
    product is not negative and its ceiling when it is not positive.  In
    binary64 it can be one less or more: for the camera of [main.py], the
    object heights of [sample_heights] and every background of 1 to 1024
    rows, the height returned at a row below the middle is within one of
    that integer part. *)
Theorem solver_height_truncated :
  (forall (F : Type) (PF : PyFloat F) (camera : CameraParams F)
          (bg_height_px y_px : Z) (object_height_m bg dy : F),
     of_int bg_height_px = Ok bg ->
     of_int (bg_height_px - y_px) = Ok dy ->
     fis_zero (sensor_height_mm camera) = false ->
     fis_zero (Computed.pixel_per_mm camera bg) = false ->
     fis_zero (flit 2) = false ->
     fgt (Computed.x_y_mm camera bg dy) (Computed.half camera) = false ->
     fis_zero (fsub (Computed.half camera) (Computed.x_y_mm camera bg dy))
     = false ->
     fis_zero (fadd (ground_distance_mm camera)
                    (Computed.x_r_mm camera bg dy))
     = false ->
     compute_object_size_px camera bg_height_px y_px object_height_m
     = to_int (fmul (Computed.h_mm camera bg dy object_height_m)
                    (Computed.pixel_per_mm camera bg)))
  /\ (forall (x : float) (z : Z),
        to_int (F:=float) x = Ok z -> to_int (F:=float) (- x)%float = Ok (- z))
  /\ (forall (camera : CameraParams Q) (bg_height_px y_px : Z)
             (object_height_m : Q),
        bg_height_px <> 0 ->
        (y_sensor_mm camera bg_height_px y_px
         < sensor_height_mm camera / 2)%Q ->
        ~ (ground_distance_mm camera
           + ground_range_mm camera bg_height_px y_px == 0)%Q ->
        let h_px :=
          (h_mm camera bg_height_px y_px object_height_m
           * ppm camera bg_height_px)%Q in
        compute_object_size_px camera bg_height_px y_px object_height_m
        = Ok (Qtrunc h_px)
        /\ ((0 <= h_px)%Q -> Qtrunc h_px = Qfloor h_px)
        /\ ((h_px <= 0)%Q -> Qtrunc h_px = Qceiling h_px))
  /\ (forall (H : float) (n : Z) (d : positive) (bg_height_px y_px : Z),
        (H, (n, d)) ∈ sample_heights ->
        1 <= bg_height_px <= 1024 ->
        bg_height_px < 2 * y_px -> y_px <= bg_height_px ->
        exists z : Z,
          compute_object_size_px (F:=float) main_camera bg_height_px y_px H
          = Ok z
          /\ Z.abs (z - Qtrunc (h_mm main_camera bg_height_px y_px (n # d)
                                * ppm main_camera bg_height_px)) <= 1).
Proof.
  split; [|split; [|split]].
  - intros F PF camera bg_height_px y_px object_height_m bg dy.
    apply solver_computed.
  - intros x z. apply trunc_opp.
  - intros camera bg_height_px y_px object_height_m Hbg Hlt Hnz h_px.
    split; [|split].
    + apply solver_below_horizon; try assumption.
      eapply sensor_nonzero_of_below; eassumption.
    + apply Qtrunc_nonneg.
    + apply Qtrunc_nonpos.
  - intros H n d bg_height_px y_px Hin Hbg Hbelow Hy.
    destruct (binary64_table_rows H n d bg_height_px Hin Hbg) as [Hrow _].
    destruct (Hrow y_px) as (_ & _ & Hz); [lia|].
    destruct (Hz Hbelow) as (z & Ez & _ & Hnear).
    exists z. split; [exact Ez|].
    rewrite reference_height_closed by lia. exact Hnear.
Qed.

Lemma solver_height_truncated_witness :
  exists z : Z,
    compute_object_size_px (F:=float) main_camera 100 66 0.5%float = Ok z
    /\ Z.abs (z - Qtrunc (h_mm main_camera 100 66 (1 # 2)
                          * ppm main_camera 100)) <= 1.
Proof.
  destruct solver_height_truncated as (_ & _ & _ & Hrows).
  apply (Hrows 0.5%float 1 2%positive 100 66).
  - apply elem_of_cons; right. apply elem_of_cons; left. reflexivity.
  - lia.
  - lia.
  - lia.
Defined.

(** C1 as stated fails twice.  At the horizon itself, where the sensor
    coordinate equals [sensor_height_mm / 2], the solver raises
    [ZeroDivisionError] and returns nothing.  Below it, with the camera
    under the ground plane, [h_mm * ppm] is -5/4: the solver returns -1,
    and the floor is -2.  Binary64 gives the same runs. *)
Lemma solver_height_not_floor :
  ((y_sensor_mm main_camera 48 24 <= sensor_height_mm main_camera / 2)%Q
   /\ compute_object_size_px (F:=Q) main_camera 48 24 (1 # 2)
      = Raise ZeroDivisionError
   /\ compute_object_size_px (F:=float) main_camera 48 24 0.5%float
      = Raise ZeroDivisionError)
  /\ ((y_sensor_mm low_camera 48 28 <= sensor_height_mm low_camera / 2)%Q
      /\ compute_object_size_px (F:=Q) low_camera 48 28 (1 # 2) = Ok (-1)
      /\ Qfloor (h_mm low_camera 48 28 (1 # 2) * ppm low_camera 48) = -2
      /\ compute_object_size_px (F:=float) low_camera 48 28 0.5%float
         = Ok (-1)).
Proof.
  split; [split; [|split]|split; [|split; [|split]]];
    try (vm_compute; reflexivity); vm_compute; discriminate.
Qed.

(** The input of that run: exact arithmetic gives 5 and binary64 gives 4,
    so the solver does not return the integer part of the exact
    [h_mm * ppm] either. *)
Example binary64_rounds_down :
  Qtrunc (h_mm main_camera 100 66 (1 # 2) * ppm main_camera 100) = 5
  /\ (h_mm main_camera 100 66 (1 # 2) * ppm main_camera 100 == 5)%Q
  /\ compute_object_size_px (F:=Q) main_camera 100 66 (1 # 2) = Ok 5
  /\ compute_object_size_px (F:=float) main_camera 100 66 0.5%float = Ok 4.
Proof. repeat split; vm_compute; reflexivity. Qed.

(** ** The horizon cutoff *)




(** The two binary64 runs of the same anchors. *)
Example binary64_above_horizon :
  compute_object_size_px (F:=float) main_camera 48 10 0.5%float = Ok 0
  /\ compute_object_size_px (F:=float) main_camera 3000 0 0.5%float = Ok 0
  /\ paste_object (F:=float) (G:=spec_float) nearest nearest 0%nat sprite
       sprite_alpha_b32 (0, 4) 0.5%float main_camera [scene]
     = (Raise (ValueError msg_above_horizon), [scene]).
Proof. repeat split; vm_compute; reflexivity. Qed.

(** ** The bounds check *)

(** C3, as amended.  For every call in which the solver returns a positive
    [target_h] and the scaling step (the width and the two calls of
    [cv2.resize]) returns: the region is [top = y_px - target_h],
    [bottom = y_px], [left = x_px - floor(target_w / 2)],
    [right = left + target_w]; [paste_object] raises the out-of-bounds
    [ValueError] if and only if [top < 0] or [bottom > bg_h] or [left < 0]
    or [right > bg_w]; and when it does, the store is what it was: no array
    was copied or written. *)
Theorem bounds_check {F : Type} {PF : PyFloat F} {G : Type} {N : NpFloat32 G}
    (inter_cubic : image (chan3 Z) -> Z -> Z -> image (chan3 Z))
    (inter_linear : image G -> Z -> Z -> image G)
    (s : store) (background : loc) (bg object_bgr : image (chan3 Z))
    (object_alpha : image G) (y_px x_px : Z) (object_height_m : F)
    (camera : CameraParams F) (target_h target_w : Z)
    (resized_bgr : image (chan3 Z)) (resized_alpha : image G) :
  s !! background = Some bg ->
  compute_object_size_px camera (shape bg).1 y_px object_height_m
  = Ok target_h ->
  0 < target_h ->
  scaled_width (F:=F) (shape object_bgr).2 (shape object_bgr).1 target_h
  = Ok target_w ->
  cv2_resize inter_cubic object_bgr (target_w, target_h) = Ok resized_bgr ->
  cv2_resize inter_linear object_alpha (target_w, target_h)
  = Ok resized_alpha ->
  let run :=
    paste_object inter_cubic inter_linear background object_bgr object_alpha
      (y_px, x_px) object_height_m camera s in
  let top := y_px - target_h in
  let bottom := y_px in
  let left_ := x_px - Qfloor (inject_Z target_w / 2) in
  let right_ := left_ + target_w in
  region y_px x_px target_w target_h = (top, bottom, left_, right_)
  /\ (run.1 = Raise (ValueError msg_out_of_bounds)
      <-> top < 0 \/ bottom > (shape bg).1 \/ left_ < 0
          \/ right_ > (shape bg).2)
  /\ (run.1 = Raise (ValueError msg_out_of_bounds) -> run.2 = s).
Proof.
  intros Hbg Hsolve Hpos Hwidth Hcubic Hlinear run top bottom left_ right_.
  assert (Hregion : region y_px x_px target_w target_h
                    = (top, bottom, left_, right_)).
  { unfold region, right_, left_, top, bottom.
    change (inject_Z target_w / 2)%Q with (inject_Z target_w / inject_Z 2)%Q.
    now rewrite <- Zdiv_Qdiv. }
  assert (Hrun : run
    = if out_of_bounds (top, bottom, left_, right_) (shape bg).1 (shape bg).2
      then (Raise (ValueError msg_out_of_bounds), s)
      else
        match blend resized_bgr resized_alpha
                (slice2 top bottom left_ right_ bg) with
        | Raise e => (Raise e, s ++ [bg])
        | Ok blended =>
            match assign_slice2 bg top bottom left_ right_ blended with
            | Raise e => (Raise e, s ++ [bg])
            | Ok out => (Ok (length s), s ++ [out])
            end
        end).
  { unfold run. rewrite (paste_object_unfold _ _ _ _ bg) by assumption.
    rewrite Hsolve. destruct (Z.leb_spec target_h 0); [lia|].
    rewrite Hwidth, Hcubic, Hlinear. cbv zeta. rewrite Hregion.
    reflexivity. }
  split; [exact Hregion|].
  rewrite Hrun, <- out_of_bounds_spec.
  destruct (out_of_bounds _ _ _) eqn:Eoob; cbn [fst snd].
  - split; [split; reflexivity|reflexivity].
  - assert (Hne : (match blend resized_bgr resized_alpha
                           (slice2 top bottom left_ right_ bg) with
                   | Raise e => (Raise e, s ++ [bg])
                   | Ok blended =>
                       match assign_slice2 bg top bottom left_ right_
                               blended with
                       | Raise e => (Raise e, s ++ [bg])
                       | Ok out => (Ok (length s), s ++ [out])
                       end
                   end).1 <> Raise (ValueError msg_out_of_bounds)).
    { destruct (blend _ _ _) as [blended|e] eqn:Eb; cbn [fst].
      - destruct (assign_slice2 _ _ _ _ _ _) as [out|e] eqn:Ea; cbn [fst].
        + discriminate.
        + apply assign_slice2_Raise in Ea as ->. discriminate.
      - apply blend_Raise in Eb as ->. discriminate. }
    split; [split; [intros E; contradiction|discriminate]
           |intros E; contradiction].
Qed.

Lemma bounds_check_witness :
  (paste_object (F:=Q) (G:=Q) nearest nearest 0%nat sprite sprite_alpha_q
     (32, 0) (1 # 2)%Q main_camera [scene]).1
  = Raise (ValueError msg_out_of_bounds)
  /\ (paste_object (F:=Q) (G:=Q) nearest nearest 0%nat sprite sprite_alpha_q
        (32, 0) (1 # 2)%Q main_camera [scene]).2
     = [scene].
Proof.
  destruct (bounds_check (F:=Q) (G:=Q) nearest nearest [scene] 0%nat scene
              sprite sprite_alpha_q 32 0 (1 # 2)%Q main_camera 2 2
              (nearest sprite 2 2) (nearest sprite_alpha_q 2 2))
    as [_ [Hiff Hstore]]; try (vm_compute; reflexivity).
  assert (Hraise :
    (paste_object (F:=Q) (G:=Q) nearest nearest 0%nat sprite sprite_alpha_q
       (32, 0) (1 # 2)%Q main_camera [scene]).1
    = Raise (ValueError msg_out_of_bounds)).
  { apply Hiff. right. right. left. reflexivity. }
  split; [exact Hraise|exact (Hstore Hraise)].
Defined.

(** C3 as stated fails when the scaling step does not return.  An object
    of 2 rows and 1 column anchored at (28, 100) on a background of 48 rows
    and 8 columns: the solver returns 1, the width is 0, the region
    [28 - 1 : 28, 100 : 100] lies right of the background, and the call
    ends in [cv2.error] from [cv2.resize], not in the out-of-bounds
    [ValueError].  Exact arithmetic and binary64 agree. *)
Lemma bounds_check_after_resize :
  (compute_object_size_px (F:=Q) main_camera (shape scene).1 28 (1 # 2)
   = Ok 1
   /\ scaled_width (F:=Q) (shape thin_sprite).2 (shape thin_sprite).1 1
      = Ok 0
   /\ (region 28 100 0 1).2 > (shape scene).2
   /\ (paste_object (F:=Q) (G:=Q) nearest nearest 0%nat thin_sprite
         thin_alpha_q (28, 100) (1 # 2)%Q main_camera [scene]).1
      = Raise cv2_error)
  /\ (compute_object_size_px (F:=float) main_camera (shape scene).1 28
        0.5%float
      = Ok 1
      /\ scaled_width (F:=float) (shape thin_sprite).2 (shape thin_sprite).1 1
         = Ok 0
      /\ (paste_object (F:=float) (G:=spec_float) nearest nearest 0%nat
            thin_sprite thin_alpha_b32 (28, 100) 0.5%float main_camera
            [scene]).1
         = Raise cv2_error).
Proof. repeat split; vm_compute; reflexivity. Qed.

(** ** The scaled width *)




(** The width in binary64 below the floor: an object of 49 rows and 1
    column at a height of 98 pixels gets the width 1, and
    [98 * 1 / 49 = 2]. *)
Example binary64_width_below_floor :
  scaled_width (F:=float) 1 49 98 = Ok 1
  /\ scaled_width (F:=Q) 1 49 98 = Ok 2
  /\ Qfloor (inject_Z 98 * inject_Z 1 / inject_Z 49) = 2.
Proof. repeat split; vm_compute; reflexivity. Qed.

(** ** The background is copied, never written *)

(** C5.  For every call, whatever its outcome, the array the caller passed
    as background holds the same pixels afterwards.  When the call returns,
    the result is another array: it equals the background at every pixel
    outside the region [top:bottom, left:right] and the blend of the
    resized object with that region inside it. *)
Theorem background_preserved {F : Type} {PF : PyFloat F}
    {G : Type} {N : NpFloat32 G}
    (inter_cubic : image (chan3 Z) -> Z -> Z -> image (chan3 Z))
    (inter_linear : image G -> Z -> Z -> image G)
    (s : store) (background : loc) (bg object_bgr : image (chan3 Z))
    (object_alpha : image G) (y_px x_px : Z) (object_height_m : F)
    (camera : CameraParams F) (h w : nat) :
  s !! background = Some bg ->
  has_shape bg h w ->
  let run :=
    paste_object inter_cubic inter_linear background object_bgr object_alpha
      (y_px, x_px) object_height_m camera s in
  run.2 !! background = Some bg
  /\ forall result : loc,
       run.1 = Ok result ->
       result <> background
       /\ exists (target_h target_w : Z) (resized_bgr : image (chan3 Z))
                 (resized_alpha : image G) (blended out : image (chan3 Z)),
            compute_object_size_px camera (shape bg).1 y_px object_height_m
            = Ok target_h
            /\ scaled_width (F:=F) (shape object_bgr).2
                 (shape object_bgr).1 target_h
               = Ok target_w
            /\ cv2_resize inter_cubic object_bgr (target_w, target_h)
               = Ok resized_bgr
            /\ cv2_resize inter_linear object_alpha (target_w, target_h)
               = Ok resized_alpha
            /\ blend resized_bgr resized_alpha
                 (slice2 (y_px - target_h) y_px (x_px - target_w / 2)
                    (x_px - target_w / 2 + target_w) bg)
               = Ok blended
            /\ run.2 !! result = Some out
            /\ forall i j,
                 px out i j
                 = if in_region (region y_px x_px target_w target_h) i j
                   then px blended (i - Z.to_nat (y_px - target_h))
                          (j - Z.to_nat (x_px - target_w / 2))
                   else px bg i j.
Proof.
  intros Hbg Hshape run. split.
  - now apply paste_object_frame.
  - intros result Hok.
    destruct (paste_object_Ok inter_cubic inter_linear s background bg
                object_bgr object_alpha y_px x_px object_height_m camera h w
                Hbg Hshape result Hok)
      as (target_h & target_w & resized_bgr & resized_alpha & blended & out
          & Hsolve & _ & Hwidth & _ & Hcubic & Hlinear & _ & Hblend & ->
          & Hstore & _ & _ & Hout & _).
    split.
    + apply lookup_lt_Some in Hbg. lia.
    + exists target_h, target_w, resized_bgr, resized_alpha, blended, out.
      do 5 (split; [assumption|]). split; [|exact Hout].
      fold run in Hstore. rewrite Hstore.
      rewrite lookup_app_r, Nat.sub_diag by lia. reflexivity.
Qed.

Lemma background_preserved_witness :
  (paste_object (F:=Q) (G:=Q) nearest nearest 0%nat sprite sprite_alpha_q
     (32, 4) (1 # 2)%Q main_camera [scene]).2 !! 0%nat
  = Some scene.
Proof.
  refine (proj1 (background_preserved (F:=Q) (G:=Q) nearest nearest [scene]
                   0%nat scene sprite sprite_alpha_q 32 4 (1 # 2)%Q
                   main_camera 48 8 _ _)).
  - reflexivity.
  - apply has_shape_replicate.
Defined.

(** That call evaluated, and the same call in binary64 with a binary32
    mask: the result is array 1, array 0 is the background as it was, and
    the region [30:32, 3:5] holds the blend. *)
Example paste_object_runs :
  let run_q :=
    paste_object (F:=Q) (G:=Q) nearest nearest 0%nat sprite sprite_alpha_q
      (32, 4) (1 # 2)%Q main_camera [scene] in
  let run_b :=
    paste_object (F:=float) (G:=spec_float) nearest nearest 0%nat sprite
      sprite_alpha_b32 (32, 4) 0.5%float main_camera [scene] in
  run_q = run_b
  /\ run_q.1 = Ok 1%nat
  /\ run_q.2 !! 0%nat = Some scene
  /\ (slice2 29 33 2 6 <$> run_q.2 !! 1%nat)
     = Some [[(10, 20, 30); (10, 20, 30); (10, 20, 30); (10, 20, 30)];
             [(10, 20, 30); (1, 2, 3); (10, 20, 30); (10, 20, 30)];
             [(10, 20, 30); (8, 14, 19); (200, 201, 202); (10, 20, 30)];
             [(10, 20, 30); (10, 20, 30); (10, 20, 30); (10, 20, 30)]].
Proof. repeat split; vm_compute; reflexivity. Qed.

(** ** The solver raises at the horizon *)

(** C6 fails on the code.  The anchor in the middle row of a background of
    3000 rows, with the camera of [main.py] and an object of 0.4 m, is in
    the solver's domain, and there the solver raises [ZeroDivisionError]:
    the sensor coordinate equals [sensor_height_mm / 2], the test [>] of
    the horizon cutoff lets it through, and the next line divides by
    zero.  [paste_object] passes the exception on, for every column and
    interpolation; it is not one of its [ValueError]s.  Exact arithmetic
    and binary64 agree. *)
Theorem solver_raises_at_horizon
    (inter_cubic : image (chan3 Z) -> Z -> Z -> image (chan3 Z))
    (inter_linear_q : image Q -> Z -> Z -> image Q)
    (inter_linear_b32 : image spec_float -> Z -> Z -> image spec_float)
    (object_bgr : image (chan3 Z)) (alpha_q : image Q)
    (alpha_b32 : image spec_float) (x_px : Z) :
  (compute_object_size_px (F:=Q) main_camera (shape tall_scene).1 1500 (2 # 5)
   = Raise ZeroDivisionError
   /\ paste_object (F:=Q) (G:=Q) inter_cubic inter_linear_q 0%nat object_bgr
        alpha_q (1500, x_px) (2 # 5)%Q main_camera [tall_scene]
      = (Raise ZeroDivisionError, [tall_scene]))
  /\ (compute_object_size_px (F:=float) main_camera (shape tall_scene).1 1500
        height_0_4
      = Raise ZeroDivisionError
      /\ paste_object (F:=float) (G:=spec_float) inter_cubic inter_linear_b32
           0%nat object_bgr alpha_b32 (1500, x_px) height_0_4 main_camera
           [tall_scene]
         = (Raise ZeroDivisionError, [tall_scene])).
Proof.
  assert (Hq : compute_object_size_px (F:=Q) main_camera (shape tall_scene).1
                 1500 (2 # 5) = Raise ZeroDivisionError)
    by (vm_compute; reflexivity).
  assert (Hf : compute_object_size_px (F:=float) main_camera
                 (shape tall_scene).1 1500 height_0_4
               = Raise ZeroDivisionError)
    by (vm_compute; reflexivity).
  split; (split; [assumption|]).
  - rewrite (paste_object_unfold _ _ _ _ tall_scene) by reflexivity.
    now rewrite Hq.
  - rewrite (paste_object_unfold _ _ _ _ tall_scene) by reflexivity.
    now rewrite Hf.
Qed.

(** ** Zero denominators *)

(** C7 fails on the code.  Over exact arithmetic, whenever the first
    denominator [sensor_height_mm / 2 - y_sensor_mm] is exactly zero, and
    whenever it is positive and the second denominator
    [ground_distance_mm + ground_range_mm] is exactly zero, the solver
    raises [ZeroDivisionError]; it does not return 0.  In binary64 the
    anchor in the middle row of a background of 3000 rows, and the camera
    of [main.py] laid on the ground, raise as well. *)
Theorem zero_denominators_raise :
  (forall (camera : CameraParams Q) (bg_height_px y_px : Z)
          (object_height_m : Q),
     bg_height_px <> 0 ->
     ~ (sensor_height_mm camera == 0)%Q ->
     (sensor_height_mm camera / 2 - y_sensor_mm camera bg_height_px y_px
      == 0)%Q ->
     compute_object_size_px camera bg_height_px y_px object_height_m
     = Raise ZeroDivisionError)
  /\ (forall (camera : CameraParams Q) (bg_height_px y_px : Z)
             (object_height_m : Q),
        bg_height_px <> 0 ->
        (0 < sensor_height_mm camera / 2
             - y_sensor_mm camera bg_height_px y_px)%Q ->
        (ground_distance_mm camera
         + ground_range_mm camera bg_height_px y_px == 0)%Q ->
        compute_object_size_px camera bg_height_px y_px object_height_m
        = Raise ZeroDivisionError)
  /\ compute_object_size_px (F:=float) main_camera 3000 1500 height_0_4
     = Raise ZeroDivisionError
  /\ compute_object_size_px (F:=float) ground_camera 3000 2000 height_0_4
     = Raise ZeroDivisionError.
Proof.
  split; [|split; [|split]].
  - intros camera bg y h Hbg Hs Hd.
    apply solver_at_horizon; try assumption. lra.
  - intros camera bg y h Hbg Hd Hz.
    assert (Hlt : (y_sensor_mm camera bg y < sensor_height_mm camera / 2)%Q)
      by lra.
    apply solver_second_denominator; try assumption.
    eapply sensor_nonzero_of_below; eassumption.
  - vm_compute. reflexivity.
  - vm_compute. reflexivity.
Qed.

Lemma zero_denominators_raise_witness :
  compute_object_size_px (F:=Q) main_camera 3000 1500 (2 # 5)
  = Raise ZeroDivisionError
  /\ compute_object_size_px (F:=Q) ground_camera 3000 2000 (2 # 5)
     = Raise ZeroDivisionError.
Proof.
  destruct zero_denominators_raise as [Hfirst [Hsecond _]]. split.
  - apply Hfirst; [discriminate|discriminate|reflexivity].
  - apply Hsecond; [discriminate|reflexivity|reflexivity].
Defined.

(** ** Monotonicity *)




(** The same rows in binary64: heights 1 and 5, and 0 above the horizon. *)
Example binary64_heights :
  compute_object_size_px (F:=float) main_camera 48 28 0.5%float = Ok 1
  /\ compute_object_size_px (F:=float) main_camera 48 40 0.5%float = Ok 5
  /\ compute_object_size_px (F:=float) main_camera 48 10 0.5%float = Ok 0.
Proof. repeat split; vm_compute; reflexivity. Qed.

(** ** The blend *)

(** C9.  For every call that returns, each pixel of the region of the
    result is [uint8 (float32 c * a + float32 b * (1.0 - a))] in each of
    the three channels, [c] being the pixel of the resized object, [a] the
    one value of the resized mask there and [b] the pixel of the
    background.  Hence, on uint8 arrays, a resized mask that is zero
    everywhere leaves the region equal to the background, and one that is
    one everywhere makes it equal to the resized object.  The arithmetic is
    any that meets [BlendLaws]: exact rationals and binary32 do. *)
Theorem blend_formula {F : Type} {PF : PyFloat F} {G : Type} {N : NpFloat32 G}
    {L : BlendLaws G}
    (inter_cubic : image (chan3 Z) -> Z -> Z -> image (chan3 Z))
    (inter_linear : image G -> Z -> Z -> image G)
    (s : store) (background : loc) (bg object_bgr : image (chan3 Z))
    (object_alpha : image G) (y_px x_px : Z) (object_height_m : F)
    (camera : CameraParams F) (h w : nat) (result : loc) :
  s !! background = Some bg ->
  has_shape bg h w ->
  let run :=
    paste_object inter_cubic inter_linear background object_bgr object_alpha
      (y_px, x_px) object_height_m camera s in
  run.1 = Ok result ->
  exists (target_h target_w : Z) (resized_bgr : image (chan3 Z))
         (resized_alpha : image G) (out : image (chan3 Z)),
    cv2_resize inter_cubic object_bgr (target_w, target_h) = Ok resized_bgr
    /\ cv2_resize inter_linear object_alpha (target_w, target_h)
       = Ok resized_alpha
    /\ run.2 !! result = Some out
    /\ let inside := in_region (region y_px x_px target_w target_h) in
       let row i := (i - Z.to_nat (y_px - target_h))%nat in
       let col j := (j - Z.to_nat (x_px - target_w / 2))%nat in
       (forall i j,
          inside i j = true ->
          exists (c : chan3 Z) (a : G) (b : chan3 Z),
            px resized_bgr (row i) (col j) = Some c
            /\ px resized_alpha (row i) (col j) = Some a
            /\ px bg i j = Some b
            /\ px out i j = Some (blend_px c a b)
            /\ blend_px c a b
               = (blend_channel c.1.1 a b.1.1, blend_channel c.1.2 a b.1.2,
                  blend_channel c.2 a b.2))
       /\ (u8_image bg -> u8_image resized_bgr ->
           (forall i j a, px resized_alpha i j = Some a -> transparent a) ->
           forall i j, inside i j = true -> px out i j = px bg i j)
       /\ (u8_image bg -> u8_image resized_bgr ->
           (forall i j a, px resized_alpha i j = Some a -> opaque a) ->
           forall i j,
             inside i j = true ->
             px out i j = px resized_bgr (row i) (col j)).
Proof.
  intros Hbg Hshape run Hok.
  destruct (paste_object_Ok inter_cubic inter_linear s background bg
              object_bgr object_alpha y_px x_px object_height_m camera h w
              Hbg Hshape result Hok)
    as (target_h & target_w & resized_bgr & resized_alpha & blended & out
        & Hsolve & Hpos & Hwidth & Hwpos & Hcubic & Hlinear & Hoob & Hblend
        & -> & Hstore & Hc & Ha & Hout & Hpx).
  exists target_h, target_w, resized_bgr, resized_alpha, out.
  split; [assumption|]. split; [assumption|]. split.
  { fold run in Hstore. rewrite Hstore.
    rewrite lookup_app_r, Nat.sub_diag by lia. reflexivity. }
  intros inside row col.
  destruct (shape_of_has_shape bg h w Hshape) as [Hrows Hcols].
  assert (Hin : ~ (y_px - target_h < 0 \/ y_px > (shape bg).1
                   \/ x_px - target_w / 2 < 0
                   \/ x_px - target_w / 2 + target_w > (shape bg).2)).
  { rewrite <- out_of_bounds_spec. unfold region in Hoob.
    rewrite Hoob. discriminate. }
  assert (Hpixel : forall i j,
            inside i j = true ->
            exists (c : chan3 Z) (a : G) (b : chan3 Z),
              px resized_bgr (row i) (col j) = Some c
              /\ px resized_alpha (row i) (col j) = Some a
              /\ px bg i j = Some b
              /\ px out i j = Some (blend_px c a b)).
  { intros i j Hij. pose proof Hij as Hij'.
    unfold inside, region, in_region in Hij'.
    apply andb_true_iff in Hij' as [Hij' Hj2].
    apply andb_true_iff in Hij' as [Hij' Hj1].
    apply andb_true_iff in Hij' as [Hi1 Hi2].
    apply Z.leb_le in Hi1, Hj1. apply Z.ltb_lt in Hi2, Hj2.
    destruct (proj2 (px_Some_iff resized_bgr _ _ (row i) (col j) Hc))
      as [c Ec]; [unfold row, col; lia|].
    destruct (proj2 (px_Some_iff resized_alpha _ _ (row i) (col j) Ha))
      as [a Ea]; [unfold row, col; lia|].
    destruct (proj2 (px_Some_iff bg _ _ i j Hshape)) as [b Eb]; [lia|].
    exists c, a, b. do 3 (split; [assumption|]).
    rewrite Hout. fold inside. rewrite Hij.
    rewrite (Hpx i j Hij). fold (row i) (col j).
    rewrite Ec, Ea, Eb. reflexivity. }
  split; [|split].
  - intros i j Hij.
    destruct (Hpixel i j Hij) as (c & a & b & Ec & Ea & Eb & Eout).
    exists c, a, b. do 4 (split; [assumption|]). apply blend_px_channels.
  - intros Hbg8 Hc8 Hzero i j Hij.
    destruct (Hpixel i j Hij) as (c & a & b & Ec & Ea & Eb & Eout).
    rewrite Eout, Eb, blend_px_channels.
    destruct (Hc8 _ _ _ Ec) as (Hc1 & Hc2 & Hc3).
    destruct (Hbg8 _ _ _ Eb) as (Hb1 & Hb2 & Hb3).
    pose proof (Hzero _ _ _ Ea) as Hz.
    rewrite !blend_transparent by assumption.
    destruct b as [[b1 b2] b3]. reflexivity.
  - intros Hbg8 Hc8 Hone i j Hij.
    destruct (Hpixel i j Hij) as (c & a & b & Ec & Ea & Eb & Eout).
    rewrite Eout, Ec, blend_px_channels.
    destruct (Hc8 _ _ _ Ec) as (Hc1 & Hc2 & Hc3).
    destruct (Hbg8 _ _ _ Eb) as (Hb1 & Hb2 & Hb3).
    pose proof (Hone _ _ _ Ea) as Hz.
    rewrite !blend_opaque by assumption.
    destruct c as [[c1 c2] c3]. reflexivity.
Qed.

Lemma blend_formula_witness :
  exists (target_h target_w : Z) (resized_bgr out : image (chan3 Z)),
    cv2_resize nearest wide_sprite (target_w, target_h) = Ok resized_bgr
    /\ (paste_object (F:=Q) (G:=Q) nearest nearest 0%nat wide_sprite
          wide_alpha_q (32, 4) (1 # 2)%Q main_camera [scene]).2 !! 1%nat
       = Some out
    /\ forall i j,
         in_region (region 32 4 target_w target_h) i j = true ->
         px out i j
         = px resized_bgr (i - Z.to_nat (32 - target_h))
             (j - Z.to_nat (4 - target_w / 2)).
Proof.
  destruct (blend_formula (F:=Q) (G:=Q) nearest nearest [scene] 0%nat scene
              wide_sprite wide_alpha_q 32 4 (1 # 2)%Q main_camera 48 8 1%nat)
    as (target_h & target_w & resized_bgr & resized_alpha & out
        & Hcubic & Hlinear & Hstore & _ & _ & Hopaque).
  - reflexivity.
  - apply has_shape_replicate.
  - vm_compute. reflexivity.
  - exists target_h, target_w, resized_bgr, out.
    split; [exact Hcubic|]. split; [exact Hstore|].
    apply Hopaque.
    + intros i j p Hp. apply px_replicate in Hp as ->.
      repeat split; unfold is_u8; cbn; lia.
    + apply cv2_resize_Ok in Hcubic as (_ & _ & _ & _ & ->).
      intros i j p Hp. apply px_nearest in Hp as (i' & j' & Hp).
      apply px_replicate in Hp as ->.
      repeat split; unfold is_u8; cbn; lia.
    + apply cv2_resize_Ok in Hlinear as (_ & _ & _ & _ & ->).
      intros i j a Hp. apply px_nearest in Hp as (i' & j' & Hp).
      apply px_replicate in Hp as ->. reflexivity.
Defined.

(** Binary64 and binary32 on the same call: the region [30:32, 4:5] of
    the result holds the object's colour, the mask being one. *)
Example blend_binary32 :
  let run :=
    paste_object (F:=float) (G:=spec_float) nearest nearest 0%nat wide_sprite
      wide_alpha_b32 (32, 4) 0.5%float main_camera [scene] in
  run.1 = Ok 1%nat
  /\ (slice2 29 33 3 6 <$> run.2 !! 1%nat)
     = Some [[(10, 20, 30); (10, 20, 30); (10, 20, 30)];
             [(10, 20, 30); (9, 9, 9); (10, 20, 30)];
             [(10, 20, 30); (9, 9, 9); (10, 20, 30)];
             [(10, 20, 30); (10, 20, 30); (10, 20, 30)]].
Proof. repeat split; vm_compute; reflexivity. Qed.

(** ** A positive height with a zero width *)

(** C10.  An object of 2 rows and 1 column anchored at (28, 4) on a
    background of 48 rows: the solver returns the positive height 1, the
    truncated width [int(1 / 2 * 1)] is 0, and [paste_object] calls
    [cv2.resize] with the size (0, 1); whatever the interpolation, the
    call ends in [cv2.error], which is neither of the two [ValueError]s,
    and the store is untouched.  Exact arithmetic and binary64 agree. *)
Theorem zero_width_resize
    (inter_cubic : image (chan3 Z) -> Z -> Z -> image (chan3 Z))
    (inter_linear_q : image Q -> Z -> Z -> image Q)
    (inter_linear_b32 : image spec_float -> Z -> Z -> image spec_float) :
  (compute_object_size_px (F:=Q) main_camera (shape scene).1 28 (1 # 2)
   = Ok 1
   /\ scaled_width (F:=Q) (shape thin_sprite).2 (shape thin_sprite).1 1
      = Ok 0
   /\ cv2_resize inter_cubic thin_sprite (0, 1) = Raise cv2_error
   /\ paste_object (F:=Q) (G:=Q) inter_cubic inter_linear_q 0%nat
        thin_sprite thin_alpha_q (28, 4) (1 # 2)%Q main_camera [scene]
      = (Raise cv2_error, [scene]))
  /\ (compute_object_size_px (F:=float) main_camera (shape scene).1 28
        0.5%float
      = Ok 1
      /\ scaled_width (F:=float) (shape thin_sprite).2 (shape thin_sprite).1 1
         = Ok 0
      /\ paste_object (F:=float) (G:=spec_float) inter_cubic
           inter_linear_b32 0%nat thin_sprite thin_alpha_b32 (28, 4)
           0.5%float main_camera [scene]
         = (Raise cv2_error, [scene])).
Proof.
  assert (Hq : compute_object_size_px (F:=Q) main_camera (shape scene).1 28
                 (1 # 2) = Ok 1) by (vm_compute; reflexivity).
  assert (Hf : compute_object_size_px (F:=float) main_camera (shape scene).1
                 28 0.5%float = Ok 1) by (vm_compute; reflexivity).
  assert (Hwq : scaled_width (F:=Q) (shape thin_sprite).2
                  (shape thin_sprite).1 1 = Ok 0) by (vm_compute; reflexivity).
  assert (Hwf : scaled_width (F:=float) (shape thin_sprite).2
                  (shape thin_sprite).1 1 = Ok 0) by (vm_compute; reflexivity).
  assert (Hr : cv2_resize inter_cubic thin_sprite (0, 1) = Raise cv2_error)
    by (apply cv2_resize_empty; lia).
  split; [split; [exact Hq|split; [exact Hwq|split; [exact Hr|]]]
         |split; [exact Hf|split; [exact Hwf|]]].
  - rewrite (paste_object_unfold _ _ _ _ scene) by reflexivity.
    rewrite Hq. cbn [Z.leb Z.compare]. rewrite Hwq, Hr. reflexivity.
  - rewrite (paste_object_unfold _ _ _ _ scene) by reflexivity.
    rewrite Hf. cbn [Z.leb Z.compare]. rewrite Hwf, Hr. reflexivity.
Qed.

(** * More of the code *)

(** * More of the compositor *)

Lemma assign_slice2_shape {A} (a blk a' : image A)
    (top bottom left right : Z) (h w : nat) :
  has_shape a h w ->
  assign_slice2 a top bottom left right blk = Ok a' ->
  has_shape a' h w.
Proof.
  intros [Hh Hw]. unfold assign_slice2.
  destruct (same_shape _ blk); [|discriminate]. intros [= <-]. split.
  - now rewrite length_imap.
  - intros i row Hrow. rewrite list_lookup_imap in Hrow.
    destruct (a !! i) as [row0|] eqn:E; [|discriminate].
    cbn in Hrow. injection Hrow as <-. rewrite length_imap. eauto.
Qed.

(** X4.  The store only grows.  A call of [paste_object], whatever its
    outcome, leaves every array of the store as it was and adds at most one;
    when it returns, the result is the one array it added. *)
Theorem store_only_grows {F : Type} {PF : PyFloat F}
    {G : Type} {N : NpFloat32 G}
    (inter_cubic : image (chan3 Z) -> Z -> Z -> image (chan3 Z))
    (inter_linear : image G -> Z -> Z -> image G)
    (s : store) (background : loc) (object_bgr : image (chan3 Z))
    (object_alpha : image G) (location : Z * Z) (object_height_m : F)
    (camera : CameraParams F) :
  let run :=
    paste_object inter_cubic inter_linear background object_bgr object_alpha
      location object_height_m camera s in
  exists added : store,
    run.2 = s ++ added
    /\ (length added <= 1)%nat
    /\ forall result, run.1 = Ok result ->
                      result = length s /\ length added = 1%nat.
Proof.
  intros run. destruct location as [y_px x_px].
  assert (Hkeep : forall e,
            exists added : store,
              (@Raise loc e, s).2 = s ++ added /\ (length added <= 1)%nat
              /\ forall result, (@Raise loc e, s).1 = Ok result ->
                                result = length s /\ length added = 1%nat).
  { intros e. exists []. cbn. rewrite app_nil_r.
    split; [reflexivity|]. split; [lia|]. discriminate. }
  assert (Hcopy : forall e (x : image (chan3 Z)),
            exists added : store,
              (@Raise loc e, s ++ [x]).2 = s ++ added
              /\ (length added <= 1)%nat
              /\ forall result, (@Raise loc e, s ++ [x]).1 = Ok result ->
                                result = length s /\ length added = 1%nat).
  { intros e x. exists [x]. cbn.
    split; [reflexivity|]. split; [lia|]. discriminate. }
  destruct (s !! background) as [bg|] eqn:Hbg.
  - unfold run. rewrite (paste_object_unfold _ _ _ _ bg) by assumption.
    destruct (compute_object_size_px _ _ _ _) as [target_h|e]; [|apply Hkeep].
    destruct (target_h <=? 0); [apply Hkeep|].
    destruct (scaled_width _ _ _) as [target_w|e]; [|apply Hkeep].
    destruct (cv2_resize inter_cubic _ _) as [resized_bgr|e]; [|apply Hkeep].
    destruct (cv2_resize inter_linear _ _) as [resized_alpha|e];
      [|apply Hkeep].
    cbv zeta. destruct (out_of_bounds _ _ _); [apply Hkeep|].
    unfold region.
    destruct (blend _ _ _) as [blended|e]; [|apply Hcopy].
    destruct (assign_slice2 _ _ _ _ _ _) as [out|e]; [|apply Hcopy].
    exists [out]. cbn. split; [reflexivity|]. split; [lia|].
    intros result [= <-]. split; reflexivity.
  - unfold run, paste_object, bind, load. rewrite Hbg. apply Hkeep.
Qed.

(** X5.  The result has the size of the background, and the object stands on
    the anchor row without touching it.  For every call that returns: the
    result has as many rows and columns as the background; every pixel in
    row [y_px] or below is the background's; and the pixel just above the
    anchor, at row [y_px - 1] and column [x_px], is inside the region the
    object was blended into. *)
Theorem object_stands_on_anchor {F : Type} {PF : PyFloat F}
    {G : Type} {N : NpFloat32 G}
    (inter_cubic : image (chan3 Z) -> Z -> Z -> image (chan3 Z))
    (inter_linear : image G -> Z -> Z -> image G)
    (s : store) (background : loc) (bg object_bgr : image (chan3 Z))
    (object_alpha : image G) (y_px x_px : Z) (object_height_m : F)
    (camera : CameraParams F) (h w : nat) (result : loc) :
  s !! background = Some bg ->
  has_shape bg h w ->
  let run :=
    paste_object inter_cubic inter_linear background object_bgr object_alpha
      (y_px, x_px) object_height_m camera s in
  run.1 = Ok result ->
  exists (target_h target_w : Z) (out : image (chan3 Z)),
    compute_object_size_px camera (shape bg).1 y_px object_height_m
    = Ok target_h
    /\ scaled_width (F:=F) (shape object_bgr).2 (shape object_bgr).1 target_h
       = Ok target_w
    /\ run.2 !! result = Some out
    /\ has_shape out h w
    /\ (forall i j, y_px <= Z.of_nat i -> px out i j = px bg i j)
    /\ 1 <= y_px /\ 0 <= x_px
    /\ in_region (region y_px x_px target_w target_h)
         (Z.to_nat (y_px - 1)) (Z.to_nat x_px) = true.
Proof.
  intros Hbg Hshape run Hok. subst run.
  destruct (paste_object_Ok inter_cubic inter_linear s background bg
              object_bgr object_alpha y_px x_px object_height_m camera h w
              Hbg Hshape result Hok)
    as (target_h & target_w & resized_bgr & resized_alpha & blended & out
        & Hsolve & Hpos & Hwidth & Hwpos & Hcubic & Hlinear & Hoob & Hblend
        & -> & Hstore & Hc & Ha & Hout & Hpx).
  exists target_h, target_w, out.
  assert (Hin : ~ (y_px - target_h < 0 \/ y_px > (shape bg).1
                   \/ x_px - target_w / 2 < 0
                   \/ x_px - target_w / 2 + target_w > (shape bg).2)).
  { rewrite <- out_of_bounds_spec. unfold region in Hoob.
    rewrite Hoob. discriminate. }
  assert (Hhalf : 0 <= target_w / 2 < target_w).
  { split; [apply Z.div_pos; lia|]. apply Z.div_lt_upper_bound; lia. }
  split; [assumption|]. split; [assumption|]. split.
  { rewrite Hstore.
    rewrite lookup_app_r, Nat.sub_diag by lia. reflexivity. }
  split.
  { pose proof (paste_object_unfold inter_cubic inter_linear s background bg
                  object_bgr object_alpha y_px x_px object_height_m camera
                  Hbg) as Hrun.
    rewrite Hsolve in Hrun.
    destruct (Z.leb_spec target_h 0) as [|_]; [lia|].
    rewrite Hwidth, Hcubic, Hlinear in Hrun. cbv zeta in Hrun.
    rewrite Hoob in Hrun. unfold region in Hrun. rewrite Hblend in Hrun.
    destruct (assign_slice2 _ _ _ _ _ _) as [out'|e] eqn:Ea.
    - rewrite Hrun in Hstore. cbn [snd] in Hstore.
      apply app_inv_head in Hstore. injection Hstore as ->.
      eapply assign_slice2_shape; eassumption.
    - rewrite Hrun in Hok. discriminate. }
  split.
  { intros i j Hi. rewrite Hout. unfold region, in_region.
    destruct (Z.ltb_spec (Z.of_nat i) y_px); [lia|].
    now rewrite andb_false_r. }
  split; [lia|]. split; [lia|].
  unfold region, in_region. rewrite !Z2Nat.id by lia.
  destruct (Z.leb_spec (y_px - target_h) (y_px - 1)); [|lia].
  destruct (Z.ltb_spec (y_px - 1) y_px); [|lia].
  destruct (Z.leb_spec (x_px - target_w / 2) x_px); [|lia].
  destruct (Z.ltb_spec x_px (x_px - target_w / 2 + target_w)); [|lia].
  reflexivity.
Qed.

Lemma object_stands_on_anchor_witness :
  exists (target_h target_w : Z) (out : image (chan3 Z)),
    (paste_object (F:=Q) (G:=Q) nearest nearest 0%nat sprite sprite_alpha_q
       (32, 4) (1 # 2)%Q main_camera [scene]).2 !! 1%nat = Some out
    /\ has_shape out 48 8
    /\ (forall i j, 32 <= Z.of_nat i -> px out i j = px scene i j)
    /\ in_region (region 32 4 target_w target_h) 31 4 = true.
Proof.
  destruct (object_stands_on_anchor (F:=Q) (G:=Q) nearest nearest [scene]
              0%nat scene sprite sprite_alpha_q 32 4 (1 # 2)%Q main_camera
              48 8 1%nat)
    as (target_h & target_w & out & _ & _ & Hstore & Hshape & Hrows & _ & _
        & Hin).
  - reflexivity.
  - apply has_shape_replicate.
  - vm_compute. reflexivity.
  - exists target_h, target_w, out.
    split; [exact Hstore|]. split; [exact Hshape|].
    split; [exact Hrows|exact Hin].
Defined.

(** Objects higher than wide, of up to 512 rows, at a height of one
    pixel. *)
Lemma narrow_table :
  forall_range 511 2 (fun orig_h =>
    forall_range (Z.to_pos (orig_h - 1)) 1 (fun orig_w =>
      narrow_ok orig_h orig_w))
  = true.
Proof. vm_compute. reflexivity. Qed.

Lemma binary64_narrow (orig_w orig_h : Z) :
  1 <= orig_w -> orig_w < orig_h -> orig_h <= 512 ->
  scaled_width (F:=float) orig_w orig_h 1 = Ok 0.
Proof.
  intros Hw Hlt Hh.
  assert (Rh : 2 <= orig_h < 2 + Z.pos 511) by lia.
  assert (Rw : 1 <= orig_w < 1 + Z.pos (Z.to_pos (orig_h - 1)))
    by (rewrite Z2Pos.id; lia).
  pose proof (forall_range_spec _ _ _
                (forall_range_spec _ _ _ narrow_table _ Rh) _ Rw) as Hok.
  clear Rh Rw. unfold narrow_ok in Hok.
  rewrite <- scaled_width_quick in Hok.
  destruct (scaled_width (F:=float) orig_w orig_h 1) as [z|e];
    [|discriminate].
  apply Z.eqb_eq in Hok. now subst z.
Qed.

(** X6.  A width that is not positive.  For every float arithmetic: when
    the solver returns a positive height and the scaled width comes out
    zero or negative, [paste_object] ends in [cv2.error], raised by
    [cv2.resize], with the store as it was; the bounds are not looked at.
    In binary64 the width is 0 for every object higher than wide, of up to
    512 rows, that the solver gives a height of one pixel. *)
Theorem narrow_object_raises :
  (forall (F : Type) (PF : PyFloat F) (G : Type) (N : NpFloat32 G)
          (inter_cubic : image (chan3 Z) -> Z -> Z -> image (chan3 Z))
          (inter_linear : image G -> Z -> Z -> image G)
          (s : store) (background : loc) (bg object_bgr : image (chan3 Z))
          (object_alpha : image G) (y_px x_px : Z) (object_height_m : F)
          (camera : CameraParams F) (target_h target_w : Z),
     s !! background = Some bg ->
     compute_object_size_px camera (shape bg).1 y_px object_height_m
     = Ok target_h ->
     0 < target_h ->
     scaled_width (F:=F) (shape object_bgr).2 (shape object_bgr).1 target_h
     = Ok target_w ->
     target_w <= 0 ->
     paste_object inter_cubic inter_linear background object_bgr
       object_alpha (y_px, x_px) object_height_m camera s
     = (Raise cv2_error, s))
  /\ (forall orig_w orig_h : Z,
        1 <= orig_w -> orig_w < orig_h -> orig_h <= 512 ->
        scaled_width (F:=float) orig_w orig_h 1 = Ok 0).
Proof.
  split.
  - intros F PF G N inter_cubic inter_linear s background bg object_bgr
      object_alpha y_px x_px object_height_m camera target_h target_w
      Hbg Hsolve Hpos Hwidth Hw.
    rewrite (paste_object_unfold _ _ _ _ bg) by assumption.
    rewrite Hsolve.
    destruct (Z.leb_spec target_h 0) as [|_]; [lia|].
    rewrite Hwidth.
    now rewrite (cv2_resize_empty inter_cubic object_bgr target_w target_h).
  - exact binary64_narrow.
Qed.

Lemma narrow_object_raises_witness :
  paste_object (F:=float) (G:=spec_float) nearest nearest 0%nat thin_sprite
    thin_alpha_b32 (28, 4) 0.5%float main_camera [scene]
  = (Raise cv2_error, [scene]).
Proof.
  destruct narrow_object_raises as [Hpaste Hwidth].
  apply (Hpaste _ _ _ _ _ _ _ _ scene _ _ _ _ _ _ 1 0).
  - reflexivity.
  - vm_compute. reflexivity.
  - lia.
  - apply Hwidth; vm_compute; first [reflexivity | discriminate].
  - lia.
Defined.

(** X7.  An object without rows.  For any float arithmetic: when the solver
    returns a positive height and the object array has no rows,
    [paste_object] ends in the [ZeroDivisionError] of [orig_w / orig_h], not
    in a [ValueError], and the store is as it was. *)
Theorem empty_object_raises {F : Type} {PF : PyFloat F}
    {G : Type} {N : NpFloat32 G}
    (inter_cubic : image (chan3 Z) -> Z -> Z -> image (chan3 Z))
    (inter_linear : image G -> Z -> Z -> image G)
    (s : store) (background : loc) (bg : image (chan3 Z))
    (object_alpha : image G) (y_px x_px : Z) (object_height_m : F)
    (camera : CameraParams F) (target_h : Z) :
  s !! background = Some bg ->
  compute_object_size_px camera (shape bg).1 y_px object_height_m
  = Ok target_h ->
  0 < target_h ->
  paste_object inter_cubic inter_linear background [] object_alpha
    (y_px, x_px) object_height_m camera s
  = (Raise ZeroDivisionError, s).
Proof.
  intros Hbg Hsolve Hpos.
  rewrite (paste_object_unfold _ _ _ _ bg) by assumption.
  rewrite Hsolve. destruct (Z.leb_spec target_h 0); [lia|].
  reflexivity.
Qed.

Lemma empty_object_raises_witness :
  paste_object (F:=Q) (G:=Q) nearest nearest 0%nat [] sprite_alpha_q
    (32, 4) (1 # 2)%Q main_camera [scene]
  = (Raise ZeroDivisionError, [scene]).
Proof.
  apply (empty_object_raises (F:=Q) (G:=Q) nearest nearest [scene] 0%nat
           scene sprite_alpha_q 32 4 (1 # 2)%Q main_camera 2);
    vm_compute; reflexivity.
Defined.

(** * When a call returns *)

Lemma has_shape_same_shape {A B} (a : image A) (b : image B) (h w : nat) :
  has_shape a h w -> has_shape b h w -> same_shape a b = true.
Proof.
  intros [Hah Haw] [Hbh Hbw]. unfold same_shape. apply bool_decide_eq_true.
  apply list_eq. intros i. rewrite !list_lookup_fmap.
  destruct (a !! i) as [ra|] eqn:Ea; destruct (b !! i) as [rb|] eqn:Eb; cbn.
  - now rewrite (Haw _ _ Ea), (Hbw _ _ Eb).
  - apply lookup_lt_Some in Ea. apply lookup_ge_None in Eb. lia.
  - apply lookup_lt_Some in Eb. apply lookup_ge_None in Ea. lia.
  - reflexivity.
Qed.

Lemma elementwise_shapes {A B C} (f : A -> B -> C) (a : image A)
    (b : image B) (h w : nat) :
  has_shape a h w -> has_shape b h w ->
  exists c, elementwise f a b = Ok c /\ has_shape c h w.
Proof.
  intros Ha Hb. unfold elementwise.
  rewrite (has_shape_same_shape a b h w) by assumption.
  eexists. split; [reflexivity|]. now apply has_shape_zip_with.
Qed.

Lemma blend_shapes {G} `{NpFloat32 G} (resized_bgr : image (chan3 Z))
    (resized_alpha : image G) (roi : image (chan3 Z)) (h w : nat) :
  has_shape resized_bgr h w -> has_shape resized_alpha h w ->
  has_shape roi h w ->
  exists blended,
    blend resized_bgr resized_alpha roi = Ok blended
    /\ has_shape blended h w.
Proof.
  intros Hc Ha Hr. unfold blend.
  destruct (elementwise_shapes (zip3 f32_mul) (astype_float32 resized_bgr)
              (dstack3 resized_alpha) h w) as (fg & -> & Hfg);
    [now apply has_shape_fmap..|]. cbn [res_bind].
  destruct (elementwise_shapes (zip3 f32_mul) (astype_float32 roi)
              (one_minus (dstack3 resized_alpha)) h w) as (bg & -> & Hbg);
    [now repeat apply has_shape_fmap..|]. cbn [res_bind].
  destruct (elementwise_shapes (zip3 f32_add) fg bg h w) as (sum & -> & Hsum);
    [assumption..|]. cbn [res_bind].
  eexists. split; [reflexivity|]. now apply has_shape_fmap.
Qed.

(** X9.  When [paste_object] returns.  On a rectangular background, with
    interpolations that give arrays of the size asked for when the object
    and its mask are not empty, the call returns exactly when the solver
    returns a positive height, the scaled width is computed, both
    [cv2.resize] calls succeed and the rectangle lies within the background:
    the blend and the assignment to the region never fail.  And a call that
    raises leaves the store as it was, with no array added. *)
Theorem paste_object_returns_iff {F : Type} {PF : PyFloat F}
    {G : Type} {N : NpFloat32 G}
    (inter_cubic : image (chan3 Z) -> Z -> Z -> image (chan3 Z))
    (inter_linear : image G -> Z -> Z -> image G)
    (s : store) (background : loc) (bg object_bgr : image (chan3 Z))
    (object_alpha : image G) (y_px x_px : Z) (object_height_m : F)
    (camera : CameraParams F) (h w : nat) :
  s !! background = Some bg ->
  has_shape bg h w ->
  (forall tw th, 0 < tw -> 0 < th ->
     0 < (shape object_bgr).1 -> 0 < (shape object_bgr).2 ->
     has_shape (inter_cubic object_bgr tw th) (Z.to_nat th) (Z.to_nat tw)) ->
  (forall tw th, 0 < tw -> 0 < th ->
     0 < (shape object_alpha).1 -> 0 < (shape object_alpha).2 ->
     has_shape (inter_linear object_alpha tw th) (Z.to_nat th)
       (Z.to_nat tw)) ->
  let run :=
    paste_object inter_cubic inter_linear background object_bgr object_alpha
      (y_px, x_px) object_height_m camera s in
  ((exists result, run.1 = Ok result)
   <-> exists (target_h target_w : Z) (resized_bgr : image (chan3 Z))
              (resized_alpha : image G),
         compute_object_size_px camera (shape bg).1 y_px object_height_m
         = Ok target_h
         /\ 0 < target_h
         /\ scaled_width (F:=F) (shape object_bgr).2 (shape object_bgr).1
              target_h
            = Ok target_w
         /\ cv2_resize inter_cubic object_bgr (target_w, target_h)
            = Ok resized_bgr
         /\ cv2_resize inter_linear object_alpha (target_w, target_h)
            = Ok resized_alpha
         /\ out_of_bounds (region y_px x_px target_w target_h)
              (shape bg).1 (shape bg).2 = false)
  /\ forall e, run.1 = Raise e -> run.2 = s.
Proof.
  intros Hs Hbg Hcubic Hlinear run. subst run.
  rewrite (paste_object_unfold _ _ _ _ bg) by assumption.
  destruct (compute_object_size_px _ _ _ _) as [target_h|e].
  2:{ split; [|reflexivity]. split; [intros [? [=]]|].
      intros (? & ? & ? & ? & [=] & _). }
  destruct (Z.leb_spec target_h 0) as [Hle|Hpos].
  { split; [|reflexivity]. split; [intros [? [=]]|].
    intros (? & ? & ? & ? & [= <-] & ? & _). lia. }
  destruct (scaled_width _ _ _) as [target_w|e] eqn:Ew.
  2:{ split; [|reflexivity]. split; [intros [? [=]]|].
      intros (? & ? & ? & ? & [= <-] & _ & E & _).
      rewrite Ew in E. discriminate. }
  destruct (cv2_resize inter_cubic _ _) as [resized_bgr|e] eqn:Ec.
  2:{ split; [|reflexivity]. split; [intros [? [=]]|].
      intros (? & ? & ? & ? & [= <-] & _ & E' & E & _).
      rewrite Ew in E'. injection E' as <-. rewrite Ec in E. discriminate. }
  destruct (cv2_resize inter_linear _ _) as [resized_alpha|e] eqn:Ea.
  2:{ split; [|reflexivity]. split; [intros [? [=]]|].
      intros (? & ? & ? & ? & [= <-] & _ & E' & _ & E & _).
      rewrite Ew in E'. injection E' as <-. rewrite Ea in E. discriminate. }
  cbv zeta.
  destruct (out_of_bounds _ _ _) eqn:Eb.
  { split; [|reflexivity]. split; [intros [? [=]]|].
    intros (? & ? & ? & ? & [= <-] & _ & E' & _ & _ & E).
    rewrite Ew in E'. injection E' as <-. rewrite Eb in E. discriminate. }
  unfold region in Eb |- *.
  destruct (cv2_resize_Ok _ _ _ _ _ Ec) as (Hw & _ & Hoh & How & ->).
  destruct (cv2_resize_Ok _ _ _ _ _ Ea) as (_ & _ & Hah & Haw & ->).
  apply not_true_iff_false in Eb. rewrite out_of_bounds_spec in Eb.
  assert (Hh : (0 < h)%nat).
  { destruct (shape_of_has_shape bg h w Hbg) as [Hrows _]. lia. }
  rewrite (has_shape_hd bg h w Hbg Hh) in Eb |- *. cbn [fst snd] in Eb |- *.
  set (top := y_px - target_h) in *.
  set (left_ := x_px - target_w / 2) in *.
  assert (Hroi : has_shape (slice2 top y_px left_ (left_ + target_w) bg)
                   (Z.to_nat target_h) (Z.to_nat target_w)).
  { replace target_h with (y_px - top) at 1 by (unfold top; lia).
    replace target_w with (left_ + target_w - left_) at 2 by lia.
    apply (has_shape_slice2 bg h w); [assumption|lia..]. }
  destruct (blend_shapes (inter_cubic object_bgr target_w target_h)
              (inter_linear object_alpha target_w target_h)
              (slice2 top y_px left_ (left_ + target_w) bg)
              (Z.to_nat target_h) (Z.to_nat target_w))
    as (blended & -> & Hblended); [auto..|].
  unfold assign_slice2.
  rewrite (has_shape_same_shape _ blended (Z.to_nat target_h)
             (Z.to_nat target_w)) by assumption.
  split; [|discriminate]. split; [|eauto].
  intros _. exists target_h, target_w. do 2 eexists.
  split; [reflexivity|]. split; [assumption|]. split; [exact Ew|].
  split; [exact Ec|]. split; [exact Ea|].
  apply not_true_iff_false. rewrite out_of_bounds_spec. exact Eb.
Qed.

Lemma omap_total {A B} (f : A -> option B) (l : list A) :
  (forall x, x ∈ l -> is_Some (f x)) ->
  Forall2 (fun x y => f x = Some y) l (omap f l).
Proof.
  induction l as [|x l IH]; intros Hall; cbn; [constructor|].
  destruct (Hall x) as [y Hy]; [apply elem_of_cons; auto|].
  rewrite Hy. constructor; [assumption|].
  apply IH. intros z Hz. apply Hall, elem_of_cons. auto.
Qed.

(** On a source of [h] rows and [w] columns, neither zero, [nearest]
    gives the size it is asked for. *)
Lemma has_shape_nearest {A} (src : image A) (h w : nat) (tw th : Z) :
  has_shape src h w -> (0 < h)%nat -> (0 < w)%nat -> 0 < tw -> 0 < th ->
  has_shape (nearest src tw th) (Z.to_nat th) (Z.to_nat tw).
Proof.
  intros Hsrc Hh Hw Htw Hth. unfold nearest.
  rewrite (has_shape_hd src h w Hsrc Hh). destruct Hsrc as [Hlen Hrows].
  set (col := fun row : list A =>
         fun j : nat => row !! Z.to_nat (Z.of_nat j * Z.of_nat w / tw)).
  set (line := fun i : nat =>
         row ← src !! Z.to_nat (Z.of_nat i * Z.of_nat h / th);
         Some (omap (col row) (seq 0 (Z.to_nat tw)))).
  assert (Hdiv : forall k n t, 0 < t -> (0 < n)%nat -> (k < Z.to_nat t)%nat ->
            (Z.to_nat (Z.of_nat k * Z.of_nat n / t) < n)%nat).
  { intros k n t Ht Hn Hk.
    assert (Z.of_nat k * Z.of_nat n / t < Z.of_nat n); [|lia].
    apply Z.div_lt_upper_bound; [lia|]. nia. }
  assert (Hline : forall i, i ∈ seq 0 (Z.to_nat th) ->
            exists row, src !! Z.to_nat (Z.of_nat i * Z.of_nat h / th)
                        = Some row
                        /\ line i = Some (omap (col row) (seq 0 (Z.to_nat tw)))
                        /\ length (omap (col row) (seq 0 (Z.to_nat tw)))
                           = Z.to_nat tw).
  { intros i Hi. apply elem_of_seq in Hi.
    destruct (lookup_lt_is_Some_2 src
                (Z.to_nat (Z.of_nat i * Z.of_nat h / th))) as [row Hrow].
    { rewrite Hlen. apply Hdiv; lia. }
    exists row. split; [assumption|]. split.
    { unfold line. now rewrite Hrow. }
    assert (Hcols : Forall2 (fun x y => col row x = Some y)
                      (seq 0 (Z.to_nat tw))
                      (omap (col row) (seq 0 (Z.to_nat tw)))).
    { apply omap_total. intros j Hj. apply elem_of_seq in Hj.
      apply lookup_lt_is_Some_2. rewrite (Hrows _ _ Hrow).
      apply Hdiv; lia. }
    apply Forall2_length in Hcols. now rewrite length_seq in Hcols. }
  assert (Hall : Forall2 (fun x y => line x = Some y)
                   (seq 0 (Z.to_nat th)) (omap line (seq 0 (Z.to_nat th)))).
  { apply omap_total. intros i Hi.
    destruct (Hline i Hi) as (row & _ & -> & _). eauto. }
  split.
  - apply Forall2_length in Hall. now rewrite length_seq in Hall.
  - intros i r Hr.
    destruct (Forall2_lookup_r _ _ _ _ _ Hall Hr) as (k & Hk & Hkr).
    destruct (Hline k) as (row & _ & E & Hlenr);
      [eapply list_elem_of_lookup_2; eassumption|].
    rewrite E in Hkr. injection Hkr as <-. exact Hlenr.
Qed.

Lemma paste_object_returns_iff_witness :
  exists result : loc,
    (paste_object (F:=Q) (G:=Q) nearest nearest 0%nat sprite sprite_alpha_q
       (32, 4) (1 # 2)%Q main_camera [scene]).1
    = Ok result.
Proof.
  refine (proj2 (proj1 (paste_object_returns_iff (F:=Q) (G:=Q) nearest nearest
                          [scene] 0%nat scene sprite sprite_alpha_q 32 4
                          (1 # 2)%Q main_camera 48 8 _ _ _ _)) _).
  - reflexivity.
  - apply has_shape_replicate.
  - intros tw th Htw Hth _ _. apply (has_shape_nearest sprite 2 2); try lia.
    split; [reflexivity|].
    intros [|[|i]] row; cbn; intros [= <-]; reflexivity.
  - intros tw th Htw Hth _ _.
    apply (has_shape_nearest sprite_alpha_q 2 2); try lia.
    split; [reflexivity|].
    intros [|[|i]] row; cbn; intros [= <-]; reflexivity.
  - exists 2, 2, (nearest sprite 2 2), (nearest sprite_alpha_q 2 2).
    repeat split; vm_compute; reflexivity.
Defined.

(** * Loading *)

Section LoadFacts.
Context {G : Type} `{NpFloat32Div G}.

Lemma px_alpha_channel (rgba : image (list Z)) (i j : nat) :
  px (alpha_channel rgba) i j
  = (fun p : list Z => f32_div (f32_of_u8 (p !!! 3%nat)) (f32_of_u8 255))
    <$> px rgba i j.
Proof. apply px_fmap. Qed.


End LoadFacts.

Lemma list_of_four {A} (p : list A) :
  length p = 4%nat -> exists b g r a, p = [b; g; r; a].
Proof.
  destruct p as [|b [|g [|r [|a [|x p]]]]]; try discriminate. eauto.
Qed.


Lemma sf_eqb_eq (x y : spec_float) : sf_eqb x y = true <-> x = y.
Proof.
  destruct x as [s|s| |s m e], y as [t|t| |t n f]; cbn;
    try (split; [discriminate|intros [=]]);
    try (split; [reflexivity|reflexivity]).
  - rewrite Bool.eqb_true_iff. split; [now intros ->|now intros [= ->]].
  - rewrite Bool.eqb_true_iff. split; [now intros ->|now intros [= ->]].
  - rewrite !andb_true_iff, Bool.eqb_true_iff, Pos.eqb_eq, Z.eqb_eq.
    split; [now intros [[-> ->] ->]|now intros [= -> -> ->]].
Qed.

Lemma rgba_file_planes : u8_planes 4 rgba_file 2 2.
Proof.
  split.
  - split; [reflexivity|].
    intros [|[|i]] row; cbn; intros [= <-]; reflexivity.
  - intros [|[|i]] [|[|j]] p; cbn; intros [= <-];
      (split; [reflexivity|]);
      repeat (apply Forall_cons; split; [unfold is_u8; lia|]);
      apply Forall_nil; exact I.
Qed.


(** X12.  The mask of a loaded file in binary32.  For a file that decodes to
    [h] x [w] pixels of four uint8 values, [load_rgba] in IEEE binary32
    returns a mask of [h] rows and [w] columns whose value at each pixel
    lies between 0 and 1; it is +0 exactly when the fourth value of the
    pixel is 0 and 1 exactly when it is 255.  In the blend the first lets
    every background value through unchanged and the second every object
    value. *)
Theorem load_rgba_mask_binary32 (imread : String.string -> option decoded)
    (path : String.string) (rgba : image (list Z)) (h w : nat) :
  imread path = Some (Planes 4 rgba) ->
  u8_planes 4 rgba h w ->
  exists (bgr : image (chan3 Z)) (alpha : image spec_float),
    load_rgba (G:=spec_float) imread path = inr (bgr, alpha)
    /\ has_shape alpha h w
    /\ forall i j p,
         px rgba i j = Some p ->
         exists m : spec_float,
           px alpha i j = Some m
           /\ SFleb (S754_zero false) m = true
           /\ SFleb m (b32 1 0) = true
           /\ (m = S754_zero false <-> p !!! 3%nat = 0)
           /\ (m = b32 1 0 <-> p !!! 3%nat = 255)
           /\ forall c b, is_u8 c -> is_u8 b ->
                (p !!! 3%nat = 0 -> blend_channel c m b = b)
                /\ (p !!! 3%nat = 255 -> blend_channel c m b = c).
Proof.
  intros Hread [Hshape Hpx].
  exists (colour_channels rgba), (alpha_channel rgba).
  split; [unfold load_rgba; now rewrite Hread|].
  split; [now apply has_shape_fmap|].
  intros i j p Ep. destruct (Hpx _ _ _ Ep) as [Hlen Hu8].
  destruct (list_of_four p Hlen) as (b0 & g0 & r0 & a & ->).
  assert (Ha : is_u8 a).
  { do 3 apply Forall_cons in Hu8 as [_ Hu8].
    now apply Forall_cons in Hu8 as [Ha _]. }
  change ([b0; g0; r0; a] !!! 3%nat) with a.
  set (mask := fun a : Z =>
         f32_div (G:=spec_float) (f32_of_u8 a) (f32_of_u8 255)).
  exists (mask a).
  split; [rewrite px_alpha_channel, Ep; reflexivity|].
  set (test := fun a : Z =>
         SFleb (S754_zero false) (mask a) && SFleb (mask a) (b32 1 0)
         && Bool.eqb (sf_eqb (mask a) (S754_zero false)) (a =? 0)
         && Bool.eqb (sf_eqb (mask a) (b32 1 0)) (a =? 255)).
  assert (Hall : forallb test (seqZ 0 256) = true)
    by (vm_compute; reflexivity).
  rewrite forallb_forall in Hall.
  assert (Ht : test a = true).
  { apply Hall. apply list_elem_of_In, elem_of_seqZ. unfold is_u8 in Ha. lia. }
  unfold test in Ht. rewrite !andb_true_iff, !Bool.eqb_true_iff in Ht.
  destruct Ht as [[[H0 H1] Hzero] Hone].
  assert (Ez : mask a = S754_zero false <-> a = 0).
  { rewrite <- sf_eqb_eq, <- Z.eqb_eq. now rewrite Hzero. }
  assert (Eo : mask a = b32 1 0 <-> a = 255).
  { rewrite <- sf_eqb_eq, <- Z.eqb_eq. now rewrite Hone. }
  split; [exact H0|]. split; [exact H1|]. split; [exact Ez|].
  split; [exact Eo|]. intros c b Hc Hb. split; intros E.
  - apply blend_transparent; [|assumption..]. left. now apply Ez.
  - apply blend_opaque; [|assumption..]. now apply Eo.
Qed.

Lemma load_rgba_mask_binary32_witness :
  exists (bgr : image (chan3 Z)) (alpha : image spec_float),
    load_rgba (G:=spec_float) (fun _ => Some (Planes 4 rgba_file))
      String.EmptyString
    = inr (bgr, alpha)
    /\ has_shape alpha 2 2.
Proof.
  destruct (load_rgba_mask_binary32 (fun _ => Some (Planes 4 rgba_file))
              String.EmptyString rgba_file 2 2 eq_refl rgba_file_planes)
    as (bgr & alpha & E & Hshape & _).
  exists bgr, alpha. split; assumption.
Defined.

(** The file of the examples as [load_rgba] gives it in binary32; the
    mask value of the byte 128 is not one half. *)
Example load_rgba_runs :
  load_rgba (G:=spec_float) (fun _ => Some (Planes 4 rgba_file))
    String.EmptyString
  = inr ([[(1, 2, 3); (4, 5, 6)]; [(7, 8, 9); (200, 201, 202)]],
         [[S754_zero false; b32 1 0];
          [S754_finite false 8421505 (-24); b32 1 0]]).
Proof. vm_compute. reflexivity. Qed.

(** * The positions *)

Lemma str_split_nonempty (sep : Ascii.ascii) (s : String.string) :
  str_split sep s <> [].
Proof.
  destruct s as [|c rest]; cbn; [discriminate|].
  destruct (Ascii.eqb c sep); [discriminate|].
  destruct (str_split sep rest); discriminate.
Qed.

Lemma str_split_one (sep : Ascii.ascii) (s b : String.string) :
  str_split sep s = [b] <-> s = b /\ contains sep s = false.
Proof.
  revert b. induction s as [|c rest IH]; intros b; cbn.
  - split; [intros [= <-]; auto | intros [<- _]; reflexivity].
  - destruct (Ascii.eqb c sep) eqn:E; cbn.
    + split; [intros [= _ Hn]|intros [_ [=]]].
      now apply str_split_nonempty in Hn.
    + destruct (str_split sep rest) as [|piece pieces] eqn:Es.
      * now apply str_split_nonempty in Es.
      * split.
        -- intros [= <- ->]. destruct (proj1 (IH piece) eq_refl) as [-> Hc].
           auto.
        -- intros [<- Hc].
           injection (proj2 (IH rest) (conj eq_refl Hc)) as -> ->.
           reflexivity.
Qed.

Lemma str_split_two (sep : Ascii.ascii) (s a b : String.string) :
  str_split sep s = [a; b]
  <-> s = String.append a (String.String sep b)
      /\ contains sep a = false /\ contains sep b = false.
Proof.
  revert a. induction s as [|c rest IH]; intros a; cbn.
  - split; [discriminate|]. intros [E _]. destruct a; discriminate.
  - destruct (Ascii.eqb_spec c sep) as [->|Hne].
    + split.
      * intros [= <- Hs]. apply str_split_one in Hs as [-> Hc]. auto.
      * intros (E & Ha & Hb). destruct a as [|d a']; cbn in E, Ha.
        -- injection E as ->. f_equal. now apply str_split_one.
        -- injection E as <- _. rewrite Ascii.eqb_refl in Ha. discriminate.
    + destruct (str_split sep rest) as [|piece pieces] eqn:Es;
        [now apply str_split_nonempty in Es|].
      split.
      * intros [= <- ->]. destruct (proj1 (IH piece) eq_refl) as (-> & Ha & Hb).
        cbn. apply Ascii.eqb_neq in Hne. rewrite Hne. auto.
      * intros (E & Ha & Hb). destruct a as [|d a']; cbn in E, Ha.
        -- injection E as -> _. contradiction.
        -- injection E as <- ->. apply orb_false_elim in Ha as [_ Ha].
           injection (proj2 (IH a') (conj eq_refl (conj Ha Hb))) as -> ->.
           reflexivity.
Qed.

(** X13.  The strings that [parse_positions] takes for a position.  The body
    of the [try] gives [(y_px, x_px)] exactly for a string [y_str + "," +
    x_str] in which neither part holds a comma and [int] reads [y_px] from
    the first part and [x_px] from the second; so a string with no comma or
    with two is refused, whatever its parts are. *)
Theorem parse_position_accepts (py_int : String.string -> option Z)
    (s : String.string) (y_px x_px : Z) :
  parse_position py_int s = Some (y_px, x_px)
  <-> exists y_str x_str : String.string,
        s = String.append y_str (String.String ","%char x_str)
        /\ contains ","%char y_str = false
        /\ contains ","%char x_str = false
        /\ py_int y_str = Some y_px
        /\ py_int x_str = Some x_px.
Proof.
  unfold parse_position. split.
  - destruct (str_split ","%char s) as [|y_str [|x_str [|]]] eqn:Es;
      try discriminate.
    apply str_split_two in Es as (-> & Hy & Hx).
    destruct (py_int y_str) as [y|] eqn:Ey; [|discriminate].
    destruct (py_int x_str) as [x|] eqn:Ex; [|discriminate].
    cbn. intros [= <- <-]. exists y_str, x_str. auto.
  - intros (y_str & x_str & E & Hy & Hx & Ey & Ex).
    rewrite (proj2 (str_split_two _ _ _ _) (conj E (conj Hy Hx))).
    now rewrite Ey, Ex.
Qed.

Lemma parse_positions_from_app (py_int : String.string -> option Z)
    (positions : list (Z * Z)) (l : list String.string) :
  parse_positions_from py_int positions l
  = match parse_positions_from py_int [] l with
    | inr found => inr (positions ++ found)
    | inl e => inl e
    end.
Proof.
  revert positions. induction l as [|s rest IH]; intros positions; cbn.
  - now rewrite app_nil_r.
  - destruct (parse_position py_int s) as [p|]; [|reflexivity].
    rewrite (IH (positions ++ [p])), (IH [p]).
    destruct (parse_positions_from py_int [] rest); [reflexivity|].
    now rewrite <- app_assoc.
Qed.

(** X14.  All the positions or the first bad string.  [parse_positions]
    returns a list exactly when every string is taken for a position, and
    the list then holds the positions in the order of the strings; otherwise
    it raises the error that names the first string which is not taken,
    however many good strings come before or after it. *)
Theorem parse_positions_all_or_first (py_int : String.string -> option Z)
    (position_strings : list String.string) :
  (forall positions,
     parse_positions py_int position_strings = inr positions
     <-> Forall2 (fun s position => parse_position py_int s = Some position)
           position_strings positions)
  /\ (forall s,
        parse_positions py_int position_strings = inl (ArgumentTypeError s)
        <-> exists before after,
              position_strings = before ++ s :: after
              /\ Forall (fun t => is_Some (parse_position py_int t)) before
              /\ parse_position py_int s = None).
Proof.
  unfold parse_positions.
  induction position_strings as [|t rest [IHr IHl]]; cbn.
  - split.
    + intros positions. split.
      * intros [= <-]. constructor.
      * intros Hf. apply Forall2_nil_inv_l in Hf. now subst.
    + intros s. split; [discriminate|].
      intros (before & after & E & _). now destruct before.
  - destruct (parse_position py_int t) as [p|] eqn:Ep.
    + rewrite parse_positions_from_app. split.
      * intros positions. split.
        -- destruct (parse_positions_from py_int [] rest) as [|found] eqn:Er;
             [discriminate|].
           intros [= <-]. constructor; [assumption|]. now apply IHr.
        -- intros Hf. apply Forall2_cons_inv_l in Hf
             as (q & found & Hq & Hf & ->).
           apply IHr in Hf. rewrite Hf. cbn. congruence.
      * intros s. split.
        -- destruct (parse_positions_from py_int [] rest) as [e|] eqn:Er;
             [|discriminate].
           intros [= ->].
           destruct (proj1 (IHl s) eq_refl) as (before & after & -> & Hb & Hs).
           exists (t :: before), after. split; [reflexivity|].
           split; [|assumption]. constructor; [|assumption].
           rewrite Ep. eauto.
        -- intros (before & after & E & Hb & Hs).
           destruct before as [|t' before]; cbn in E; injection E as <- E.
           ++ congruence.
           ++ apply Forall_cons in Hb as [_ Hb].
              rewrite (proj2 (IHl s)); [reflexivity|].
              exists before, after. auto.
    + split.
      * intros positions. split; [discriminate|].
        intros Hf. apply Forall2_cons_inv_l in Hf as (q & ? & Hq & _).
        congruence.
      * intros s. split.
        -- intros [= <-]. exists [], rest. auto.
        -- intros (before & after & E & Hb & Hs).
           destruct before as [|t' before]; cbn in E; injection E as <- E.
           ++ reflexivity.
           ++ apply Forall_cons in Hb as [[q Hq] _]. congruence.
Qed.

(** * The loop of [main] *)

Section LoopFacts.
Context {F : Type} `{PyFloat F} {G : Type} `{NpFloat32 G}.
Variable inter_cubic : image (chan3 Z) -> Z -> Z -> image (chan3 Z).
Variable inter_linear : image G -> Z -> Z -> image G.
Variable bg_bgr : loc.
Variable obj_bgr : image (chan3 Z).
Variable obj_alpha : image G.
Variable height : F.
Variable bg : image (chan3 Z).
Variable s0 : store.
Hypothesis s0_bg : s0 !! bg_bgr = Some bg.

Abbreviation paste position s :=
  (paste_object inter_cubic inter_linear bg_bgr obj_bgr obj_alpha position
     height main_camera s).
Abbreviation loop i positions s :=
  (main_loop inter_cubic inter_linear bg_bgr obj_bgr obj_alpha height i
     positions s).

(** The outcome of a call depends on the background array, not on what
    else the store holds. *)
Lemma paste_any_store (s : store) (position : Z * Z) :
  s !! bg_bgr = Some bg ->
  (paste position s).2 !! bg_bgr = Some bg
  /\ ((exists out,
         paste position s0 = (Ok (length s0), s0 ++ [out])
         /\ paste position s = (Ok (length s), s ++ [out]))
      \/ (exists e,
            (paste position s0).1 = Raise e
            /\ (paste position s).1 = Raise e)).
Proof.
  intros Hs. destruct position as [y_px x_px].
  assert (Hin : forall x, (s ++ [x]) !! bg_bgr = Some bg).
  { intros x. rewrite lookup_app_l; [assumption|].
    apply lookup_lt_is_Some. eauto. }
  rewrite (paste_object_unfold _ _ s _ bg) by assumption.
  rewrite (paste_object_unfold _ _ s0 _ bg) by assumption.
  destruct (compute_object_size_px _ _ _ _) as [target_h|e];
    [|split; [assumption|right; eauto]].
  destruct (target_h <=? 0); [split; [assumption|right; eauto]|].
  destruct (scaled_width _ _ _) as [target_w|e];
    [|split; [assumption|right; eauto]].
  destruct (cv2_resize inter_cubic _ _) as [resized_bgr|e];
    [|split; [assumption|right; eauto]].
  destruct (cv2_resize inter_linear _ _) as [resized_alpha|e];
    [|split; [assumption|right; eauto]].
  cbv zeta. destruct (out_of_bounds _ _ _);
    [split; [assumption|right; eauto]|].
  unfold region.
  destruct (blend _ _ _) as [blended|e];
    [|split; [apply Hin|right; eauto]].
  destruct (assign_slice2 _ _ _ _ _ _) as [out|e];
    [|split; [apply Hin|right; eauto]].
  split; [apply Hin|left; eauto].
Qed.

(** One turn of the loop, told by the call on the first store. *)
Lemma main_loop_step (i : nat) (position : Z * Z) (rest : list (Z * Z))
    (s : store) :
  s !! bg_bgr = Some bg ->
  exists s1,
    s1 !! bg_bgr = Some bg
    /\ ((exists out,
           paste position s0 = (Ok (length s0), s0 ++ [out])
           /\ loop i (position :: rest) s
              = (imwrite i (cvtColor_BGR2RGB out) :: Wrote i
                   :: (loop (S i) rest s1).1.1,
                 (loop (S i) rest s1).1.2, (loop (S i) rest s1).2))
        \/ (exists m,
              (paste position s0).1 = Raise (ValueError m)
              /\ loop i (position :: rest) s
                 = (Skipping position m :: (loop (S i) rest s1).1.1,
                    (loop (S i) rest s1).1.2, (loop (S i) rest s1).2))
        \/ (exists e,
              (paste position s0).1 = Raise e
              /\ (forall m, e <> ValueError m)
              /\ loop i (position :: rest) s = ([], Some e, s1))).
Proof.
  intros Hs. destruct (paste_any_store s position Hs) as [Hkeep Hsame].
  exists (paste position s).2. split; [assumption|].
  cbn [main_loop].
  destruct Hsame as [(out & E0 & E)|(e & E0 & E)].
  - left. exists out. split; [assumption|]. rewrite E. cbn [fst snd].
    rewrite lookup_app_r, Nat.sub_diag by lia. cbn [lookup list_lookup].
    destruct (loop (S i) rest (s ++ [out])) as [[o e] s2]. reflexivity.
  - destruct (paste position s) as [[r|e'] s1] eqn:Ep; cbn in E;
      [discriminate|]. injection E as ->. cbn [snd].
    destruct e as [| |m| |].
    + right; right. eexists. split; [eassumption|].
      split; [discriminate|reflexivity].
    + right; right. eexists. split; [eassumption|].
      split; [discriminate|reflexivity].
    + right; left. exists m. split; [assumption|].
      destruct (loop (S i) rest s1) as [[o e] s2]. reflexivity.
    + right; right. eexists. split; [eassumption|].
      split; [discriminate|reflexivity].
    + right; right. eexists. split; [eassumption|].
      split; [discriminate|reflexivity].
Qed.

(** Every line of the output is accounted for by a call on the first
    store. *)
Lemma main_loop_sound (positions : list (Z * Z)) :
  forall (i0 : nat) (s : store),
    s !! bg_bgr = Some bg ->
    (loop i0 positions s).2 !! bg_bgr = Some bg
    /\ forall o, o ∈ (loop i0 positions s).1.1 ->
         match o with
         | imwrite i a =>
             exists position out,
               (i0 <= i)%nat
               /\ positions !! (i - i0)%nat = Some position
               /\ paste position s0 = (Ok (length s0), s0 ++ [out])
               /\ a = cvtColor_BGR2RGB out
         | Wrote i =>
             exists position out,
               (i0 <= i)%nat
               /\ positions !! (i - i0)%nat = Some position
               /\ paste position s0 = (Ok (length s0), s0 ++ [out])
         | Skipping position m =>
             exists j,
               positions !! j = Some position
               /\ (paste position s0).1 = Raise (ValueError m)
         end.
Proof.
  induction positions as [|position rest IH]; intros i0 s Hs.
  - cbn. split; [assumption|]. intros o Ho. now apply elem_of_nil in Ho.
  - destruct (main_loop_step i0 position rest s Hs)
      as (s1 & Hs1 & [(out & E0 & ->)|[(m & E0 & ->)|(e & E0 & He & ->)]]);
      cbn [fst snd]; destruct (IH (S i0) s1 Hs1) as [Hkeep Hout].
    + split; [assumption|]. intros o Ho.
      apply elem_of_cons in Ho as [->|Ho];
        [|apply elem_of_cons in Ho as [->|Ho]].
      * exists position, out. rewrite Nat.sub_diag. auto.
      * exists position, out. rewrite Nat.sub_diag. auto.
      * specialize (Hout o Ho). destruct o as [q m|i a|i].
        -- destruct Hout as (j & Hj & Hq). exists (S j). auto.
        -- destruct Hout as (q & out' & Hi & Hq & Hp & ->).
           exists q, out'. split; [lia|].
           replace (i - i0)%nat with (S (i - S i0)) by lia. auto.
        -- destruct Hout as (q & out' & Hi & Hq & Hp).
           exists q, out'. split; [lia|].
           replace (i - i0)%nat with (S (i - S i0)) by lia. auto.
    + split; [assumption|]. intros o Ho.
      apply elem_of_cons in Ho as [->|Ho].
      * exists 0%nat. auto.
      * specialize (Hout o Ho). destruct o as [q m'|i a|i].
        -- destruct Hout as (j & Hj & Hq). exists (S j). auto.
        -- destruct Hout as (q & out' & Hi & Hq & Hp & ->).
           exists q, out'. split; [lia|].
           replace (i - i0)%nat with (S (i - S i0)) by lia. auto.
        -- destruct Hout as (q & out' & Hi & Hq & Hp).
           exists q, out'. split; [lia|].
           replace (i - i0)%nat with (S (i - S i0)) by lia. auto.
    + split; [assumption|]. intros o Ho. now apply elem_of_nil in Ho.
Qed.

(** A position that only [ValueError]s and returns come before is dealt
    with: written under its index if its call returns, reported if the
    call raises a [ValueError]. *)
Lemma main_loop_handles (positions : list (Z * Z)) :
  forall (i0 : nat) (s : store) (j : nat) (q : Z * Z),
    s !! bg_bgr = Some bg ->
    positions !! j = Some q ->
    (forall j' q' e, (j' < j)%nat -> positions !! j' = Some q' ->
                     (paste q' s0).1 = Raise e -> exists m, e = ValueError m) ->
    (forall out, paste q s0 = (Ok (length s0), s0 ++ [out]) ->
                 imwrite (i0 + j) (cvtColor_BGR2RGB out)
                   ∈ (loop i0 positions s).1.1
                 /\ Wrote (i0 + j) ∈ (loop i0 positions s).1.1)
    /\ (forall m, (paste q s0).1 = Raise (ValueError m) ->
                  Skipping q m ∈ (loop i0 positions s).1.1).
Proof.
  induction positions as [|position rest IH]; intros i0 s j q Hs Hq Hbefore;
    [discriminate|].
  destruct j as [|j].
  - injection Hq as ->.
    destruct (main_loop_step i0 q rest s Hs)
      as (s1 & Hs1 & [(out & E0 & ->)|[(m & E0 & ->)|(e & E0 & He & ->)]]);
      cbn [fst snd]; rewrite Nat.add_0_r.
    + split.
      * intros out' E. rewrite E0 in E. injection E as E.
        apply app_inv_head in E. injection E as <-.
        split; [apply elem_of_cons; auto|].
        apply elem_of_cons; right. apply elem_of_cons; auto.
      * intros m E. rewrite E0 in E. discriminate.
    + split.
      * intros out' E. rewrite E in E0. discriminate.
      * intros m' E. rewrite E0 in E. injection E as <-.
        apply elem_of_cons; auto.
    + split.
      * intros out' E. rewrite E in E0. discriminate.
      * intros m' E. rewrite E0 in E. injection E as ->. now destruct (He m').
  - cbn in Hq.
    assert (Hrest : forall j' q' e, (j' < j)%nat -> rest !! j' = Some q' ->
              (paste q' s0).1 = Raise e -> exists m, e = ValueError m).
    { intros j' q' e Hj'. apply (Hbefore (S j') q' e). lia. }
    destruct (main_loop_step i0 position rest s Hs)
      as (s1 & Hs1 & [(out & E0 & ->)|[(m & E0 & ->)|(e & E0 & He & ->)]]);
      cbn [fst snd].
    + destruct (IH (S i0) s1 j q Hs1 Hq Hrest) as [Hok Hskip].
      replace (i0 + S j)%nat with (S i0 + j)%nat by lia. split.
      * intros out' E. destruct (Hok out' E).
        split; do 2 (apply elem_of_cons; right); assumption.
      * intros m E. do 2 (apply elem_of_cons; right). auto.
    + destruct (IH (S i0) s1 j q Hs1 Hq Hrest) as [Hok Hskip].
      replace (i0 + S j)%nat with (S i0 + j)%nat by lia. split.
      * intros out' E. destruct (Hok out' E).
        split; apply elem_of_cons; right; assumption.
      * intros m' E. apply elem_of_cons; right. auto.
    + destruct (Hbefore 0%nat position e) as [m ->];
        [lia|reflexivity|assumption|]. now destruct (He m).
Qed.

(** The first exception that is not a [ValueError] ends the loop, and
    nothing of the output is about its index or a later one. *)
Lemma main_loop_ends (positions : list (Z * Z)) :
  forall (i0 : nat) (s : store) (k : nat) (q : Z * Z) (e : exn),
    s !! bg_bgr = Some bg ->
    positions !! k = Some q ->
    (paste q s0).1 = Raise e ->
    (forall m, e <> ValueError m) ->
    (forall j' q' e', (j' < k)%nat -> positions !! j' = Some q' ->
                      (paste q' s0).1 = Raise e' ->
                      exists m, e' = ValueError m) ->
    (loop i0 positions s).1.2 = Some e
    /\ forall o i, o ∈ (loop i0 positions s).1.1 ->
                   output_index o = Some i -> (i < i0 + k)%nat.
Proof.
  induction positions as [|position rest IH];
    intros i0 s k q e Hs Hq Hraise He Hbefore; [discriminate|].
  destruct k as [|k].
  - injection Hq as ->.
    destruct (main_loop_step i0 q rest s Hs)
      as (s1 & Hs1 & [(out & E0 & ->)|[(m & E0 & ->)|(e' & E0 & He' & ->)]]);
      cbn [fst snd].
    + rewrite E0 in Hraise. discriminate.
    + rewrite E0 in Hraise. injection Hraise as <-. now destruct (He m).
    + rewrite E0 in Hraise. injection Hraise as <-.
      split; [reflexivity|]. intros o i Ho. now apply elem_of_nil in Ho.
  - cbn in Hq.
    assert (Hrest : forall j' q' e', (j' < k)%nat -> rest !! j' = Some q' ->
              (paste q' s0).1 = Raise e' -> exists m, e' = ValueError m).
    { intros j' q' e' Hj'. apply (Hbefore (S j') q' e'). lia. }
    destruct (main_loop_step i0 position rest s Hs)
      as (s1 & Hs1 & [(out & E0 & ->)|[(m & E0 & ->)|(e' & E0 & He' & ->)]]);
      cbn [fst snd].
    + destruct (IH (S i0) s1 k q e Hs1 Hq Hraise He Hrest) as [Hend Hlt].
      split; [assumption|]. intros o i Ho Hi.
      apply elem_of_cons in Ho as [->|Ho];
        [|apply elem_of_cons in Ho as [->|Ho]].
      * injection Hi as <-. lia.
      * injection Hi as <-. lia.
      * specialize (Hlt o i Ho Hi). lia.
    + destruct (IH (S i0) s1 k q e Hs1 Hq Hraise He Hrest) as [Hend Hlt].
      split; [assumption|]. intros o i Ho Hi.
      apply elem_of_cons in Ho as [->|Ho]; [discriminate|].
      specialize (Hlt o i Ho Hi). lia.
    + destruct (Hbefore 0%nat position e') as [m ->];
        [lia|reflexivity|assumption|]. now destruct (He' m).
Qed.

(** Without such an exception the loop reaches the end of the list. *)
Lemma main_loop_completes (positions : list (Z * Z)) :
  forall (i0 : nat) (s : store),
    s !! bg_bgr = Some bg ->
    (forall j q e, positions !! j = Some q -> (paste q s0).1 = Raise e ->
                   exists m, e = ValueError m) ->
    (loop i0 positions s).1.2 = None.
Proof.
  induction positions as [|position rest IH]; intros i0 s Hs Hall;
    [reflexivity|].
  assert (Hrest : forall j q e, rest !! j = Some q ->
            (paste q s0).1 = Raise e -> exists m, e = ValueError m).
  { intros j q e. apply (Hall (S j) q e). }
  destruct (main_loop_step i0 position rest s Hs)
    as (s1 & Hs1 & [(out & E0 & ->)|[(m & E0 & ->)|(e' & E0 & He' & ->)]]);
    cbn [fst snd]; try now apply IH.
  destruct (Hall 0%nat position e') as [m ->]; [reflexivity|assumption|].
  now destruct (He' m).
Qed.

(** An exception that is not a [ValueError], and the first position that
    raises one. *)
Lemma first_uncaught (positions : list (Z * Z)) :
  forall (k : nat) (q : Z * Z) (e : exn),
    positions !! k = Some q ->
    (paste q s0).1 = Raise e ->
    (forall m, e <> ValueError m) ->
    exists (k' : nat) (q' : Z * Z) (e' : exn),
      (k' <= k)%nat
      /\ positions !! k' = Some q'
      /\ (paste q' s0).1 = Raise e'
      /\ (forall m, e' <> ValueError m)
      /\ forall j p e'', (j < k')%nat -> positions !! j = Some p ->
                         (paste p s0).1 = Raise e'' ->
                         exists m, e'' = ValueError m.
Proof.
  induction positions as [|position rest IH]; intros k q e Hq Hraise He;
    [discriminate|].
  assert (Hfirst : forall e1, (paste position s0).1 = Raise e1 ->
            (forall m, e1 <> ValueError m) ->
            exists (k' : nat) (q' : Z * Z) (e' : exn),
              (k' <= k)%nat
              /\ (position :: rest) !! k' = Some q'
              /\ (paste q' s0).1 = Raise e'
              /\ (forall m, e' <> ValueError m)
              /\ forall j p e'', (j < k')%nat ->
                   (position :: rest) !! j = Some p ->
                   (paste p s0).1 = Raise e'' ->
                   exists m, e'' = ValueError m).
  { intros e1 E1 He1. exists 0%nat, position, e1.
    split; [lia|]. split; [reflexivity|]. split; [assumption|].
    split; [assumption|]. intros j p e'' Hj. lia. }
  destruct k as [|k]; [injection Hq as ->; now apply (Hfirst e)|].
  cbn in Hq.
  assert (Hlater : (forall e1, (paste position s0).1 = Raise e1 ->
                               exists m, e1 = ValueError m) ->
            exists (k' : nat) (q' : Z * Z) (e' : exn),
              (k' <= S k)%nat
              /\ (position :: rest) !! k' = Some q'
              /\ (paste q' s0).1 = Raise e'
              /\ (forall m, e' <> ValueError m)
              /\ forall j p e'', (j < k')%nat ->
                   (position :: rest) !! j = Some p ->
                   (paste p s0).1 = Raise e'' ->
                   exists m, e'' = ValueError m).
  { intros Hcaught.
    destruct (IH k q e Hq Hraise He) as (k' & q' & e' & Hk & Hq' & E & Hn & Hb).
    exists (S k'), q', e'. split; [lia|]. split; [assumption|].
    split; [assumption|]. split; [assumption|].
    intros j p e'' Hj Hp Hr. destruct j as [|j].
    - injection Hp as <-. now apply Hcaught.
    - apply (Hb j p e''); [lia|assumption|assumption]. }
  destruct (paste position s0).1 as [r|[| |m| |]] eqn:E1.
  - apply Hlater. discriminate.
  - apply (Hfirst ZeroDivisionError); [reflexivity|discriminate].
  - apply (Hfirst OverflowError); [reflexivity|discriminate].
  - apply Hlater. intros e1 [= <-]. eauto.
  - apply (Hfirst cv2_error); [reflexivity|discriminate].
  - apply (Hfirst DanglingReference); [reflexivity|discriminate].
Qed.

End LoopFacts.

(** X15.  Every render starts from the background.  Whatever the list of
    positions and however the loop ends, the background array is in its
    place afterwards as it was, and each array handed to [cv2.imwrite] under
    the index [i] is, with its first and third channel exchanged, the result
    of one call of [paste_object] for the position of index [i] on the store
    the loop started from: the renders of the earlier positions are not in
    it. *)
Theorem renders_start_from_background {F : Type} {PF : PyFloat F}
    {G : Type} {N : NpFloat32 G}
    (inter_cubic : image (chan3 Z) -> Z -> Z -> image (chan3 Z))
    (inter_linear : image G -> Z -> Z -> image G)
    (s : store) (bg_bgr : loc) (bg obj_bgr : image (chan3 Z))
    (obj_alpha : image G) (height : F) (positions : list (Z * Z)) :
  s !! bg_bgr = Some bg ->
  let run :=
    main_loop inter_cubic inter_linear bg_bgr obj_bgr obj_alpha height 0
      positions s in
  run.2 !! bg_bgr = Some bg
  /\ forall (i : nat) (a : image (chan3 Z)),
       imwrite i a ∈ run.1.1 ->
       exists (position : Z * Z) (out : image (chan3 Z)),
         positions !! i = Some position
         /\ paste_object inter_cubic inter_linear bg_bgr obj_bgr obj_alpha
              position height main_camera s
            = (Ok (length s), s ++ [out])
         /\ a = cvtColor_BGR2RGB out.
Proof.
  intros Hs run.
  destruct (main_loop_sound inter_cubic inter_linear bg_bgr obj_bgr obj_alpha
              height bg s Hs positions 0%nat s Hs) as [Hkeep Hout].
  split; [exact Hkeep|]. intros i a Hin.
  destruct (Hout _ Hin) as (position & out & _ & Hp & E & ->).
  rewrite Nat.sub_0_r in Hp. eauto.
Qed.

Lemma renders_start_from_background_witness :
  (main_loop (F:=Q) (G:=Q) nearest nearest 0%nat sprite sprite_alpha_q
     (1 # 2)%Q 0 [(32, 4); (40, 4)] [scene]).2 !! 0%nat
  = Some scene.
Proof.
  refine (proj1 (renders_start_from_background (F:=Q) (G:=Q) nearest nearest
                   [scene] 0%nat scene sprite sprite_alpha_q (1 # 2)%Q
                   [(32, 4); (40, 4)] _)).
  reflexivity.
Defined.

(** X16.  The first exception that is not a [ValueError] ends the loop.  If
    the call for the position of index [k] raises such an exception [e] and
    no earlier position does, the loop ends with [e]; every earlier position
    whose call returns has been written under its own index, and nothing is
    written or reported as written under the index [k] or a later one. *)
Theorem loop_ends_at_first_error {F : Type} {PF : PyFloat F}
    {G : Type} {N : NpFloat32 G}
    (inter_cubic : image (chan3 Z) -> Z -> Z -> image (chan3 Z))
    (inter_linear : image G -> Z -> Z -> image G)
    (s : store) (bg_bgr : loc) (bg obj_bgr : image (chan3 Z))
    (obj_alpha : image G) (height : F) (positions : list (Z * Z))
    (k : nat) (position : Z * Z) (e : exn) :
  let paste p :=
    paste_object inter_cubic inter_linear bg_bgr obj_bgr obj_alpha p height
      main_camera s in
  let run :=
    main_loop inter_cubic inter_linear bg_bgr obj_bgr obj_alpha height 0
      positions s in
  s !! bg_bgr = Some bg ->
  positions !! k = Some position ->
  (paste position).1 = Raise e ->
  (forall m, e <> ValueError m) ->
  (forall j p e', (j < k)%nat -> positions !! j = Some p ->
                  (paste p).1 = Raise e' -> exists m, e' = ValueError m) ->
  run.1.2 = Some e
  /\ (forall o i, o ∈ run.1.1 -> output_index o = Some i -> (i < k)%nat)
  /\ forall j p out,
       (j < k)%nat -> positions !! j = Some p ->
       paste p = (Ok (length s), s ++ [out]) ->
       imwrite j (cvtColor_BGR2RGB out) ∈ run.1.1.
Proof.
  intros paste run Hs Hk Hraise He Hbefore.
  destruct (main_loop_ends inter_cubic inter_linear bg_bgr obj_bgr obj_alpha
              height bg s Hs positions 0%nat s k position e Hs Hk Hraise He
              Hbefore) as [Hend Hlt].
  split; [exact Hend|]. split; [exact Hlt|].
  intros j p out Hj Hp E.
  apply (main_loop_handles inter_cubic inter_linear bg_bgr obj_bgr obj_alpha
           height bg s Hs positions 0%nat s j p Hs Hp); [|exact E].
  intros j' q' e' Hj'. apply Hbefore. lia.
Qed.

Lemma loop_ends_at_first_error_witness :
  (main_loop (F:=Q) (G:=Q) nearest nearest 0%nat sprite sprite_alpha_q
     (1 # 2)%Q 0 [(32, 4); (20, 4); (24, 4); (40, 4)] [scene]).1.2
  = Some ZeroDivisionError.
Proof.
  refine (proj1 (loop_ends_at_first_error (F:=Q) (G:=Q) nearest nearest
                   [scene] 0%nat scene sprite sprite_alpha_q (1 # 2)%Q
                   [(32, 4); (20, 4); (24, 4); (40, 4)] 2%nat (24, 4)
                   ZeroDivisionError _ _ _ _ _)).
  - reflexivity.
  - reflexivity.
  - vm_compute. reflexivity.
  - discriminate.
  - intros [|[|j]] p e' Hj Hp Hr; [| |lia]; injection Hp as <-;
      vm_compute in Hr; [discriminate|].
    injection Hr as <-. eexists. reflexivity.
Defined.

(** X17.  The index of a render is the index of its position.  When no call
    raises anything but a [ValueError], the loop reaches the end of the
    list; [render_i] is reported as written exactly when the call for the
    position of index [i] returns, and a position is reported as skipped
    with a message exactly when its call raises the [ValueError] of that
    message.  So a skipped position leaves a gap in the numbering. *)
Theorem render_index_is_position_index {F : Type} {PF : PyFloat F}
    {G : Type} {N : NpFloat32 G}
    (inter_cubic : image (chan3 Z) -> Z -> Z -> image (chan3 Z))
    (inter_linear : image G -> Z -> Z -> image G)
    (s : store) (bg_bgr : loc) (bg obj_bgr : image (chan3 Z))
    (obj_alpha : image G) (height : F) (positions : list (Z * Z)) :
  let paste p :=
    paste_object inter_cubic inter_linear bg_bgr obj_bgr obj_alpha p height
      main_camera s in
  let run :=
    main_loop inter_cubic inter_linear bg_bgr obj_bgr obj_alpha height 0
      positions s in
  s !! bg_bgr = Some bg ->
  (forall j p e, positions !! j = Some p -> (paste p).1 = Raise e ->
                 exists m, e = ValueError m) ->
  run.1.2 = None
  /\ (forall i,
        Wrote i ∈ run.1.1
        <-> exists p result, positions !! i = Some p
                             /\ (paste p).1 = Ok result)
  /\ (forall p m,
        Skipping p m ∈ run.1.1
        <-> exists j, positions !! j = Some p
                      /\ (paste p).1 = Raise (ValueError m)).
Proof.
  intros paste run Hs Hall.
  destruct (main_loop_sound inter_cubic inter_linear bg_bgr obj_bgr obj_alpha
              height bg s Hs positions 0%nat s Hs) as [_ Hout].
  assert (Hhandles : forall j p, positions !! j = Some p ->
            (forall out, paste p = (Ok (length s), s ++ [out]) ->
                         imwrite j (cvtColor_BGR2RGB out) ∈ run.1.1
                         /\ Wrote j ∈ run.1.1)
            /\ (forall m, (paste p).1 = Raise (ValueError m) ->
                          Skipping p m ∈ run.1.1)).
  { intros j p Hp.
    apply (main_loop_handles inter_cubic inter_linear bg_bgr obj_bgr
             obj_alpha height bg s Hs positions 0%nat s j p Hs Hp).
    intros j' q' e' _. apply Hall. }
  split; [|split].
  - now apply (main_loop_completes inter_cubic inter_linear bg_bgr obj_bgr
                 obj_alpha height bg s Hs).
  - intros i. split.
    + intros Hin. destruct (Hout _ Hin) as (p & out & _ & Hp & E).
      rewrite Nat.sub_0_r in Hp. exists p, (length s).
      split; [assumption|]. unfold paste. now rewrite E.
    + intros (p & result & Hp & E).
      destruct (paste_any_store inter_cubic inter_linear bg_bgr obj_bgr
                  obj_alpha height bg s Hs s p Hs)
        as [_ [(out & E0 & _)|(e & E0 & _)]].
      * destruct (Hhandles i p Hp) as [Hok _]. now apply (Hok out).
      * unfold paste in E. rewrite E in E0. discriminate.
  - intros p m. split.
    + intros Hin. exact (Hout _ Hin).
    + intros (j & Hp & E). destruct (Hhandles j p Hp) as [_ Hskip].
      now apply Hskip.
Qed.

Lemma render_index_is_position_index_witness :
  (main_loop (F:=Q) (G:=Q) nearest nearest 0%nat sprite sprite_alpha_q
     (1 # 2)%Q 0 [(20, 4); (32, 4)] [scene]).1.2
  = None.
Proof.
  refine (proj1 (render_index_is_position_index (F:=Q) (G:=Q) nearest nearest
                   [scene] 0%nat scene sprite sprite_alpha_q (1 # 2)%Q
                   [(20, 4); (32, 4)] _ _)).
  - reflexivity.
  - intros [|[|j]] p e Hp Hr; [| |discriminate]; injection Hp as <-;
      vm_compute in Hr; [|discriminate].
    injection Hr as <-. eexists. reflexivity.
Defined.

(** X18.  A position on the middle row ends the program.  In binary64,
    with the camera of [main.py] and any object height: on a background of
    [2 * y_px] rows, for [y_px] from 1 to 20000, the call of [paste_object]
    for a position in row [y_px] is not skipped; it raises
    [ZeroDivisionError], which the loop does not catch.  So the loop ends
    with an exception that is not a [ValueError], nothing is written under
    the index of that position or a later one, and the exception is
    [ZeroDivisionError] unless an earlier position has raised another. *)
Theorem horizon_position_ends_loop {G : Type} {N : NpFloat32 G}
    (inter_cubic : image (chan3 Z) -> Z -> Z -> image (chan3 Z))
    (inter_linear : image G -> Z -> Z -> image G)
    (s : store) (bg_bgr : loc) (bg obj_bgr : image (chan3 Z))
    (obj_alpha : image G) (height : float) (positions : list (Z * Z))
    (k : nat) (y_px x_px : Z) :
  let paste p :=
    paste_object (F:=float) inter_cubic inter_linear bg_bgr obj_bgr obj_alpha
      p height main_camera s in
  let run :=
    main_loop (F:=float) inter_cubic inter_linear bg_bgr obj_bgr obj_alpha
      height 0 positions s in
  s !! bg_bgr = Some bg ->
  1 <= y_px <= 20000 ->
  (shape bg).1 = 2 * y_px ->
  positions !! k = Some (y_px, x_px) ->
  paste (y_px, x_px) = (Raise ZeroDivisionError, s)
  /\ exists e,
       run.1.2 = Some e
       /\ (forall m, e <> ValueError m)
       /\ (forall o i, o ∈ run.1.1 -> output_index o = Some i -> (i < k)%nat)
       /\ ((forall j p e', (j < k)%nat -> positions !! j = Some p ->
                           (paste p).1 = Raise e' ->
                           exists m, e' = ValueError m) ->
           e = ZeroDivisionError).
Proof.
  intros paste run Hs Hy Hrows Hk.
  assert (Hraise : paste (y_px, x_px) = (Raise ZeroDivisionError, s)).
  { unfold paste. rewrite (paste_object_unfold _ _ _ _ bg) by assumption.
    rewrite Hrows. now rewrite (binary64_middle y_px height Hy). }
  split; [exact Hraise|].
  destruct (first_uncaught inter_cubic inter_linear bg_bgr obj_bgr obj_alpha
              height s positions k (y_px, x_px) ZeroDivisionError Hk)
    as (k' & q' & e' & Hk' & Hq' & E & Hn & Hb).
  { unfold paste in Hraise. now rewrite Hraise. }
  { discriminate. }
  destruct (main_loop_ends inter_cubic inter_linear bg_bgr obj_bgr obj_alpha
              height bg s Hs positions 0%nat s k' q' e' Hs Hq' E Hn Hb)
    as [Hend Hlt].
  exists e'. split; [exact Hend|]. split; [exact Hn|]. split.
  - intros o i Ho Hi. specialize (Hlt o i Ho Hi). lia.
  - intros Hcaught.
    destruct (Nat.eq_dec k' k) as [->|Hne].
    + rewrite Hk in Hq'. injection Hq' as <-.
      unfold paste in Hraise. rewrite Hraise in E. now injection E as <-.
    + destruct (Hcaught k' q' e') as [m ->]; [lia|assumption|assumption|].
      now destruct (Hn m).
Qed.

Lemma horizon_position_ends_loop_witness :
  paste_object (F:=float) (G:=spec_float) nearest nearest 0%nat sprite
    sprite_alpha_b32 (24, 4) height_0_4 main_camera [scene]
  = (Raise ZeroDivisionError, [scene]).
Proof.
  refine (proj1 (horizon_position_ends_loop (G:=spec_float) nearest nearest
                   [scene] 0%nat scene sprite sprite_alpha_b32 height_0_4
                   [(32, 4); (24, 4); (40, 4)] 1%nat 24 4 _ _ _ _)).
  - reflexivity.
  - lia.
  - reflexivity.
  - reflexivity.
Defined.

(** The loop on four positions: the first is rendered, the second lies
    above the middle row and is skipped, the third lies on it and ends the
    loop, the fourth is never reached.  Exact arithmetic and binary64 with
    a binary32 mask agree. *)
Example main_loop_runs :
  let run_q :=
    main_loop (F:=Q) (G:=Q) nearest nearest 0%nat sprite sprite_alpha_q
      (1 # 2)%Q 0 [(32, 4); (20, 4); (24, 4); (40, 4)] [scene] in
  let run_b :=
    main_loop (F:=float) (G:=spec_float) nearest nearest 0%nat sprite
      sprite_alpha_b32 0.5%float 0 [(32, 4); (20, 4); (24, 4); (40, 4)]
      [scene] in
  run_q = run_b
  /\ output_index <$> run_q.1.1 = [Some 0%nat; Some 0%nat; None]
  /\ run_q.1.1 !! 2%nat = Some (Skipping (20, 4) msg_above_horizon)
  /\ run_q.1.2 = Some ZeroDivisionError
  /\ length run_q.2 = 2%nat.
Proof. repeat split; vm_compute; reflexivity. Qed.
